(** * package-operator: finalizers, condition mapping, SecretSync and the
      ObjectDeployment reconciler

    A shallow embedding of

    - [internal/controllers/controllers.go] (finalizer helpers and condition
      mapping),
    - [internal/controllers/secretsync/reconcilers.go] (the three SecretSync
      reconcilers),
    - the ObjectDeployment reconciler of [internal/packages], of which only
      the test file [deployment_reconciler_test.go] is at hand.

    Go code that talks to the API server or to the dynamic cache is embedded
    as a program over an effect signature: a call to an interface method is a
    node of the program, its answer is supplied by a handler.  Statements
    about "which calls are issued" are statements about the transcript of a
    run, for every handler. *)

From Stdlib Require Import ZArith.
From stdpp Require Import base option list strings gmap.

Set Default Proof Using "Type".

Open Scope Z_scope.
Open Scope stdpp_scope.

(* ===================================================================== *)
(** ** Keys, errors *)
(* ===================================================================== *)

(** [types.NamespacedName] (also [client.ObjectKey]). *)
Module types.
Record NamespacedName := { Namespace : string; Name : string }.

(** [func (n NamespacedName) String() string]: namespace, separator, name. *)
Definition String (n : NamespacedName) : string :=
  Namespace n +:+ "/" +:+ Name n.

#[global] Instance NamespacedName_eq_dec : EqDecision NamespacedName.
Proof. solve_decision. Defined.
End types.

(** [metav1.StatusReason], restricted to the reasons the code tests for. *)
Inductive StatusReason :=
| StatusReasonUnknown
| StatusReasonNotFound
| StatusReasonAlreadyExists
| StatusReasonConflict.

#[global] Instance StatusReason_eq_dec : EqDecision StatusReason.
Proof. solve_decision. Defined.

(** Go's [error] values as the code builds them:
    - [errors.New text];
    - an API status error carrying a reason ([errors.NewNotFound], ...);
    - [fmt.Errorf (pre ++ "%w" ++ post) err], which wraps [err];
    - [&sliceCollisionError{key}] of [internal/packages]. *)
Inductive error :=
| errors_New (text : string)
| StatusError (reason : StatusReason) (message : string)
| fmt_Errorf (pre : string) (err : error) (post : string)
| sliceCollisionError (key : types.NamespacedName).

#[global] Instance error_eq_dec : EqDecision error.
Proof. unfold EqDecision, Decision. decide equality; solve_decision. Defined.

(** The [Error() string] method. *)
Fixpoint Error (e : error) : string :=
  match e with
  | errors_New text => text
  | StatusError _ message => message
  | fmt_Errorf pre err post => pre +:+ Error err +:+ post
  | sliceCollisionError key => "ObjectSlice collision with " +:+ types.String key
  end.

(** [errors.Unwrap], iterated: the error at the bottom of a chain of wraps. *)
Fixpoint rootCause (e : error) : error :=
  match e with
  | fmt_Errorf _ err _ => rootCause err
  | _ => e
  end.

(** The [pre] texts met on the way down, outermost first. *)
Fixpoint contexts (e : error) : list string :=
  match e with
  | fmt_Errorf pre err _ => pre :: contexts err
  | _ => []
  end.

(** [apierrors.ReasonForError]: [errors.As] walks the chain of wraps up to the
    first status error. *)
Fixpoint ReasonForError (e : error) : StatusReason :=
  match e with
  | StatusError reason _ => reason
  | fmt_Errorf _ err _ => ReasonForError err
  | _ => StatusReasonUnknown
  end.

Definition IsNotFound (e : error) : bool :=
  bool_decide (ReasonForError e = StatusReasonNotFound).
Definition IsAlreadyExists (e : error) : bool :=
  bool_decide (ReasonForError e = StatusReasonAlreadyExists).
Definition IsConflict (e : error) : bool :=
  bool_decide (ReasonForError e = StatusReasonConflict).

(** [client.IgnoreNotFound]. *)
Definition IgnoreNotFound (err : option error) : option error :=
  match err with
  | Some e => if IsNotFound e then None else Some e
  | None => None
  end.

(** [errors.Is err target] for a sentinel [target]. *)
Fixpoint errors_Is (e target : error) : bool :=
  bool_decide (e = target) ||
  match e with
  | fmt_Errorf _ err _ => errors_Is err target
  | _ => false
  end.

(* ===================================================================== *)
(** ** [metav1]: object metadata and conditions *)
(* ===================================================================== *)

Module metav1.
Record TypeMeta := { APIVersion : string; Kind : string }.

Record OwnerReference := {
  ownerAPIVersion : string;
  ownerKind : string;
  ownerName : string;
  ownerUID : string;
  ownerController : bool
}.

(** [metav1.Time]: an instant, counted from Go's zero [time.Time]; a nil
    [*metav1.Time] is [None]. *)
Definition Time := Z.

(** [func (t *Time) IsZero() bool]. *)
Definition IsZero (t : option Time) : bool :=
  match t with
  | None => true
  | Some v => v =? 0
  end.

Record ObjectMeta := {
  Name : string;
  Namespace : string;
  UID : string;
  ResourceVersion : string;
  Generation : Z;
  DeletionTimestamp : option Time;
  Labels : gmap string string;
  Annotations : gmap string string;
  OwnerReferences : list OwnerReference;
  Finalizers : list string
}.

Definition withFinalizers (fs : list string) (m : ObjectMeta) : ObjectMeta :=
  {| Name := Name m; Namespace := Namespace m; UID := UID m;
     ResourceVersion := ResourceVersion m; Generation := Generation m;
     DeletionTimestamp := DeletionTimestamp m; Labels := Labels m;
     Annotations := Annotations m; OwnerReferences := OwnerReferences m;
     Finalizers := fs |}.

(** The zero [ObjectMeta{}] with the three fields the code fills in. *)
Definition ObjectMeta_of (namespace name : string) (labels : gmap string string)
  : ObjectMeta :=
  {| Name := name; Namespace := namespace; UID := "";
     ResourceVersion := ""; Generation := 0;
     DeletionTimestamp := None; Labels := labels;
     Annotations := ∅; OwnerReferences := []; Finalizers := [] |}.

(** [metav1.Condition]; [Type_] is the field [Type]. *)
Record Condition := {
  Type_ : string;
  Status : string;
  ObservedGeneration : Z;
  LastTransitionTime : Time;
  Reason : string;
  Message : string
}.

Definition ConditionTrue : string := "True".
Definition ConditionFalse : string := "False".

#[global] Instance Condition_eq_dec : EqDecision Condition.
Proof. solve_decision. Defined.
End metav1.

(** [client.Object]: what the finalizer helpers need of an object is its
    metadata, read and written through the accessor methods. *)
Class Object (T : Type) := {
  GetObjectMeta : T → metav1.ObjectMeta;
  SetObjectMeta : metav1.ObjectMeta → T → T;
  get_set_meta : ∀ m o, GetObjectMeta (SetObjectMeta m o) = m
}.

Section accessors.
Context {T : Type} `{Object T}.

Definition GetFinalizers (o : T) : list string :=
  metav1.Finalizers (GetObjectMeta o).
Definition SetFinalizers (fs : list string) (o : T) : T :=
  SetObjectMeta (metav1.withFinalizers fs (GetObjectMeta o)) o.
Definition GetResourceVersion (o : T) : string :=
  metav1.ResourceVersion (GetObjectMeta o).
Definition GetDeletionTimestamp (o : T) : option metav1.Time :=
  metav1.DeletionTimestamp (GetObjectMeta o).
End accessors.

(* ===================================================================== *)
(** ** [controllerutil]: finalizer lists *)
(* ===================================================================== *)

Module controllerutil.
(** The loop [for _, e := range f { if e == finalizer { return true } }]. *)
Fixpoint containsString (f : list string) (finalizer : string) : bool :=
  match f with
  | [] => false
  | e :: f' => if String.eqb e finalizer then true else containsString f' finalizer
  end.

(** The loop of [RemoveFinalizer]: every entry equal to [finalizer] goes. *)
Fixpoint removeString (f : list string) (finalizer : string) : list string :=
  match f with
  | [] => []
  | e :: f' =>
      if String.eqb e finalizer then removeString f' finalizer
      else e :: removeString f' finalizer
  end.

Section on_objects.
Context {T : Type} `{Object T}.

Definition ContainsFinalizer (o : T) (finalizer : string) : bool :=
  containsString (GetFinalizers o) finalizer.

(** Appends unless already there. *)
Definition AddFinalizer (o : T) (finalizer : string) : T :=
  let f := GetFinalizers o in
  if containsString f finalizer then o
  else SetFinalizers (f ++ [finalizer]) o.

Definition RemoveFinalizer (o : T) (finalizer : string) : T :=
  SetFinalizers (removeString (GetFinalizers o) finalizer) o.
End on_objects.
End controllerutil.

(* ===================================================================== *)
(** ** [k8s.io/apimachinery/pkg/api/meta]: status conditions *)
(* ===================================================================== *)

Module meta.
Import metav1.

(** [FindStatusCondition] returns a pointer into the slice: here the index
    of the first condition of that type. *)
Fixpoint FindStatusCondition (conditions : list Condition) (conditionType : string)
  : option nat :=
  match conditions with
  | [] => None
  | c :: rest =>
      if String.eqb (Type_ c) conditionType then Some 0%nat
      else S <$> FindStatusCondition rest conditionType
  end.

(** The field by field update of an existing condition; the transition time
    moves only with the status. *)
Definition updateCondition (now : Time) (existing newCondition : Condition)
  : Condition :=
  {| Type_ := Type_ existing;
     Status := Status newCondition;
     ObservedGeneration := ObservedGeneration newCondition;
     LastTransitionTime :=
       if String.eqb (Status existing) (Status newCondition)
       then LastTransitionTime existing
       else if LastTransitionTime newCondition =? 0 then now
            else LastTransitionTime newCondition;
     Reason := Reason newCondition;
     Message := Message newCondition |}.

Definition stampCondition (now : Time) (newCondition : Condition) : Condition :=
  {| Type_ := Type_ newCondition;
     Status := Status newCondition;
     ObservedGeneration := ObservedGeneration newCondition;
     LastTransitionTime :=
       if LastTransitionTime newCondition =? 0 then now
       else LastTransitionTime newCondition;
     Reason := Reason newCondition;
     Message := Message newCondition |}.

(** [SetStatusCondition conditions newCondition]: the new slice and the
    [changed] result.  [now] is the reading of [time.Now()]. *)
Definition SetStatusCondition (now : Time) (conditions : list Condition)
    (newCondition : Condition) : list Condition * bool :=
  match FindStatusCondition conditions (Type_ newCondition) with
  | None => (conditions ++ [stampCondition now newCondition], true)
  | Some i =>
      match conditions !! i with
      | None => (conditions, false)
      | Some existing =>
          let updated := updateCondition now existing newCondition in
          let changed :=
            negb (String.eqb (Status existing) (Status newCondition))
            || negb (String.eqb (Reason existing) (Reason newCondition))
            || negb (String.eqb (Message existing) (Message newCondition))
            || negb (ObservedGeneration existing =? ObservedGeneration newCondition) in
          (<[i := updated]> conditions, changed)
      end
  end.

(** [RemoveStatusCondition]: a fresh slice without the conditions of that
    type. *)
Fixpoint RemoveStatusCondition (conditions : list Condition) (conditionType : string)
  : list Condition :=
  match conditions with
  | [] => []
  | c :: rest =>
      if String.eqb (Type_ c) conditionType
      then RemoveStatusCondition rest conditionType
      else c :: RemoveStatusCondition rest conditionType
  end.
End meta.


(* ===================================================================== *)
(** ** API types: [corev1.Secret] and [v1alpha1.SecretSync] *)
(* ===================================================================== *)

Module corev1.
(** [v1.Secret]: type and object metadata, and the payload fields, which the
    reconcilers copy and never look into. *)
Record Secret := {
  TypeMeta : metav1.TypeMeta;
  ObjectMeta : metav1.ObjectMeta;
  Immutable : option bool;
  Data : gmap string string;
  StringData : gmap string string;
  SecretType : string
}.

(** The zero value [v1.Secret{}]. *)
Definition zero : Secret :=
  {| TypeMeta := {| metav1.APIVersion := ""; metav1.Kind := "" |};
     ObjectMeta := metav1.ObjectMeta_of "" "" ∅;
     Immutable := None; Data := ∅; StringData := ∅; SecretType := "" |}.

(** [v1.Secret{TypeMeta: t, ObjectMeta: m}]. *)
Definition bare (t : metav1.TypeMeta) (m : metav1.ObjectMeta) : Secret :=
  {| TypeMeta := t; ObjectMeta := m;
     Immutable := None; Data := ∅; StringData := ∅; SecretType := "" |}.

(** A deep copy whose [TypeMeta] and [ObjectMeta] are then overwritten. *)
Definition retarget (t : metav1.TypeMeta) (m : metav1.ObjectMeta) (s : Secret)
  : Secret :=
  {| TypeMeta := t; ObjectMeta := m;
     Immutable := Immutable s; Data := Data s; StringData := StringData s;
     SecretType := SecretType s |}.

#[global] Instance Secret_Object : Object Secret.
Proof.
  refine {| GetObjectMeta := ObjectMeta;
            SetObjectMeta m s := retarget (TypeMeta s) m s |}.
  intros m o. reflexivity.
Defined.
End corev1.

Module v1alpha1.
Record SecretSyncStrategyPoll := { Interval : Z }.
Record SecretSyncStrategyWatch := { }.

(** Both members are pointers in Go: [None] is nil. *)
Record SecretSyncStrategy := {
  Poll : option SecretSyncStrategyPoll;
  Watch : option SecretSyncStrategyWatch
}.

Record SecretSyncSpec := {
  Paused : bool;
  Strategy : SecretSyncStrategy;
  Src : types.NamespacedName;
  Dest : list types.NamespacedName
}.

(** [ControllerOf] is a slice compared with [reflect.DeepEqual], which tells
    a nil slice ([None]) from an empty one ([Some []]). *)
Record SecretSyncStatus := {
  Conditions : list metav1.Condition;
  Phase : string;
  ControllerOf : option (list types.NamespacedName)
}.

Record SecretSync := {
  ObjectMeta : metav1.ObjectMeta;
  Spec : SecretSyncSpec;
  Status : SecretSyncStatus
}.

Definition withStatus (st : SecretSyncStatus) (s : SecretSync) : SecretSync :=
  {| ObjectMeta := ObjectMeta s; Spec := Spec s; Status := st |}.

#[global] Instance SecretSync_Object : Object SecretSync.
Proof.
  refine {| GetObjectMeta := ObjectMeta;
            SetObjectMeta m s := {| ObjectMeta := m; Spec := Spec s; Status := Status s |} |}.
  intros m o. reflexivity.
Defined.

(** The string constants of the API package and of [internal/constants] that
    the reconcilers use; their values are declared outside the files at
    hand, so the reconcilers take them as a parameter. *)
Record Constants := {
  SecretSyncSync : string;
  SecretSyncPaused : string;
  SecretSyncStatusPhaseSync : string;
  SecretSyncStatusPhasePaused : string;
  constants_DynamicCacheLabel : string;
  constants_FieldOwner : string
}.
End v1alpha1.

#[global] Instance NamespacedName_countable : Countable types.NamespacedName.
Proof.
  refine (inj_countable'
            (λ n, (types.Namespace n, types.Name n))
            (λ p, {| types.Namespace := p.1; types.Name := p.2 |}) _).
  intros []. reflexivity.
Defined.

(* ===================================================================== *)
(** ** Programs over an effect signature *)
(* ===================================================================== *)

(** A Go function that calls interface methods is a tree: it returns, it
    panics, or it issues a call [c] and goes on with the answer. *)
Inductive prog (E : Type → Type) (A : Type) : Type :=
| Ret (a : A)
| Panic (v : error)
| Vis (X : Type) (c : E X) (k : X → prog E A).

Arguments Ret {E A} a.
Arguments Panic {E A} v.
Arguments Vis {E A X} c k.

Fixpoint bind {E A B} (m : prog E A) (f : A → prog E B) : prog E B :=
  match m with
  | Ret a => f a
  | Panic v => Panic v
  | Vis c k => Vis c (λ x, bind (k x) f)
  end.

#[global] Instance prog_ret {E} : MRet (prog E) := λ A a, Ret a.
#[global] Instance prog_bind {E} : MBind (prog E) := λ A B f m, bind m f.

Definition call {E X} (c : E X) : prog E X := Vis c Ret.

(** One entry of a transcript: a call and the answer it got. *)
Inductive entry (E : Type → Type) : Type :=
| Call (X : Type) (c : E X) (x : X).
Arguments Call {E X} c x.

(** A handler answers every call, threading its own state [W]: the API
    server, the cache, a test double. *)
Definition handler (E : Type → Type) (W : Type) : Type :=
  ∀ X, E X → W → X * W.

Inductive outcome (A W : Type) : Type :=
| Done (a : A) (w : W)
| Panicked (v : error) (w : W).
Arguments Done {A W} a w.
Arguments Panicked {A W} v w.

Fixpoint run {E A W} (h : handler E W) (m : prog E A) (w : W) : outcome A W :=
  match m with
  | Ret a => Done a w
  | Panic v => Panicked v w
  | Vis c k => let '(x, w') := h _ c w in run h (k x) w'
  end.

Fixpoint transcript {E A W} (h : handler E W) (m : prog E A) (w : W)
  : list (entry E) :=
  match m with
  | Ret _ | Panic _ => []
  | Vis c k => let '(x, w') := h _ c w in Call c x :: transcript h (k x) w'
  end.

(** What a run returned, if it returned. *)
Definition returned {A W} (o : outcome A W) : option A :=
  match o with
  | Done a _ => Some a
  | Panicked _ _ => None
  end.

Definition final {A W} (o : outcome A W) : W :=
  match o with
  | Done _ w | Panicked _ w => w
  end.

(* ===================================================================== *)
(** ** The calls of the controllers: client, dynamic cache, owner strategy *)
(* ===================================================================== *)

(** The value of a Go [map[string]interface{}] built from strings and string
    slices, as [json.Marshal] writes it (an object's keys in sorted order). *)
#[local] Unset Elimination Schemes.
Inductive json :=
| JNull
| JString (s : string)
| JArray (items : list json)
| JObject (fields : list (string * json)).
#[local] Set Elimination Schemes.

(** A [[]string] that is not nil. *)
Definition json_strings (l : list string) : json := JArray (JString <$> l).

(** [json.Marshal] has no failing case on such a value; the encoded bytes are
    stood for by the document they encode. *)
Definition json_Marshal (v : json) : json + error := inl v.

Fixpoint json_field (name : string) (fields : list (string * json)) : option json :=
  match fields with
  | [] => None
  | (k, v) :: rest => if String.eqb k name then Some v else json_field name rest
  end.

(** [doc.path1.path2], when both are there. *)
Definition json_at (doc : json) (outer inner : string) : option json :=
  match doc with
  | JObject fields =>
      match json_field outer fields with
      | Some (JObject fields') => json_field inner fields'
      | _ => None
      end
  | _ => None
  end.

Inductive PatchType := MergePatchType | ApplyPatchType.

(** [client.Patch] values: [client.RawPatch(type, data)] and [client.Apply]. *)
Inductive client_Patch :=
| RawPatch (patchType : PatchType) (data : json)
| client_Apply.

Inductive PatchOption :=
| ForceOwnership
| FieldOwner (name : string).

(** The two [client.Reader]s a source secret is read from. *)
Inductive reader := dynamicCacheReader | uncachedClientReader.

(** Calls on the collaborators.  A pointer argument the callee may write to
    comes back in the answer.  [EnsureDynamicCacheLabel] and
    [RemoveDynamicCacheLabel] are helpers of [internal/objecthandling] whose
    code is not at hand: they are calls like the others. *)
Inductive op : Type → Type :=
| Client_Patch (T : Type) (O : Object T) (obj : T) (patch : client_Patch)
    (opts : list PatchOption) : op (T * option error)
| Client_Delete (obj : corev1.Secret) : op (option error)
| Reader_Get (r : reader) (key : types.NamespacedName) (into : corev1.Secret)
    : op (corev1.Secret * option error)
| Cache_List (matchingLabels : gmap string string)
    : op (list corev1.Secret * option error)
| Cache_Watch (owner : v1alpha1.SecretSync) (obj : corev1.Secret) : op (option error)
| Cache_Free (T : Type) (O : Object T) (owner : T) : op (option error)
| OwnerStrategy_SetControllerReference (owner : v1alpha1.SecretSync)
    (obj : corev1.Secret) : op (corev1.Secret * option error)
| EnsureDynamicCacheLabel (obj : corev1.Secret) : op (option error)
| RemoveDynamicCacheLabel (obj : corev1.Secret) : op (option error).

Arguments Client_Patch {T O} obj patch opts.
Arguments Cache_Free {T O} owner.

(** Classifiers of transcript entries. *)
Definition isPatch (e : entry op) : bool :=
  match e with
  | Call (Client_Patch _ _ _) _ => true
  | _ => false
  end.

Definition isFree (e : entry op) : bool :=
  match e with
  | Call (Cache_Free _) _ => true
  | _ => false
  end.

(** The payload of a raw patch call, [None] for every other entry. *)
Definition patchData (e : entry op) : option json :=
  match e with
  | Call (Client_Patch _ (RawPatch _ data) _) _ => Some data
  | _ => None
  end.

(* ===================================================================== *)
(** ** [internal/controllers/controllers.go] *)
(* ===================================================================== *)

Module controllers.
Import metav1.

(** This label is set on all dynamic objects to limit caches. *)
Definition DynamicCacheLabel : string := "package-operator.run/cache".
(** Common finalizer to free allocated caches when objects are deleted. *)
Definition CachedFinalizer : string := "package-operator.run/cached".

Section finalizers.
Context {T : Type} `{Object T}.

(** Ensures the given finalizer is set and persisted on the given object.
    The object is a pointer in Go: it comes back with the error. *)
Definition EnsureFinalizer (obj : T) (finalizer : string)
  : prog op (T * option error) :=
  if controllerutil.ContainsFinalizer obj finalizer then Ret (obj, None)
  else
    let obj := controllerutil.AddFinalizer obj finalizer in
    let patch :=
      JObject [("metadata",
                JObject [("finalizers", json_strings (GetFinalizers obj));
                         ("resourceVersion", JString (GetResourceVersion obj))])] in
    match json_Marshal patch with
    | inr err =>
        Ret (obj, Some (fmt_Errorf "marshalling patch to remove finalizer: " err ""))
    | inl patchJSON =>
        '(obj, err) ← call (Client_Patch obj (RawPatch MergePatchType patchJSON) []);
        match err with
        | Some err => Ret (obj, Some (fmt_Errorf "adding finalizer: " err ""))
        | None => Ret (obj, None)
        end
    end.

(** Removes the given finalizer and persists the change. *)
Definition RemoveFinalizer (obj : T) (finalizer : string)
  : prog op (T * option error) :=
  if negb (controllerutil.ContainsFinalizer obj finalizer) then Ret (obj, None)
  else
    let obj := controllerutil.RemoveFinalizer obj finalizer in
    let patch :=
      JObject [("metadata",
                JObject [("finalizers", json_strings (GetFinalizers obj));
                         ("resourceVersion", JString (GetResourceVersion obj))])] in
    match json_Marshal patch with
    | inr err =>
        Ret (obj, Some (fmt_Errorf "marshalling patch to remove finalizer: " err ""))
    | inl patchJSON =>
        '(obj, err) ← call (Client_Patch obj (RawPatch MergePatchType patchJSON) []);
        match err with
        | Some err => Ret (obj, Some (fmt_Errorf "removing finalizer: " err ""))
        | None => Ret (obj, None)
        end
    end.

Definition EnsureCachedFinalizer (obj : T) : prog op (T * option error) :=
  EnsureFinalizer obj CachedFinalizer.

(** Frees caches and removes the associated finalizer. *)
Definition FreeCacheAndRemoveFinalizer (obj : T) : prog op (T * option error) :=
  err ← call (Cache_Free obj);
  match err with
  | Some err => Ret (obj, Some (fmt_Errorf "free cache: " err ""))
  | None => RemoveFinalizer obj CachedFinalizer
  end.
End finalizers.

(** [strings.Contains]. *)
Fixpoint strings_Contains (s substr : string) : bool :=
  String.prefix substr s ||
  match s with
  | EmptyString => false
  | String _ s' => strings_Contains s' substr
  end.

Definition IsMappedCondition (cond : Condition) : bool :=
  strings_Contains (Type_ cond) "/".

(** The loop of [MapConditions], from the [i]-th source condition on.
    [now i] is what [time.Now()] reads while that condition is handled. *)
Fixpoint MapConditions_from (now : nat → Time) (i : nat)
    (srcGeneration : Z) (srcConditions : list Condition)
    (destGeneration : Z) (destConditions : list Condition) : list Condition :=
  match srcConditions with
  | [] => destConditions
  | condition :: rest =>
      if negb (ObservedGeneration condition =? srcGeneration) then
        (* mapped condition is outdated *)
        MapConditions_from now (S i) srcGeneration rest destGeneration destConditions
      else if negb (IsMappedCondition condition) then
        (* mapped conditions are prefixed *)
        MapConditions_from now (S i) srcGeneration rest destGeneration destConditions
      else
        MapConditions_from now (S i) srcGeneration rest destGeneration
          (meta.SetStatusCondition (now i) destConditions
             {| Type_ := Type_ condition;
                Status := Status condition;
                Reason := Reason condition;
                Message := Message condition;
                ObservedGeneration := destGeneration;
                LastTransitionTime := 0 |}).1
  end.

(** [destConditions] is a pointer to a slice in Go; the slice it points to
    is the last argument and the result. *)
Definition MapConditions (now : nat → Time)
    (srcGeneration : Z) (srcConditions : list Condition)
    (destGeneration : Z) (destConditions : list Condition) : list Condition :=
  MapConditions_from now 0 srcGeneration srcConditions destGeneration destConditions.

(** The [range] runs over the slice as it was on entry; every removal
    replaces the slice the pointer refers to. *)
Definition DeleteMappedConditions (conditions : list Condition) : list Condition :=
  foldl (λ current cond,
           if IsMappedCondition cond
           then meta.RemoveStatusCondition current (Type_ cond)
           else current)
        conditions conditions.
(** [schema.GroupVersionKind] and [corev1alpha1.ControlledObjectReference]. *)
Record GroupVersionKind := { Group : string; Version : string; Kind : string }.
Record ControlledObjectReference := {
  refKind : string;
  refGroup : string;
  refName : string;
  refNamespace : string
}.

Section GetControllerOf.
Context {O T : Type} `{Object T}.
(** [ownerStrategy.IsController(owner, obj)], and
    [apiutil.GVKForObject(obj, scheme)] for the scheme passed in. *)
Variable IsController : O → T → bool.
Variable GVKForObject : T → GroupVersionKind + error.

Fixpoint GetControllerOf_from (owner : O) (actualObjects : list T)
    (controllerOf : list ControlledObjectReference)
  : list ControlledObjectReference + error :=
  match actualObjects with
  | [] => inl controllerOf
  | actualObj :: rest =>
      if negb (IsController owner actualObj) then
        GetControllerOf_from owner rest controllerOf
      else
        match GVKForObject actualObj with
        | inr err => inr err
        | inl gvk =>
            GetControllerOf_from owner rest
              (controllerOf ++
                 [{| refKind := Kind gvk;
                     refGroup := Group gvk;
                     refName := Name (GetObjectMeta actualObj);
                     refNamespace := Namespace (GetObjectMeta actualObj) |}])
        end
  end.

(** Returns a list of ControlledObjectReferences controlled by this instance. *)
Definition GetControllerOf (owner : O) (actualObjects : list T)
  : list ControlledObjectReference + error :=
  GetControllerOf_from owner actualObjects [].
End GetControllerOf.
End controllers.

(* ===================================================================== *)
(** ** [internal/controllers/secretsync/reconcilers.go] *)
(* ===================================================================== *)

Module secretsync.
Import metav1.

Definition ManagedByLabel : string := "package-operator.run/managed-by-secretsync".

Definition ErrInvalidStrategy : error := errors_New "invalid strategy".

(** The fields of [reconcileResult] the reconcilers set. *)
Record reconcileResult := { statusChanged : bool }.

Definition makeCoreV1SecretTypeMeta : TypeMeta :=
  {| APIVersion := "v1"; Kind := "Secret" |}.

(** What a [Reconcile] method leaves behind: the object behind the pointer,
    the result and the error. *)
Definition reconciled : Type :=
  v1alpha1.SecretSync * reconcileResult * option error.

Definition fail (secretSync : v1alpha1.SecretSync) (err : error) : reconciled :=
  (secretSync, {| statusChanged := false |}, Some err).

Definition succeed (secretSync : v1alpha1.SecretSync) : reconciled :=
  (secretSync, {| statusChanged := false |}, None).

(** [&v1.Secret{TypeMeta: ..., ObjectMeta: {Name: src.Name, Namespace:
    src.Namespace}}], built three times in the file. *)
Definition srcSecretRef (secretSync : v1alpha1.SecretSync) : corev1.Secret :=
  corev1.bare makeCoreV1SecretTypeMeta
    (ObjectMeta_of
       (types.Namespace (v1alpha1.Src (v1alpha1.Spec secretSync)))
       (types.Name (v1alpha1.Src (v1alpha1.Spec secretSync))) ∅).

Definition deletionReconciler_Reconcile (secretSync : v1alpha1.SecretSync)
  : prog op reconciled :=
  (* Return early if object is live. *)
  if IsZero (DeletionTimestamp (v1alpha1.ObjectMeta secretSync)) then
    Ret (succeed secretSync)
  else
    (* Take care of potential cleanup when object is deleting. *)
    let strategy := v1alpha1.Strategy (v1alpha1.Spec secretSync) in
    match v1alpha1.Poll strategy, v1alpha1.Watch strategy with
    (* Nothing to do if sync strategy is "poll". *)
    | Some _, _ => Ret (succeed secretSync)
    (* Free cache and remove finalizer from object if sync strategy is "watch". *)
    | None, Some _ =>
        err ← call (RemoveDynamicCacheLabel (srcSecretRef secretSync));
        match IgnoreNotFound err, err with
        | Some _, Some err =>
            Ret (fail secretSync
                   (fmt_Errorf "remove cache label from source secret: " err ""))
        | _, _ =>
            '(secretSync, err) ← controllers.FreeCacheAndRemoveFinalizer secretSync;
            match err with
            | Some err =>
                Ret (fail secretSync
                       (fmt_Errorf "free cache and remove finalizer: " err ""))
            | None => Ret (succeed secretSync)
            end
        end
    (* Error out if sync strategy is neither of the above. *)
    | None, None =>
        Ret (fail secretSync
               (fmt_Errorf "" ErrInvalidStrategy ": strategy not implemented"))
    end.

(** [srcReaderForStrategy] returns the correct client for getting the source
    secret for the given strategy; [inr] is the panic. *)
Definition srcReaderForStrategy (strategy : v1alpha1.SecretSyncStrategy)
  : reader + error :=
  match v1alpha1.Watch strategy, v1alpha1.Poll strategy with
  | Some _, _ => inl dynamicCacheReader
  | None, Some _ => inl uncachedClientReader
  | None, None => inr ErrInvalidStrategy
  end.

Section secretReconciler.
Variable K : v1alpha1.Constants.

(** The object a destination secret is patched to. *)
Definition targetObject (secretSync : v1alpha1.SecretSync)
    (srcSecret : corev1.Secret) (dest : types.NamespacedName) : corev1.Secret :=
  corev1.retarget
    {| APIVersion := "v1"; Kind := "Secret" |}
    (ObjectMeta_of (types.Namespace dest) (types.Name dest)
       (<[v1alpha1.constants_DynamicCacheLabel K := "True"]>
          (<[ManagedByLabel := Name (v1alpha1.ObjectMeta secretSync)]> ∅)))
    srcSecret.

(** The loop "Sync to destination secrets": [inl] is its early return. *)
Fixpoint syncDest (secretSync : v1alpha1.SecretSync) (srcSecret : corev1.Secret)
    (dests : list types.NamespacedName)
    (controllerOf : list types.NamespacedName)
    (controllerOfLUT : gset types.NamespacedName)
  : prog op (error + list types.NamespacedName * gset types.NamespacedName) :=
  match dests with
  | [] => Ret (inr (controllerOf, controllerOfLUT))
  | dest :: rest =>
      let targetObject := targetObject secretSync srcSecret dest in
      (* Ensure to watch Secrets. *)
      err ← call (Cache_Watch secretSync targetObject);
      match err with
      | Some err => Ret (inl (fmt_Errorf "watching new resource: " err ""))
      | None =>
      '(targetObject, err) ←
        call (OwnerStrategy_SetControllerReference secretSync targetObject);
      match err with
      | Some err => Ret (inl (fmt_Errorf "setting controller reference: " err ""))
      | None =>
      '(_, err) ←
        call (Client_Patch targetObject client_Apply
                [ForceOwnership; FieldOwner (v1alpha1.constants_FieldOwner K)]);
      match err with
      | Some err => Ret (inl (fmt_Errorf "patching destination secret: " err ""))
      | None =>
          let key := {| types.Namespace := types.Namespace dest;
                        types.Name := types.Name dest |} in
          syncDest secretSync srcSecret rest (controllerOf ++ [key])
            ({[key]} ∪ controllerOfLUT)
      end end end
  end.

(** The loop "Delete secrets that are not managed anymore". *)
Fixpoint deleteUnmanaged (items : list corev1.Secret)
    (controllerOfLUT : gset types.NamespacedName) : prog op (option error) :=
  match items with
  | [] => Ret None
  | managedSecret :: rest =>
      let key := {| types.Namespace := Namespace (corev1.ObjectMeta managedSecret);
                    types.Name := Name (corev1.ObjectMeta managedSecret) |} in
      (* Skip secrets that are still managed. *)
      if bool_decide (key ∈ controllerOfLUT) then deleteUnmanaged rest controllerOfLUT
      else
        (* Delete unmanaged secret, ignoring NotFound errors. *)
        err ← call (Client_Delete
                      (corev1.bare {| APIVersion := ""; Kind := "" |}
                         (ObjectMeta_of (types.Namespace key) (types.Name key) ∅)));
        match IgnoreNotFound err, err with
        | Some _, Some err =>
            Ret (Some (fmt_Errorf "deleting uncontrolled Secret: " err ""))
        | _, _ => deleteUnmanaged rest controllerOfLUT
        end
  end.

(** [now] is what [time.Now()] reads should [SetStatusCondition] ask. *)
Definition secretReconciler_Reconcile (now : Time) (secretSync : v1alpha1.SecretSync)
  : prog op reconciled :=
  (* Do nothing if SecretSync is paused or is deleting. *)
  if v1alpha1.Paused (v1alpha1.Spec secretSync)
     || negb (IsZero (DeletionTimestamp (v1alpha1.ObjectMeta secretSync)))
  then Ret (succeed secretSync)
  else
  (* Take care of correctly caching and watching the source secret if
     strategy is "watch". *)
  '(secretSync, err) ←
    match v1alpha1.Watch (v1alpha1.Strategy (v1alpha1.Spec secretSync)) with
    | None => Ret (secretSync, None)
    | Some _ =>
        (* Add the cache finalizer to SecretSync object before dynamically
           caching the source Secret. *)
        '(secretSync, err) ← controllers.EnsureCachedFinalizer secretSync;
        match err with
        | Some err =>
            Ret (secretSync, Some (fmt_Errorf "adding cached finalizer: " err ""))
        | None =>
        (* Ensure that the source Secret has the dynamic cache label. *)
        err ← call (EnsureDynamicCacheLabel (srcSecretRef secretSync));
        match err with
        | Some err =>
            Ret (secretSync, Some (fmt_Errorf "adding dynamic cache label: " err ""))
        | None =>
        (* Ensure that the SecretSync watches the source Secret for changes
           in our local cache. *)
        err ← call (Cache_Watch secretSync (srcSecretRef secretSync));
        match err with
        | Some err =>
            Ret (secretSync, Some (fmt_Errorf "watching source secret: " err ""))
        | None => Ret (secretSync, None)
        end end end
    end;
  match err with
  | Some err => Ret (fail secretSync err)
  | None =>
  match srcReaderForStrategy (v1alpha1.Strategy (v1alpha1.Spec secretSync)) with
  | inr v => Panic v
  | inl srcReader =>
  '(srcSecret, err) ←
    call (Reader_Get srcReader
            {| types.Namespace := types.Namespace (v1alpha1.Src (v1alpha1.Spec secretSync));
               types.Name := types.Name (v1alpha1.Src (v1alpha1.Spec secretSync)) |}
            corev1.zero);
  match err with
  | Some err => Ret (fail secretSync (fmt_Errorf "getting source object: " err ""))
  | None =>
  (* Keep track of controlled objects.  Sync to destination secrets. *)
  synced ← syncDest secretSync srcSecret
              (v1alpha1.Dest (v1alpha1.Spec secretSync)) [] ∅;
  match synced with
  | inl err => Ret (fail secretSync err)
  | inr (controllerOf, controllerOfLUT) =>
  (* Garbage collect secrets not managed by this SecretSync anymore. *)
  '(managedSecretsList, err) ←
    call (Cache_List (<[ManagedByLabel := Name (v1alpha1.ObjectMeta secretSync)]> ∅));
  match err with
  | Some err => Ret (fail secretSync (fmt_Errorf "listing managed secrets: " err ""))
  | None =>
  (* Delete secrets that are not managed anymore. *)
  err ← deleteUnmanaged managedSecretsList controllerOfLUT;
  match err with
  | Some err => Ret (fail secretSync err)
  | None =>
  (* Update Sync condition. *)
  let status := v1alpha1.Status secretSync in
  let '(conditions, condChanged) :=
    meta.SetStatusCondition now (v1alpha1.Conditions status)
      {| Type_ := v1alpha1.SecretSyncSync K;
         Status := ConditionTrue;
         Reason := "SuccessfulSync";
         Message := "Synchronization completed successfully.";
         ObservedGeneration := Generation (v1alpha1.ObjectMeta secretSync);
         LastTransitionTime := 0 |} in
  (* Check if status would be changed before updating the rest of the status. *)
  let statusChanged :=
    condChanged
    || negb (bool_decide (v1alpha1.ControllerOf status = Some controllerOf))
    || negb (String.eqb (v1alpha1.Phase status) (v1alpha1.SecretSyncStatusPhaseSync K)) in
  (* Update rest of status. *)
  Ret (v1alpha1.withStatus
         {| v1alpha1.Conditions := conditions;
            v1alpha1.Phase := v1alpha1.SecretSyncStatusPhaseSync K;
            v1alpha1.ControllerOf := Some controllerOf |} secretSync,
       {| statusChanged := statusChanged |}, None)
  end end end end end end.

Definition pausedBoolToConditionBool (b : bool) : string :=
  if b then ConditionTrue else ConditionFalse.

Definition pausedBoolToConditionReason (b : bool) : string :=
  if b then "SpecSaysPaused" else "SpecSaysUnpaused".

Definition pauseReconciler_Reconcile (now : Time) (secretSync : v1alpha1.SecretSync)
  : prog op reconciled :=
  if negb (IsZero (DeletionTimestamp (v1alpha1.ObjectMeta secretSync))) then
    Ret (succeed secretSync)
  else
    let status := v1alpha1.Status secretSync in
    let paused := v1alpha1.Paused (v1alpha1.Spec secretSync) in
    let '(conditions, condChanged) :=
      meta.SetStatusCondition now (v1alpha1.Conditions status)
        {| Type_ := v1alpha1.SecretSyncPaused K;
           Status := pausedBoolToConditionBool paused;
           Reason := pausedBoolToConditionReason paused;
           Message := "";
           ObservedGeneration := Generation (v1alpha1.ObjectMeta secretSync);
           LastTransitionTime := 0 |} in
    let phaseIsWrong :=
      paused && negb (String.eqb (v1alpha1.Phase status) (v1alpha1.SecretSyncStatusPhasePaused K))
      || negb paused && negb (String.eqb (v1alpha1.Phase status) (v1alpha1.SecretSyncStatusPhasePaused K)) in
    let phase :=
      if phaseIsWrong && paused then v1alpha1.SecretSyncStatusPhasePaused K
      else if phaseIsWrong then v1alpha1.SecretSyncStatusPhaseSync K
      else v1alpha1.Phase status in
    Ret (v1alpha1.withStatus
           {| v1alpha1.Conditions := conditions;
              v1alpha1.Phase := phase;
              v1alpha1.ControllerOf := v1alpha1.ControllerOf status |} secretSync,
         {| statusChanged := condChanged || phaseIsWrong |}, None).
End secretReconciler.
End secretsync.


(* ===================================================================== *)
(** ** A test double for the collaborators *)
(* ===================================================================== *)

Module fake.
(** A scripted double in the manner of a mock client: every call takes the
    next scripted error (nil once the script is used up); reads answer from
    the fixed [source] secret and the fixed [managed] list; calls that get a
    pointer hand the object back as it came. *)
Record world := {
  script : list (option error);
  source : corev1.Secret;
  managed : list corev1.Secret
}.

Definition next (w : world) : option error * world :=
  match script w with
  | [] => (None, w)
  | r :: rest => (r, {| script := rest; source := source w; managed := managed w |})
  end.

Definition handle : handler op world :=
  λ X c,
    match c in op X return world → X * world with
    | Client_Patch obj _ _ => λ w, let '(r, w') := next w in ((obj, r), w')
    | Client_Delete _ => next
    | Reader_Get _ _ into =>
        λ w, let '(r, w') := next w in
             ((match r with None => source w | Some _ => into end, r), w')
    | Cache_List _ =>
        λ w, let '(r, w') := next w in
             ((match r with None => managed w | Some _ => [] end, r), w')
    | Cache_Watch _ _ => next
    | Cache_Free _ => next
    | OwnerStrategy_SetControllerReference _ obj =>
        λ w, let '(r, w') := next w in ((obj, r), w')
    | EnsureDynamicCacheLabel _ => next
    | RemoveDynamicCacheLabel _ => next
    end.

Definition scripted (answers : list (option error)) : world :=
  {| script := answers; source := corev1.zero; managed := [] |}.

Definition constants : v1alpha1.Constants :=
  {| v1alpha1.SecretSyncSync := "Sync";
     v1alpha1.SecretSyncPaused := "Paused";
     v1alpha1.SecretSyncStatusPhaseSync := "Sync";
     v1alpha1.SecretSyncStatusPhasePaused := "Paused";
     v1alpha1.constants_DynamicCacheLabel := "package-operator.run/cache";
     v1alpha1.constants_FieldOwner := "package-operator" |}.

(** A SecretSync named [sync] in namespace [ns], source [ns/src], one
    destination [ns/dst]. *)
Definition secretSync (paused : bool) (deletion : option metav1.Time)
    (finalizers : list string) (strategy : v1alpha1.SecretSyncStrategy)
  : v1alpha1.SecretSync :=
  {| v1alpha1.ObjectMeta :=
       {| metav1.Name := "sync"; metav1.Namespace := "ns"; metav1.UID := "uid-1";
          metav1.ResourceVersion := "42"; metav1.Generation := 3;
          metav1.DeletionTimestamp := deletion; metav1.Labels := ∅;
          metav1.Annotations := ∅; metav1.OwnerReferences := [];
          metav1.Finalizers := finalizers |};
     v1alpha1.Spec :=
       {| v1alpha1.Paused := paused;
          v1alpha1.Strategy := strategy;
          v1alpha1.Src := {| types.Namespace := "ns"; types.Name := "src" |};
          v1alpha1.Dest := [{| types.Namespace := "ns"; types.Name := "dst" |}] |};
     v1alpha1.Status :=
       {| v1alpha1.Conditions := []; v1alpha1.Phase := "";
          v1alpha1.ControllerOf := None |} |}.

Definition watch : v1alpha1.SecretSyncStrategy :=
  {| v1alpha1.Poll := None; v1alpha1.Watch := Some v1alpha1.Build_SecretSyncStrategyWatch |}.
Definition poll : v1alpha1.SecretSyncStrategy :=
  {| v1alpha1.Poll := Some {| v1alpha1.Interval := 60 |}; v1alpha1.Watch := None |}.

Definition boom : error := errors_New "boom".

(** Conditions of a source at generation 3: a mapped one, one whose type has
    no slash, a mapped one observed at generation 2; and a destination
    condition. *)
Definition mappedCurrent : metav1.Condition :=
  {| metav1.Type_ := "my-prefix/Available"; metav1.Status := "True";
     metav1.ObservedGeneration := 3; metav1.LastTransitionTime := 11;
     metav1.Reason := "Up"; metav1.Message := "all replicas up" |}.
Definition unmapped : metav1.Condition :=
  {| metav1.Type_ := "Available"; metav1.Status := "True";
     metav1.ObservedGeneration := 3; metav1.LastTransitionTime := 12;
     metav1.Reason := "Up"; metav1.Message := "" |}.
Definition mappedOutdated : metav1.Condition :=
  {| metav1.Type_ := "my-prefix/Progressing"; metav1.Status := "False";
     metav1.ObservedGeneration := 2; metav1.LastTransitionTime := 13;
     metav1.Reason := "Done"; metav1.Message := "" |}.
Definition ready : metav1.Condition :=
  {| metav1.Type_ := "Ready"; metav1.Status := "False";
     metav1.ObservedGeneration := 6; metav1.LastTransitionTime := 5;
     metav1.Reason := "Waiting"; metav1.Message := "" |}.

(** A clock that reads 100, 101, ... *)
Definition clock (i : nat) : metav1.Time := 100 + Z.of_nat i.
End fake.

(* ===================================================================== *)
(** ** What "mapping a condition" means, in the words of the claim *)
(* ===================================================================== *)

Module mapping.
Import metav1.

(** A source condition is copied when it was observed at the source's
    generation and its type contains a slash. *)
Definition is_copied (srcGeneration : Z) (c : Condition) : bool :=
  (ObservedGeneration c =? srcGeneration) && controllers.IsMappedCondition c.

(** The copy: type, status, reason and message kept, the observed generation
    that of the destination. *)
Definition copy_of (destGeneration : Z) (c : Condition) : Condition :=
  {| Type_ := Type_ c; Status := Status c; Reason := Reason c;
     Message := Message c; ObservedGeneration := destGeneration;
     LastTransitionTime := 0 |}.

(** [c'] shows what [c] said, at the destination's generation. *)
Definition shows (destGeneration : Z) (c c' : Condition) : Prop :=
  Type_ c' = Type_ c ∧ Status c' = Status c ∧ Reason c' = Reason c
  ∧ Message c' = Message c ∧ ObservedGeneration c' = destGeneration.

(** The destination holds, as its condition of [c]'s type, one that shows
    [c]. *)
Definition holds (destGeneration : Z) (c : Condition) (dest : list Condition) : Prop :=
  ∃ i c', meta.FindStatusCondition dest (Type_ c) = Some i
          ∧ dest !! i = Some c' ∧ shows destGeneration c c'.
End mapping.

(* ===================================================================== *)
(** ** Which call an error is blamed on *)
(* ===================================================================== *)

(** The error a call was answered with. *)
Definition answeredError (e : entry op) : option error :=
  match e with
  | Call c x =>
      match c in op X return X → option error with
      | Client_Patch _ _ _ => λ x, x.2
      | Client_Delete _ => λ x, x
      | Reader_Get _ _ _ => λ x, x.2
      | Cache_List _ => λ x, x.2
      | Cache_Watch _ _ => λ x, x
      | Cache_Free _ => λ x, x
      | OwnerStrategy_SetControllerReference _ _ => λ x, x.2
      | EnsureDynamicCacheLabel _ => λ x, x
      | RemoveDynamicCacheLabel _ => λ x, x
      end x
  end.

(** [fmt.Errorf(p1 + "%w", fmt.Errorf(p2 + "%w", ... cause))]. *)
Definition wrapAll (pres : list string) (cause : error) : error :=
  foldr (λ pre err, fmt_Errorf pre err "") cause pres.

Fixpoint concatStrings (l : list string) : string :=
  match l with
  | [] => ""
  | s :: rest => s +:+ concatStrings rest
  end.

(** [err] is what the last call of the transcript was answered with,
    wrapped in the texts [ctx] gives for that call, of which there is at
    least one. *)
Definition blames (ctx : entry op → list string) (last_call : option (entry op))
    (err : error) : Prop :=
  ∃ e cause, last_call = Some e ∧ answeredError e = Some cause
             ∧ ctx e ≠ [] ∧ err = wrapAll (ctx e) cause.

Module context.
(** The texts each operation puts in front of the error of each call it
    makes, outermost first; read off the [fmt.Errorf] sites. *)

Definition EnsureFinalizer (e : entry op) : list string :=
  match e with
  | Call (Client_Patch _ _ _) _ => ["adding finalizer: "]
  | _ => []
  end.

Definition RemoveFinalizer (e : entry op) : list string :=
  match e with
  | Call (Client_Patch _ _ _) _ => ["removing finalizer: "]
  | _ => []
  end.

Definition FreeCacheAndRemoveFinalizer (e : entry op) : list string :=
  match e with
  | Call (Cache_Free _) _ => ["free cache: "]
  | Call (Client_Patch _ _ _) _ => ["removing finalizer: "]
  | _ => []
  end.

Definition deletionReconciler (e : entry op) : list string :=
  match e with
  | Call (RemoveDynamicCacheLabel _) _ => ["remove cache label from source secret: "]
  | Call (Cache_Free _) _ => ["free cache and remove finalizer: "; "free cache: "]
  | Call (Client_Patch _ _ _) _ =>
      ["free cache and remove finalizer: "; "removing finalizer: "]
  | _ => []
  end.

(** The source secret is watched without labels, a destination secret with
    the two labels of [targetObject]. *)
Definition secretReconciler (e : entry op) : list string :=
  match e with
  | Call (Client_Patch _ (RawPatch _ _) _) _ =>
      ["adding cached finalizer: "; "adding finalizer: "]
  | Call (EnsureDynamicCacheLabel _) _ => ["adding dynamic cache label: "]
  | Call (Cache_Watch _ obj) _ =>
      if bool_decide (metav1.Labels (corev1.ObjectMeta obj) = ∅)
      then ["watching source secret: "]
      else ["watching new resource: "]
  | Call (Reader_Get _ _ _) _ => ["getting source object: "]
  | Call (OwnerStrategy_SetControllerReference _ _) _ => ["setting controller reference: "]
  | Call (Client_Patch _ client_Apply _) _ => ["patching destination secret: "]
  | Call (Cache_List _) _ => ["listing managed secrets: "]
  | Call (Client_Delete _) _ => ["deleting uncontrolled Secret: "]
  | _ => []
  end.
End context.

(** A postcondition on every way a program can return, for every answer the
    calls can get: [post P l m] when [P] holds of the last call made (or
    [l], if [m] makes none) and the value returned. *)
Inductive post {A : Type} (P : option (entry op) → A → Prop)
  : option (entry op) → prog op A → Prop :=
| post_Ret l a : P l a → post P l (Ret a)
| post_Panic l v : post P l (Panic v)
| post_Vis l X (c : op X) k :
    (∀ x, post P (Some (Call c x)) (k x)) → post P l (Vis c k).

(** The last call of a transcript, [l] when the transcript is empty. *)
Definition last_or (l : option (entry op)) (tr : list (entry op))
  : option (entry op) :=
  match last tr with
  | Some e => Some e
  | None => l
  end.

(** [err] is what a raw patch, the last call, was answered with, behind the
    text [pre]. *)
Definition blamesPatch (pre : string) (last_call : option (entry op))
    (err : error) : Prop :=
  ∃ e cause, last_call = Some e ∧ is_Some (patchData e)
             ∧ answeredError e = Some cause ∧ err = fmt_Errorf pre cause "".

(** The same for the cache's [Free]. *)
Definition blamesFree (pre : string) (last_call : option (entry op))
    (err : error) : Prop :=
  ∃ e cause, last_call = Some e ∧ isFree e = true
             ∧ answeredError e = Some cause ∧ err = fmt_Errorf pre cause "".

(* ===================================================================== *)
(** ** [internal/packages]: the ObjectDeployment reconciler *)
(* ===================================================================== *)

(** [deployment_reconciler.go] is not among the files at hand; its test file
    is.  The API types and the client calls below are read off the test;
    the reconciler itself is modelled from the specification. *)

Module corev1alpha1.
(** [ObjectSetObject]: one object template; the content of its
    [unstructured.Unstructured] is opaque to the reconciler ([""] is the
    empty [Unstructured{}]). *)
Record ObjectSetObject := { Object : string }.

Record ObjectSetTemplatePhase := {
  Name : string;
  Objects : list ObjectSetObject;
  Slices : list string
}.

(** [ObjectDeployment], with [Spec.Selector.MatchLabels] and
    [Spec.Template.Spec.Phases]. *)
Record ObjectDeployment := {
  ObjectMeta : metav1.ObjectMeta;
  Selector : gmap string string;
  Phases : list ObjectSetTemplatePhase
}.

(** [ObjectSet] (a revision), with [Spec.Phases]. *)
Record ObjectSet := {
  setObjectMeta : metav1.ObjectMeta;
  setPhases : list ObjectSetTemplatePhase
}.

Record ObjectSlice := {
  sliceObjectMeta : metav1.ObjectMeta;
  sliceObjects : list ObjectSetObject
}.

#[global] Instance ObjectSetObject_eq_dec : EqDecision ObjectSetObject.
Proof. solve_decision. Defined.
#[global] Instance ObjectSetTemplatePhase_eq_dec : EqDecision ObjectSetTemplatePhase.
Proof. solve_decision. Defined.

Definition withPhases (phases : list ObjectSetTemplatePhase) (d : ObjectDeployment)
  : ObjectDeployment :=
  {| ObjectMeta := ObjectMeta d; Selector := Selector d; Phases := phases |}.

(** The three kinds of object the reconciler handles, and their Go types. *)
Inductive kind := ObjectDeploymentKind | ObjectSliceKind | ObjectSetKind.

Definition obj (k : kind) : Type :=
  match k with
  | ObjectDeploymentKind => ObjectDeployment
  | ObjectSliceKind => ObjectSlice
  | ObjectSetKind => ObjectSet
  end.

Definition metaOf {k : kind} : obj k → metav1.ObjectMeta :=
  match k with
  | ObjectDeploymentKind => ObjectMeta
  | ObjectSliceKind => sliceObjectMeta
  | ObjectSetKind => setObjectMeta
  end.

(** [client.ObjectKeyFromObject]. *)
Definition keyOf {k : kind} (o : obj k) : types.NamespacedName :=
  {| types.Namespace := metav1.Namespace (metaOf o);
     types.Name := metav1.Name (metaOf o) |}.

(** A new, empty object of a kind ([adapters.NewObjectDeployment], ...). *)
Definition new (k : kind) : obj k :=
  match k with
  | ObjectDeploymentKind =>
      {| ObjectMeta := metav1.ObjectMeta_of "" "" ∅; Selector := ∅; Phases := [] |}
  | ObjectSliceKind =>
      {| sliceObjectMeta := metav1.ObjectMeta_of "" "" ∅; sliceObjects := [] |}
  | ObjectSetKind =>
      {| setObjectMeta := metav1.ObjectMeta_of "" "" ∅; setPhases := [] |}
  end.
End corev1alpha1.

Module client.
Import corev1alpha1.

Inductive ListOption :=
| InNamespace (namespace : string)
| MatchingLabels (labels : gmap string string).

(** The calls of [client.Client] the test sets expectations for, over the
    three kinds.  A pointer argument the callee may write to comes back in
    the answer. *)
Inductive op : Type → Type :=
| Get (k : kind) (key : types.NamespacedName) (into : obj k) : op (obj k * option error)
| List (k : kind) (opts : list ListOption) : op (list (obj k) * option error)
| Create (k : kind) (o : obj k) : op (obj k * option error)
| Update (k : kind) (o : obj k) : op (obj k * option error)
| Delete (k : kind) (o : obj k) : op (option error).

(** The slices a transcript deletes, in order. *)
Fixpoint deletedSlices (tr : list (entry op)) : list ObjectSlice :=
  match tr with
  | [] => []
  | Call (Delete ObjectSliceKind s) _ :: rest => s :: deletedSlices rest
  | _ :: rest => deletedSlices rest
  end.

(** The number of [Delete] calls, of whatever kind. *)
Fixpoint countDeletes (tr : list (entry op)) : nat :=
  match tr with
  | [] => 0
  | Call (Delete _ _) _ :: rest => S (countDeletes rest)
  | _ :: rest => countDeletes rest
  end.

(** The kind of object a call writes ([Create], [Update], [Delete]). *)
Definition writes (e : entry op) : option kind :=
  match e with
  | Call (Create k _) _ | Call (Update k _) _ | Call (Delete k _) _ => Some k
  | _ => None
  end.

Definition isUpdate (e : entry op) : bool :=
  match e with
  | Call (Update _ _) _ => true
  | _ => false
  end.

(** The error a call was answered with. *)
Definition answered (e : entry op) : option error :=
  match e with
  | Call c x =>
      match c in op X return X → option error with
      | Get _ _ _ => λ x, x.2
      | List _ _ => λ x, x.2
      | Create _ _ => λ x, x.2
      | Update _ _ => λ x, x.2
      | Delete _ _ => λ x, x
      end x
  end.
End client.

Module packages.
Import corev1alpha1 client.

(** [sliceCollisionError.Error()], as [Test_sliceCollisionError] has it, is
    [Error (sliceCollisionError key)]. *)

(** Modelled from the spec: the chunker of the missing reconciler, which
    decides what content of a phase goes into slices (section 4.1, second
    item).  The test passes [EachObjectChunker], of which the spec gives
    the effect in its scenario only (one object, one slice holding it): by
    its name, every object of the phase is a chunk of its own. *)
Definition objectChunker : Type := ObjectSetTemplatePhase → list (list ObjectSetObject).

Definition EachObjectChunker : objectChunker :=
  λ phase, (λ o, [o]) <$> Objects phase.

Section DeploymentReconciler.
(** The content hash, the key of the label that marks a slice as owned by a
    deployment, and the number of times a conflicting update is retried:
    none of the three is given by the files at hand. *)
Variable hash : list ObjectSetObject → string.
Variable sliceOwnerLabel : string.
Variable retries : nat.

(** Modelled from the spec: the Slice Store's [NameFor(ownerName, content)]
    (section 4.4, data model of Slice), whose code is missing: "a name
    derived deterministically from the owning Deployment's name and a hash
    of its content", [test-depl-<hash>] in the scenario. *)
Definition NameFor (ownerName : string) (content : list ObjectSetObject) : string :=
  ownerName +:+ "-" +:+ hash content.

Definition sliceFor (deploy : ObjectDeployment) (slice : ObjectSlice) : ObjectSlice :=
  {| sliceObjectMeta :=
       metav1.ObjectMeta_of
         (metav1.Namespace (ObjectMeta deploy))
         (NameFor (metav1.Name (ObjectMeta deploy)) (sliceObjects slice))
         (<[sliceOwnerLabel := metav1.Name (ObjectMeta deploy)]> ∅);
     sliceObjects := sliceObjects slice |}.

(** Modelled from the spec: the Slice Store's [Create] (section 4.4), whose
    code is missing, with the collision rule of section 4.1 (third item)
    and section 7 (case 3): "on a name collision, the controller reads the
    existing Slice and compares content; identical content is treated as
    success (no-op); differing content is a hash collision and must be
    escalated as a distinct, explicitly surfaced error (sliceCollisionError)
    rather than silently overwritten".  This is one attempt; what
    [reconcileSlice] of the missing file does around it is not modelled. *)
Definition createSlice (deploy : ObjectDeployment) (slice : ObjectSlice)
  : prog op (ObjectSlice * option error) :=
  let slice := sliceFor deploy slice in
  '(created, err) ← call (Create ObjectSliceKind slice);
  match err with
  | None => Ret (created, None)
  | Some err =>
      if negb (IsAlreadyExists err) then
        Ret (slice, Some (fmt_Errorf "creating ObjectSlice: " err ""))
      else
        '(conflictingSlice, err) ←
          call (Get ObjectSliceKind (keyOf (k := ObjectSliceKind) slice)
                  (new ObjectSliceKind));
        match err with
        | Some err =>
            Ret (slice, Some (fmt_Errorf "getting conflicting ObjectSlice: " err ""))
        | None =>
            if decide (sliceObjects conflictingSlice = sliceObjects slice)
            then Ret (slice, None)
            else Ret (slice, Some (sliceCollisionError (keyOf (k := ObjectSliceKind) slice)))
        end
  end.

(** Modelled from the spec: the slicing of one phase in the missing
    reconciler (section 4.1, second item): the content the chunker hands
    out "is extracted into a Slice before the Revision is written; the
    phase then stores the Slice's name in place of the inline objects". *)
Fixpoint createSlices (deploy : ObjectDeployment)
    (chunks : list (list ObjectSetObject)) (names : list string)
  : prog op (error + list string) :=
  match chunks with
  | [] => Ret (inr names)
  | objects :: rest =>
      '(slice, err) ←
        createSlice deploy
          {| sliceObjectMeta := metav1.ObjectMeta_of "" "" ∅; sliceObjects := objects |};
      match err with
      | Some err => Ret (inl err)
      | None =>
          createSlices deploy rest (names ++ [metav1.Name (sliceObjectMeta slice)])
      end
  end.

(** Modelled from the spec: the same for a phase and for the list of
    phases, "preserving original ordering". *)
Definition chunkPhase (deploy : ObjectDeployment) (chunker : objectChunker)
    (phase : ObjectSetTemplatePhase) : prog op (error + ObjectSetTemplatePhase) :=
  match chunker phase with
  | [] => Ret (inr phase)
  | chunks =>
      names ← createSlices deploy chunks (Slices phase);
      match names with
      | inl err => Ret (inl (fmt_Errorf "reconcile slice: " err ""))
      | inr names => Ret (inr {| Name := Name phase; Objects := []; Slices := names |})
      end
  end.

Fixpoint chunkPhases (deploy : ObjectDeployment) (chunker : objectChunker)
    (phases done : list ObjectSetTemplatePhase)
  : prog op (error + list ObjectSetTemplatePhase) :=
  match phases with
  | [] => Ret (inr done)
  | phase :: rest =>
      chunked ← chunkPhase deploy chunker phase;
      match chunked with
      | inl err => Ret (inl (fmt_Errorf "reconcile phase: " err ""))
      | inr phase => chunkPhases deploy chunker rest (done ++ [phase])
      end
  end.

(** Modelled from the spec: the write of the deployment in the missing
    reconciler (section 4.1, last item; section 7, case 2): "a conflict on
    update triggers re-read-and-reapply, retried a bounded number of times
    before surfacing an error": at most [retriesLeft] re-reads. *)
Fixpoint updateDeployment (retriesLeft : nat) (actualDeploy : ObjectDeployment)
    (phases : list ObjectSetTemplatePhase) : prog op (error + ObjectDeployment) :=
  '(actualDeploy, err) ←
    call (Update ObjectDeploymentKind (withPhases phases actualDeploy));
  match err with
  | None => Ret (inr actualDeploy)
  | Some err =>
      if negb (IsConflict err) then
        Ret (inl (fmt_Errorf "updating ObjectDeployment: " err ""))
      else
        match retriesLeft with
        | O => Ret (inl (fmt_Errorf "updating ObjectDeployment: " err ""))
        | S retriesLeft =>
            '(latest, err) ←
              call (Get ObjectDeploymentKind
                      (keyOf (k := ObjectDeploymentKind) actualDeploy) actualDeploy);
            match err with
            | Some err =>
                Ret (inl (fmt_Errorf "getting ObjectDeployment: " err ""))
            | None => updateDeployment retriesLeft latest phases
            end
        end
  end.

(** The slice names a list of phases refers to. *)
Definition sliceNames (phases : list ObjectSetTemplatePhase) : list string :=
  concat (Slices <$> phases).

(** Modelled from the spec: the referenced-slice set of the garbage
    collection (section 4.1, fourth item): "the union of Slice names across
    the current desired template and the Phases of every still-existing
    Revision selected by the Deployment's Selector". *)
Definition referencedSlices (deploy : ObjectDeployment) (sets : list ObjectSet)
  : gset string :=
  list_to_set (sliceNames (Phases deploy))
  ∪ ⋃ ((λ set, list_to_set (sliceNames (setPhases set))) <$> sets).

(** Modelled from the spec: the deletes of the garbage collection (section
    4.1, fourth item): "Deletion is best-effort per item; failure to delete
    one Slice must not block deletion of others." *)
Fixpoint deleteUnreferenced (slices : list ObjectSlice) (referenced : gset string)
  : prog op unit :=
  match slices with
  | [] => Ret ()
  | slice :: rest =>
      if decide (metav1.Name (sliceObjectMeta slice) ∈ referenced)
      then deleteUnreferenced rest referenced
      else
        _ ← call (Delete ObjectSliceKind slice);
        deleteUnreferenced rest referenced
  end.

(** Modelled from the spec: [sliceGarbageCollection] of the missing
    reconciler (section 4.1, fourth item; section 7, case 6): "Any Slice
    matching the Deployment's ownership label but absent from that union is
    deleted." *)
Definition sliceGarbageCollection (deploy : ObjectDeployment)
  : prog op (option error) :=
  '(sets, err) ←
    call (List ObjectSetKind
            [MatchingLabels (Selector deploy);
             InNamespace (metav1.Namespace (ObjectMeta deploy))]);
  match err with
  | Some err => Ret (Some (fmt_Errorf "listing ObjectSets: " err ""))
  | None =>
      '(slices, err) ←
        call (List ObjectSliceKind
                [MatchingLabels
                   (<[sliceOwnerLabel := metav1.Name (ObjectMeta deploy)]> ∅);
                 InNamespace (metav1.Namespace (ObjectMeta deploy))]);
      match err with
      | Some err => Ret (Some (fmt_Errorf "listing ObjectSlices: " err ""))
      | None =>
          _ ← deleteUnreferenced slices (referencedSlices deploy sets);
          Ret None
      end
  end.

(** Modelled from the spec: [Reconcile] of the missing reconciler (section
    4.1 and the first scenario of section 8): the deployment object is
    created empty when it is not found, the phases are sliced, the object is
    updated to the sliced template (when it differs) under retry on
    conflict, and the slices no longer referenced are collected. *)
Definition Reconcile (desiredDeploy : ObjectDeployment) (chunker : objectChunker)
  : prog op (option error) :=
  let templatePhases := Phases desiredDeploy in
  '(actualDeploy, err) ←
    call (Get ObjectDeploymentKind (keyOf (k := ObjectDeploymentKind) desiredDeploy)
            (new ObjectDeploymentKind));
  found ←
    match err with
    | None => Ret (inr actualDeploy)
    | Some err =>
        if IsNotFound err then
          '(created, err) ←
            call (Create ObjectDeploymentKind (withPhases [] desiredDeploy));
          match err with
          | Some err => Ret (inl (fmt_Errorf "creating ObjectDeployment: " err ""))
          | None => Ret (inr created)
          end
        else Ret (inl (fmt_Errorf "getting ObjectDeployment: " err ""))
    end;
  match found with
  | inl err => Ret (Some err)
  | inr actualDeploy =>
      chunked ← chunkPhases actualDeploy chunker templatePhases [];
      match chunked with
      | inl err => Ret (Some err)
      | inr phases =>
          updated ←
            (if decide (Phases actualDeploy = phases) then Ret (inr actualDeploy)
             else updateDeployment retries actualDeploy phases);
          match updated with
          | inl err => Ret (Some err)
          | inr actualDeploy => sliceGarbageCollection actualDeploy
          end
      end
  end.
End DeploymentReconciler.
End packages.

(* ===================================================================== *)
(** ** Two clients for the ObjectDeployment reconciler *)
(* ===================================================================== *)

Module mock.
Import corev1alpha1 client.

(** The mock client as the tests of [deployment_reconciler_test.go] set it
    up: for a call with a [Once()] expectation the listed answers are given
    first, one per call, and nil after them; a [Run] hook on [Get] or [List]
    stores a fixed value into the pointer; everything else answers nil and
    leaves the pointer as it is. *)
Record expectations := {
  onGetDeployment : list (option error);
  onUpdateDeployment : list (option error);
  onCreateSlice : list (option error);
  getSliceStores : option ObjectSlice;
  listStoresSets : list ObjectSet;
  listStoresSlices : list ObjectSlice
}.

Definition popGetDeployment (w : expectations) : option error * expectations :=
  match onGetDeployment w with
  | [] => (None, w)
  | r :: rest =>
      (r, {| onGetDeployment := rest; onUpdateDeployment := onUpdateDeployment w;
             onCreateSlice := onCreateSlice w; getSliceStores := getSliceStores w;
             listStoresSets := listStoresSets w;
             listStoresSlices := listStoresSlices w |})
  end.

Definition popUpdateDeployment (w : expectations) : option error * expectations :=
  match onUpdateDeployment w with
  | [] => (None, w)
  | r :: rest =>
      (r, {| onGetDeployment := onGetDeployment w; onUpdateDeployment := rest;
             onCreateSlice := onCreateSlice w; getSliceStores := getSliceStores w;
             listStoresSets := listStoresSets w;
             listStoresSlices := listStoresSlices w |})
  end.

Definition popCreateSlice (w : expectations) : option error * expectations :=
  match onCreateSlice w with
  | [] => (None, w)
  | r :: rest =>
      (r, {| onGetDeployment := onGetDeployment w;
             onUpdateDeployment := onUpdateDeployment w;
             onCreateSlice := rest; getSliceStores := getSliceStores w;
             listStoresSets := listStoresSets w;
             listStoresSlices := listStoresSlices w |})
  end.

Definition handle : handler op expectations :=
  λ X c,
    match c in op X return expectations → X * expectations with
    | Get ObjectDeploymentKind _ into =>
        λ w, let '(r, w') := popGetDeployment w in ((into, r), w')
    | Get ObjectSliceKind _ into =>
        λ w, ((default into (getSliceStores w), None), w)
    | Get ObjectSetKind _ into => λ w, ((into, None), w)
    | List ObjectDeploymentKind _ => λ w, (([], None), w)
    | List ObjectSliceKind _ => λ w, ((listStoresSlices w, None), w)
    | List ObjectSetKind _ => λ w, ((listStoresSets w, None), w)
    | Create ObjectSliceKind o =>
        λ w, let '(r, w') := popCreateSlice w in ((o, r), w')
    | Create ObjectDeploymentKind o => λ w, ((o, None), w)
    | Create ObjectSetKind o => λ w, ((o, None), w)
    | Update ObjectDeploymentKind o =>
        λ w, let '(r, w') := popUpdateDeployment w in ((o, r), w')
    | Update ObjectSliceKind o => λ w, ((o, None), w)
    | Update ObjectSetKind o => λ w, ((o, None), w)
    | Delete _ _ => λ w, (None, w)
    end.

(** [errors.NewNotFound], [errors.NewConflict], [errors.NewAlreadyExists]
    with an empty resource and name; only the reason matters. *)
Definition notFound : error := StatusError StatusReasonNotFound "not found".
Definition conflict : error :=
  StatusError StatusReasonConflict "Operation cannot be fulfilled".
Definition alreadyExists : error := StatusError StatusReasonAlreadyExists "already exists".

Definition named (name : string) : metav1.ObjectMeta := metav1.ObjectMeta_of "" name ∅.

(** [Test_DeploymentReconciler_Reconcile]: the deployment and the
    expectations. *)
Definition theObject : ObjectSetObject := {| Object := "" |}.

Definition deploy : ObjectDeployment :=
  {| ObjectMeta := named "test-depl";
     Selector := ∅;
     Phases := [{| Name := "test"; Objects := [theObject]; Slices := [] |}] |}.

Definition reconcileExpectations : expectations :=
  {| onGetDeployment := [Some notFound];
     onUpdateDeployment := [Some conflict];
     onCreateSlice := [];
     getSliceStores := None;
     listStoresSets := [];
     listStoresSlices := [] |}.

(** [TestDeploymentReconciler_sliceGarbageCollection]. *)
Definition gcDeploy : ObjectDeployment :=
  {| ObjectMeta := named "test-depl";
     Selector := <["test" := "test"]> ∅;
     Phases := [{| Name := ""; Objects := []; Slices := ["slice0-xxx"] |}] |}.

Definition objectSet1 : ObjectSet :=
  {| setObjectMeta := named "";
     setPhases := [{| Name := "test"; Objects := []; Slices := ["slice1-xxx"] |}] |}.

Definition objectSlice0 : ObjectSlice :=
  {| sliceObjectMeta := named "slice0-xxx"; sliceObjects := [] |}.
Definition objectSlice1 : ObjectSlice :=
  {| sliceObjectMeta := named "slice1-xxx"; sliceObjects := [] |}.
Definition objectSlice2 : ObjectSlice :=
  {| sliceObjectMeta := named "slice2-xxx"; sliceObjects := [] |}.

Definition gcExpectations : expectations :=
  {| onGetDeployment := [];
     onUpdateDeployment := [];
     onCreateSlice := [];
     getSliceStores := None;
     listStoresSets := [objectSet1];
     listStoresSlices := [objectSlice0; objectSlice1; objectSlice2] |}.

(** A hash that gives the value the test observes, whatever the content;
    the label key and the retry bound of the runs below. *)
Definition observedHash : list ObjectSetObject → string := λ _, "754bcb585".
Definition ownerLabel : string := "owner".
Definition fourRetries : nat := 4.
End mock.

Module store.
Import corev1alpha1 client.

(** The object store as the API server keeps it, by kind and key.  [Create]
    refuses a key that is taken (AlreadyExists) and leaves the store as it
    is; [Get], [Update] and [Delete] of a key that is free answer NotFound.
    Resource versions are not kept: this store never answers Conflict. *)
Record cluster := {
  deployments : gmap types.NamespacedName ObjectDeployment;
  slices : gmap types.NamespacedName ObjectSlice;
  sets : gmap types.NamespacedName ObjectSet
}.

Definition table (k : kind) (c : cluster) : gmap types.NamespacedName (obj k) :=
  match k with
  | ObjectDeploymentKind => deployments c
  | ObjectSliceKind => slices c
  | ObjectSetKind => sets c
  end.

Definition withTable (k : kind) (t : gmap types.NamespacedName (obj k)) (c : cluster)
  : cluster :=
  match k return gmap types.NamespacedName (obj k) → cluster with
  | ObjectDeploymentKind =>
      λ t, {| deployments := t; slices := slices c; sets := sets c |}
  | ObjectSliceKind =>
      λ t, {| deployments := deployments c; slices := t; sets := sets c |}
  | ObjectSetKind =>
      λ t, {| deployments := deployments c; slices := slices c; sets := t |}
  end t.

Definition matches {k : kind} (o : obj k) (opt : ListOption) : bool :=
  match opt with
  | InNamespace namespace => String.eqb (metav1.Namespace (metaOf o)) namespace
  | MatchingLabels labels =>
      bool_decide (map_Forall (λ key value,
                     metav1.Labels (metaOf o) !! key = Some value) labels)
  end.

Definition notFound : error := StatusError StatusReasonNotFound "not found".
Definition alreadyExists : error := StatusError StatusReasonAlreadyExists "already exists".

Definition handle : handler op cluster :=
  λ X c,
    match c in op X return cluster → X * cluster with
    | Get k key into =>
        λ w, match table k w !! key with
             | Some o => ((o, None), w)
             | None => ((into, Some notFound), w)
             end
    | List k opts =>
        λ w, ((filter (λ o, forallb (matches o) opts = true)
                 (map_to_list (table k w)).*2, None), w)
    | Create k o =>
        λ w, match table k w !! keyOf o with
             | Some _ => ((o, Some alreadyExists), w)
             | None => ((o, None), withTable k (<[keyOf o := o]> (table k w)) w)
             end
    | Update k o =>
        λ w, match table k w !! keyOf o with
             | Some _ => ((o, None), withTable k (<[keyOf o := o]> (table k w)) w)
             | None => ((o, Some notFound), w)
             end
    | Delete k o =>
        λ w, match table k w !! keyOf o with
             | Some _ => (None, withTable k (delete (keyOf o) (table k w)) w)
             | None => (Some notFound, w)
             end
    end.

(** A store that holds one slice, under the name the constant hash gives a
    slice of the deployment [test-depl]. *)
Definition storedSlice : ObjectSlice :=
  {| sliceObjectMeta := mock.named "test-depl-754bcb585";
     sliceObjects := [{| Object := "first" |}] |}.

Definition oneSlice : cluster :=
  {| deployments := ∅;
     slices := <[keyOf (k := ObjectSliceKind) storedSlice := storedSlice]> ∅;
     sets := ∅ |}.

Definition pendingSlice : ObjectSlice :=
  {| sliceObjectMeta := metav1.ObjectMeta_of "" "" ∅;
     sliceObjects := [{| Object := "second" |}] |}.
End store.

(* ===================================================================== *)
(** ** Optimistic concurrency, as a shape of transcripts *)
(* ===================================================================== *)

(** Every call a program can make, whatever the answers, satisfies [P]. *)
Inductive calls_satisfy {E : Type → Type} {A : Type} (P : entry E → Prop)
  : prog E A → Prop :=
| calls_Ret a : calls_satisfy P (Ret a)
| calls_Panic v : calls_satisfy P (Panic v)
| calls_Vis X (c : E X) k :
    (∀ x, P (Call c x)) → (∀ x, calls_satisfy P (k x)) → calls_satisfy P (Vis c k).

Module retrying.
Import corev1alpha1 client.

(** [optimistic phases n actual tr r]: [tr] is a write of [phases] to the
    deployment [actual] under optimistic concurrency with at most [n]
    re-reads, and [r] its outcome.  The update is sent; answered with a
    conflict it is followed by a read of the same object and, if the read
    succeeds, by the same write to what was read, with one re-read less to
    go; the conflict is the outcome once no re-read is left. *)
Inductive optimistic (phases : list ObjectSetTemplatePhase)
  : nat → ObjectDeployment → list (entry op) → error + ObjectDeployment → Prop :=
| written n actual updated :
    optimistic phases n actual
      [Call (Update ObjectDeploymentKind (withPhases phases actual)) (updated, None)]
      (inr updated)
| refused n actual updated err :
    IsConflict err = false →
    optimistic phases n actual
      [Call (Update ObjectDeploymentKind (withPhases phases actual))
            (updated, Some err)]
      (inl (fmt_Errorf "updating ObjectDeployment: " err ""))
| exhausted actual updated err :
    IsConflict err = true →
    optimistic phases 0 actual
      [Call (Update ObjectDeploymentKind (withPhases phases actual))
            (updated, Some err)]
      (inl (fmt_Errorf "updating ObjectDeployment: " err ""))
| reread_failed n actual updated err latest readErr :
    IsConflict err = true →
    optimistic phases (S n) actual
      [Call (Update ObjectDeploymentKind (withPhases phases actual))
            (updated, Some err);
       Call (Get ObjectDeploymentKind (keyOf (k := ObjectDeploymentKind) updated)
               updated)
            (latest, Some readErr)]
      (inl (fmt_Errorf "getting ObjectDeployment: " readErr ""))
| retried n actual updated err latest rest r :
    IsConflict err = true →
    optimistic phases n latest rest r →
    optimistic phases (S n) actual
      (Call (Update ObjectDeploymentKind (withPhases phases actual))
            (updated, Some err)
       :: Call (Get ObjectDeploymentKind (keyOf (k := ObjectDeploymentKind) updated)
                  updated)
               (latest, None)
       :: rest)
      r.

Fixpoint countUpdates (tr : list (entry op)) : nat :=
  match tr with
  | [] => 0
  | e :: rest => (if isUpdate e then 1 else 0) + countUpdates rest
  end.

(** A transcript whose updates all belong to one such write. *)
Definition writesUnderRetry (retries : nat) (tr : list (entry op)) : Prop :=
  ∃ pre mid post,
    tr = pre ++ mid ++ post
    ∧ Forall (λ e, isUpdate e = false) pre
    ∧ Forall (λ e, isUpdate e = false) post
    ∧ (mid = [] ∨ ∃ phases actual r, optimistic phases retries actual mid r).
End retrying.

(* ===================================================================== *)
(** ** Conditions on the calls of a program, given what was called before *)
(* ===================================================================== *)

(** [allows ok Q hist m]: started after the calls [hist], whatever the
    answers, every call [m] makes is allowed by [ok] given the calls made
    before it, and when [m] returns, [Q] holds of all the calls made and of
    the value returned. *)
Fixpoint allows {E : Type → Type} {A : Type}
    (ok : list (entry E) → entry E → Prop) (Q : list (entry E) → A → Prop)
    (hist : list (entry E)) (m : prog E A) : Prop :=
  match m with
  | Ret a => Q hist a
  | Panic _ => True
  | Vis c k => ∀ x, ok hist (Call c x) ∧ allows ok Q (hist ++ [Call c x]) (k x)
  end.

(* ===================================================================== *)
(** ** Reading the calls of the SecretSync reconcilers *)
(* ===================================================================== *)

Module syncing.
(** The secret a [Delete] call is sent for, [None] for every other entry. *)
Definition deleted (e : entry op) : option corev1.Secret :=
  match e with
  | Call (Client_Delete obj) _ => Some obj
  | _ => None
  end.

(** The reader a [Get] call goes to, [None] for every other entry. *)
Definition reads (e : entry op) : option reader :=
  match e with
  | Call (Reader_Get r _ _) _ => Some r
  | _ => None
  end.

(** Namespace and name of a secret. *)
Definition keyOf (s : corev1.Secret) : types.NamespacedName :=
  {| types.Namespace := metav1.Namespace (corev1.ObjectMeta s);
     types.Name := metav1.Name (corev1.ObjectMeta s) |}.

(** [&v1.Secret{ObjectMeta: {Namespace: key.Namespace, Name: key.Name}}]. *)
Definition bareKey (key : types.NamespacedName) : corev1.Secret :=
  corev1.bare {| metav1.APIVersion := ""; metav1.Kind := "" |}
    (metav1.ObjectMeta_of (types.Namespace key) (types.Name key) ∅).

(** The calls [tr] are, for every destination in turn, all answered without
    error: a watch on the destination's target object, the controller
    reference set on it, and a server-side apply of what the owner strategy
    handed back, forced and under the operator's field owner. *)
Fixpoint destWrites (K : v1alpha1.Constants) (s : v1alpha1.SecretSync)
    (src : corev1.Secret) (dests : list types.NamespacedName)
    (tr : list (entry op)) : Prop :=
  match dests with
  | [] => tr = []
  | dest :: rest =>
      ∃ (owned answered : corev1.Secret) (tr' : list (entry op)),
        tr = Call (Cache_Watch s (secretsync.targetObject K s src dest)) None
             :: Call (OwnerStrategy_SetControllerReference s
                        (secretsync.targetObject K s src dest)) (owned, None)
             :: Call (Client_Patch owned client_Apply
                        [ForceOwnership;
                         FieldOwner (v1alpha1.constants_FieldOwner K)])
                     (answered, None)
             :: tr'
        ∧ destWrites K s src rest tr'
  end.

(** [e] is the [Delete] of the listed secret [item], by namespace and name
    alone, answered without error or with NotFound. *)
Definition collects (item : corev1.Secret) (e : entry op) : Prop :=
  ∃ answer, e = Call (Client_Delete (bareKey (keyOf item))) answer
            ∧ IgnoreNotFound answer = None.

(** What the watch strategy does before the source is read, all answered
    without error: a merge patch adding the cached finalizer when [ss] lacks
    it, whose answer is the object [s] worked on from there; the cache label
    on the source secret; a watch on it. *)
Definition prepared (ss s : v1alpha1.SecretSync) (tr : list (entry op)) : Prop :=
  ∃ fin,
    tr = fin ++ [Call (EnsureDynamicCacheLabel (secretsync.srcSecretRef s)) None;
                 Call (Cache_Watch s (secretsync.srcSecretRef s)) None]
    ∧ if controllerutil.ContainsFinalizer ss controllers.CachedFinalizer
      then fin = [] ∧ s = ss
      else ∃ data,
             fin = [Call (Client_Patch
                            (controllerutil.AddFinalizer ss controllers.CachedFinalizer)
                            (RawPatch MergePatchType data) [])
                         (s, None)].
End syncing.

(** Sample objects for runs against the scripted double: a source secret
    with a payload, and two secrets carrying the managed-by label of the
    sample SecretSync, of which [kept] is its destination. *)
Module sample.
Definition source : corev1.Secret :=
  {| corev1.TypeMeta := secretsync.makeCoreV1SecretTypeMeta;
     corev1.ObjectMeta := metav1.ObjectMeta_of "ns" "src" ∅;
     corev1.Immutable := None;
     corev1.Data := {["password" := "hunter2"]};
     corev1.StringData := ∅;
     corev1.SecretType := "Opaque" |}.
Definition stale : corev1.Secret :=
  corev1.bare secretsync.makeCoreV1SecretTypeMeta
    (metav1.ObjectMeta_of "ns" "old" {[secretsync.ManagedByLabel := "sync"]}).
Definition kept : corev1.Secret :=
  corev1.bare secretsync.makeCoreV1SecretTypeMeta
    (metav1.ObjectMeta_of "ns" "dst" {[secretsync.ManagedByLabel := "sync"]}).
Definition cluster (answers : list (option error)) : fake.world :=
  {| fake.script := answers; fake.source := source; fake.managed := [stale; kept] |}.
End sample.

(* ===================================================================== *)
(** ** [package bootstrap]: the initializer *)
(* ===================================================================== *)

Module bootstrap.
(** [runtime.RawExtension{Raw: ...}] and [schema.GroupKind]. *)
Record RawExtension := { Raw : string }.
Record GroupKind := { Group : string; Kind : string }.

#[global] Instance GroupKind_eq_dec : EqDecision GroupKind.
Proof. solve_decision. Defined.

(** What the initializer takes from packages whose code is not at hand: the
    package spec of the core API with its composite literal
    [PackageSpec{Image: .., Config: ..}], its zero value and
    [equality.Semantic.DeepEqual] on it; the files an image is pulled to and
    the package content loaded from them, with
    [packagecontent.TemplateSpecFromPackage]; what an unstructured object
    holds besides kind, name and labels; the name of the operator's
    deployment. *)
Class Externals := {
  PackageSpec : Type;
  PackageSpec_of : string → option RawExtension → PackageSpec;
  PackageSpec_zero : PackageSpec;
  Semantic_DeepEqual : PackageSpec → PackageSpec → bool;
  Files : Type;
  PackageContent : Type;
  Content : Type;
  packageOperatorDeploymentName : string
}.

Section initializer.
Context `{Externals}.

(** [unstructured.Unstructured]: [Labels] is [None] when the object has no
    [metadata.labels], which is when [GetLabels] returns nil. *)
Record Unstructured := {
  GroupKindOf : GroupKind;
  Name : string;
  Labels : option (gmap string string);
  Rest : Content
}.

(** [SetLabels] with a map that is not empty. *)
Definition SetLabels (labels : gmap string string) (u : Unstructured) : Unstructured :=
  {| GroupKindOf := GroupKindOf u; Name := Name u; Labels := Some labels;
     Rest := Rest u |}.

(** The template spec of the core API, down to the objects. *)
Record ObjectSetObject := { Object : Unstructured }.
Record ObjectSetTemplatePhase := { Objects : list ObjectSetObject }.
Record ObjectSetTemplateSpec := { Phases : list ObjectSetTemplatePhase }.

(** [corev1alpha1.ClusterPackage], without the status, which the initializer
    neither reads nor sets. *)
Record ClusterPackage := {
  ObjectMeta : metav1.ObjectMeta;
  Spec : PackageSpec
}.

(** [appsv1.Deployment{ObjectMeta: ..}]. *)
Record Deployment := { DeploymentMeta : metav1.ObjectMeta }.

Inductive DeletionPropagation :=
| DeletePropagationOrphan
| DeletePropagationBackground
| DeletePropagationForeground.

(** The calls of the initializer: its [pullImage] function and its loader,
    the client, [isPKOAvailable] of the same package, and the waiter of the
    [dev] package.  [Get] hands back the object it filled in.  The waiter
    is built with its check interval and timeout, in nanoseconds; the
    callback passed to [WaitToBeGone] is the constant [false, nil]. *)
Inductive op : Type → Type :=
| PullImage (image : string) : op (Files * option error)
| Loader_FromFiles (files : Files) : op (PackageContent * option error)
| Client_CreateCRD (crd : Unstructured) : op (option error)
| Client_Get (key : types.NamespacedName) (into : ClusterPackage)
    : op (ClusterPackage * option error)
| Client_Create (obj : ClusterPackage) : op (option error)
| Client_MergePatch (obj : ClusterPackage) : op (option error)
| Client_Delete (obj : Deployment) (propagationPolicy : DeletionPropagation)
    : op (option error)
| IsPKOAvailable (namespace : string) : op (bool * option error)
| Waiter_WaitToBeGone (interval timeout : Z) (obj : Deployment) : op (option error).

Definition packageOperatorClusterPackageName : string := "package-operator".
Definition second : Z := 1000000000.
Definition packageOperatorDeploymentDeletionCheckInterval : Z := 2 * second.
Definition packageOperatorDeploymentDeletionTimeout : Z := 2 * (60 * second).

(** The configuration fields of the [initializer] struct; its client,
    loader and [pullImage] are the calls above. *)
Record initializer := {
  packageOperatorNamespace : string;
  selfBootstrapImage : string;
  selfConfig : string
}.

Variable TemplateSpecFromPackage : PackageContent → ObjectSetTemplateSpec.

(** GroupKind for CRDs. *)
Definition crdGK : GroupKind :=
  {| Group := "apiextensions.k8s.io"; Kind := "CustomResourceDefinition" |}.

(** The inner loop of [crdsFromTemplateSpec], over the objects of a phase. *)
Fixpoint crdsFromObjects (objects : list ObjectSetObject) (crds : list Unstructured)
  : list Unstructured :=
  match objects with
  | [] => crds
  | obj :: rest =>
      let gk := GroupKindOf (Object obj) in
      if negb (bool_decide (gk = crdGK)) then crdsFromObjects rest crds
      else crdsFromObjects rest (crds ++ [Object obj])
  end.

(** The outer loop, over the phases. *)
Fixpoint crdsFromPhases (phases : list ObjectSetTemplatePhase)
    (crds : list Unstructured) : list Unstructured :=
  match phases with
  | [] => crds
  | phase :: rest => crdsFromPhases rest (crdsFromObjects (Objects phase) crds)
  end.

Definition crdsFromTemplateSpec (templateSpec : ObjectSetTemplateSpec)
  : list Unstructured :=
  crdsFromPhases (Phases templateSpec) [].

Definition config (init : initializer) : option RawExtension :=
  if (0 <? Z.of_nat (String.length (selfConfig init)))
  then Some {| Raw := selfConfig init |}
  else None.

Definition newPKOClusterPackage (init : initializer) : ClusterPackage :=
  {| ObjectMeta := metav1.ObjectMeta_of "" packageOperatorClusterPackageName ∅;
     Spec := PackageSpec_of (selfBootstrapImage init) (config init) |}.

Definition crdsFromPackage (init : initializer)
  : prog op (list Unstructured * option error) :=
  '(files, err) ← call (PullImage (selfBootstrapImage init));
  match err with
  | Some err => Ret ([], Some err)
  | None =>
      '(packgeContent, err) ← call (Loader_FromFiles files);
      match err with
      | Some err => Ret ([], Some err)
      | None =>
          (* Install CRDs or the manager won't start. *)
          let templateSpec := TemplateSpecFromPackage packgeContent in
          Ret (crdsFromTemplateSpec templateSpec, None)
      end
  end.

(** Ensure all CRDs are installed on the cluster. *)
Fixpoint ensureCRDs (crds : list Unstructured) : prog op (option error) :=
  match crds with
  | [] => Ret None
  | crd :: rest =>
      (* Set cache label. *)
      let labels := default ∅ (Labels crd) in
      let labels := <[controllers.DynamicCacheLabel := "True"]> labels in
      let crd := SetLabels labels crd in
      err ← call (Client_CreateCRD crd);
      match err with
      | Some err => if negb (IsAlreadyExists err) then Ret (Some err) else ensureCRDs rest
      | None => ensureCRDs rest
      end
  end.

Definition ensurePKODeploymentGone (init : initializer) : prog op (option error) :=
  let deployment :=
    {| DeploymentMeta :=
         metav1.ObjectMeta_of (packageOperatorNamespace init)
           packageOperatorDeploymentName ∅ |} in
  (* use foreground deletion to ensure that all pods are gone when the
     deployment object vanishes from the apiserver *)
  err ← call (Client_Delete deployment DeletePropagationForeground);
  match err with
  | Some err =>
      if IsNotFound err then
        (* object is already gone *)
        Ret None
      else Ret (Some err)
  | None =>
      (* wait for object to be fully deleted *)
      call (Waiter_WaitToBeGone packageOperatorDeploymentDeletionCheckInterval
              packageOperatorDeploymentDeletionTimeout deployment)
  end.

(** [ensureUpdatedPKO] compares new and old PKO ClusterPackages, looks at
    PKO availability, handles eventual PKO shutdown and update of the
    ClusterPackage, and decides if bootstrap should be executed or not. *)
Definition ensureUpdatedPKO (init : initializer) : prog op (bool * option error) :=
  let bootstrapClusterPackage := newPKOClusterPackage init in
  '(existingClusterPackage, err) ←
    call (Client_Get
            {| types.Namespace := ""; types.Name := packageOperatorClusterPackageName |}
            {| ObjectMeta := metav1.ObjectMeta_of "" "" ∅; Spec := PackageSpec_zero |});
  match err with
  | Some err =>
      if IsNotFound err then
        (* ClusterPackage not found. Create it and let bootstrapper run. *)
        err ← call (Client_Create bootstrapClusterPackage);
        Ret (true, err)
      else Ret (false, Some err)
  | None =>
      (* ClusterPackage found.  Check if ClusterPackage spec changed. *)
      if Semantic_DeepEqual (Spec bootstrapClusterPackage) (Spec existingClusterPackage)
      then
        (* ClusterPackage specs are equal.  Check if PKO is available. *)
        '(isAvailable, err) ← call (IsPKOAvailable (packageOperatorNamespace init));
        match err with
        | Some err => Ret (false, Some err)
        | None =>
            if (isAvailable : bool) then
              (* PKO is available. Skip bootstrap. *)
              Ret (false, None)
            else
              (* PKO is not available. Remove deployment and bootstrap. *)
              err ← ensurePKODeploymentGone init;
              match err with
              | Some err => Ret (false, Some err)
              | None => Ret (true, None)
              end
        end
      else
        (* ClusterPackage specs differ. Shut down PKO, update ClusterPackage
           and run bootstrapper. *)
        err ← ensurePKODeploymentGone init;
        match err with
        | Some err => Ret (false, Some err)
        | None =>
            err ← call (Client_MergePatch bootstrapClusterPackage);
            match err with
            | Some err => Ret (false, Some err)
            | None => Ret (true, None)
            end
        end
  end.

(** Initializes PKO on the cluster by installing CRDs and ensuring a
    package-operator ClusterPackage is present. *)
Definition Init (init : initializer) : prog op (bool * option error) :=
  '(crds, err) ← crdsFromPackage init;
  match err with
  | Some err => Ret (false, Some err)
  | None =>
      err ← ensureCRDs crds;
      match err with
      | Some err => Ret (false, Some err)
      | None => ensureUpdatedPKO init
      end
  end.

(** Classifiers of transcript entries. *)
Definition createdCRD (e : entry op) : option Unstructured :=
  match e with
  | Call (Client_CreateCRD crd) _ => Some crd
  | _ => None
  end.

(** The ClusterPackage a [Create] or a merge [Patch] call is sent for. *)
Definition creates (e : entry op) : option ClusterPackage :=
  match e with
  | Call (Client_Create obj) _ => Some obj
  | _ => None
  end.

Definition patches (e : entry op) : option ClusterPackage :=
  match e with
  | Call (Client_MergePatch obj) _ => Some obj
  | _ => None
  end.

(** The error a call was answered with, and what [isPKOAvailable]
    reported. *)
Definition answered (e : entry op) : option error :=
  match e with
  | Call c x =>
      match c in op X return X → option error with
      | PullImage _ => λ x, x.2
      | Loader_FromFiles _ => λ x, x.2
      | Client_CreateCRD _ => λ x, x
      | Client_Get _ _ => λ x, x.2
      | Client_Create _ => λ x, x
      | Client_MergePatch _ => λ x, x
      | Client_Delete _ _ => λ x, x
      | IsPKOAvailable _ => λ x, x.2
      | Waiter_WaitToBeGone _ _ _ => λ x, x
      end x
  end.

Definition reported (e : entry op) : option bool :=
  match e with
  | Call c x =>
      match c in op X return X → option bool with
      | IsPKOAvailable _ => λ x, Some x.1
      | _ => λ _, None
      end x
  end.

(** The calls of [crdsFromPackage] and [ensureCRDs]. *)
Definition installsCRDs (e : entry op) : bool :=
  match e with
  | Call (PullImage _) _ | Call (Loader_FromFiles _) _
  | Call (Client_CreateCRD _) _ => true
  | _ => false
  end.
(** The deployment [ensurePKODeploymentGone] is about. *)
Definition pkoDeployment (init : initializer) : Deployment :=
  {| DeploymentMeta :=
       metav1.ObjectMeta_of (packageOperatorNamespace init)
         packageOperatorDeploymentName ∅ |}.

(** The calls [tr] shut the operator down with the outcome [err]: a
    foreground delete of the deployment, answered with an error ([err] is nil
    when that is NotFound, and the error itself when not), or answered
    without error and followed by the wait for the deployment to be gone,
    whose answer [err] is. *)
Definition shutsDown (init : initializer) (tr : list (entry op))
    (err : option error) : Prop :=
  (∃ e, tr = [Call (Client_Delete (pkoDeployment init) DeletePropagationForeground)
                   (Some e)]
        ∧ err = if IsNotFound e then None else Some e)
  ∨ tr = [Call (Client_Delete (pkoDeployment init) DeletePropagationForeground) None;
          Call (Waiter_WaitToBeGone packageOperatorDeploymentDeletionCheckInterval
                  packageOperatorDeploymentDeletionTimeout (pkoDeployment init))
               err].

(** The ways through [ensureUpdatedPKO]: the calls made, in their order and
    with their answers, and what is returned with them. *)
Definition decides (init : initializer) (tr : list (entry op))
    (out : bool * option error) : Prop :=
  ∃ existing a rest,
    tr = Call (Client_Get
                 {| types.Namespace := "";
                    types.Name := packageOperatorClusterPackageName |}
                 {| ObjectMeta := metav1.ObjectMeta_of "" "" ∅;
                    Spec := PackageSpec_zero |})
              (existing, a)
         :: rest
    ∧ match a with
      | Some e =>
          if IsNotFound e
          then ∃ created,
                 rest = [Call (Client_Create (newPKOClusterPackage init)) created]
                 ∧ out = (true, created)
          else rest = [] ∧ out = (false, Some e)
      | None =>
          if Semantic_DeepEqual (Spec (newPKOClusterPackage init)) (Spec existing)
          then ∃ isAvailable answered rest',
                 rest = Call (IsPKOAvailable (packageOperatorNamespace init))
                             (isAvailable, answered)
                        :: rest'
                 ∧ match answered, isAvailable with
                   | Some e, _ => rest' = [] ∧ out = (false, Some e)
                   | None, true => rest' = [] ∧ out = (false, None)
                   | None, false =>
                       ∃ err, shutsDown init rest' err
                              ∧ out = match err with
                                      | Some e => (false, Some e)
                                      | None => (true, None)
                                      end
                   end
          else ∃ down err rest',
                 rest = down ++ rest' ∧ shutsDown init down err
                 ∧ match err with
                   | Some e => rest' = [] ∧ out = (false, Some e)
                   | None =>
                       ∃ patched,
                         rest' = [Call (Client_MergePatch (newPKOClusterPackage init))
                                       patched]
                         ∧ out = match patched with
                                 | Some e => (false, Some e)
                                 | None => (true, None)
                                 end
                   end
      end.

(** The object [ensureCRDs] creates for [crd]: the cache label added to its
    labels, everything else as it was. *)
Definition cached (crd : Unstructured) : Unstructured :=
  SetLabels (<[controllers.DynamicCacheLabel := "True"]> (default ∅ (Labels crd))) crd.

(** An answer [ensureCRDs] goes on after. *)
Definition tolerated (answer : option error) : Prop :=
  match answer with
  | None => True
  | Some err => IsAlreadyExists err = true
  end.
End initializer.
End bootstrap.

(** A program that has no way to panic, whatever its calls are answered. *)
Fixpoint never_panics {E : Type → Type} {A : Type} (m : prog E A) : Prop :=
  match m with
  | Ret _ => True
  | Panic _ => False
  | Vis c k => ∀ x, never_panics (k x)
  end.

(** A small cluster to run the initializer against: package specs are an
    image with a config, compared field by field; package content is its
    template spec; the cluster holds at most one ClusterPackage and says
    whether the operator is available; its deployment is already gone. *)
Module sampleCluster.
#[global] Instance RawExtension_eq_dec : EqDecision bootstrap.RawExtension.
Proof. solve_decision. Defined.

Definition externals : bootstrap.Externals :=
  {| bootstrap.PackageSpec := string * option bootstrap.RawExtension;
     bootstrap.PackageSpec_of := pair;
     bootstrap.PackageSpec_zero := ("", None);
     bootstrap.Semantic_DeepEqual := λ a b, bool_decide (a = b);
     bootstrap.Files := list string;
     bootstrap.PackageContent := list (list (bootstrap.GroupKind * string));
     bootstrap.Content := unit;
     bootstrap.packageOperatorDeploymentName := "package-operator-manager" |}.

Record world := {
  found : option (@bootstrap.ClusterPackage externals);
  available : bool
}.

Definition notFound : error := StatusError StatusReasonNotFound "not found".

Definition handle : handler (@bootstrap.op externals) world :=
  λ X c,
    match c in bootstrap.op X return world → X * world with
    | bootstrap.PullImage _ => λ w, ((["manifest.yaml"], None), w)
    | bootstrap.Loader_FromFiles _ =>
        λ w, (([[(bootstrap.crdGK, "clusterpackages");
                 ({| bootstrap.Group := "apps"; bootstrap.Kind := "Deployment" |},
                  "package-operator-manager")];
                [(bootstrap.crdGK, "clusterobjectsets")]], None), w)
    | bootstrap.Client_CreateCRD _ => λ w, (None, w)
    | bootstrap.Client_Get _ into =>
        λ w, match found w with
             | Some existing => ((existing, None), w)
             | None => ((into, Some notFound), w)
             end
    | bootstrap.Client_Create obj =>
        λ w, (None, {| found := Some obj; available := available w |})
    | bootstrap.Client_MergePatch obj =>
        λ w, (None, {| found := Some obj; available := available w |})
    | bootstrap.Client_Delete _ _ => λ w, (Some notFound, w)
    | bootstrap.IsPKOAvailable _ => λ w, ((available w, None), w)
    | bootstrap.Waiter_WaitToBeGone _ _ _ => λ w, (None, w)
    end.

(** The template spec of a package content: one phase per list, one object
    per entry. *)
Definition templateSpec (content : list (list (bootstrap.GroupKind * string)))
  : @bootstrap.ObjectSetTemplateSpec externals :=
  {| bootstrap.Phases :=
       (λ phase : list (bootstrap.GroupKind * string),
          {| bootstrap.Objects :=
               (λ o : bootstrap.GroupKind * string,
                  {| bootstrap.Object :=
                       @bootstrap.Build_Unstructured externals o.1 o.2 None () |})
               <$> phase |})
       <$> content |}.

Definition init : bootstrap.initializer :=
  {| bootstrap.packageOperatorNamespace := "package-operator-system";
     bootstrap.selfBootstrapImage := "quay.io/package-operator/package:v2";
     bootstrap.selfConfig := "" |}.

(** The ClusterPackage of the operator at [image], without config; the
    empty ClusterPackage [Get] is handed. *)
Definition package (image : string) : @bootstrap.ClusterPackage externals :=
  @bootstrap.Build_ClusterPackage externals
    (metav1.ObjectMeta_of "" "package-operator" ∅) (image, None).
Definition empty : @bootstrap.ClusterPackage externals :=
  @bootstrap.Build_ClusterPackage externals (metav1.ObjectMeta_of "" "" ∅) ("", None).

(** A cluster whose ClusterPackage names an older image. *)
Definition outdated : world :=
  {| found := Some (package "quay.io/package-operator/package:v1");
     available := true |}.
End sampleCluster.

(* ===================================================================== *)
(** ** The clean-up program ([package main]) *)
(* ===================================================================== *)

Module cleanup.
Section script.
(** What a ClusterObjectSet holds besides its metadata, and a parsed label
    selector: the program hands both on without looking into them. *)
Context {Body Selector : Type}.

Record ClusterObjectSet := {
  ObjectMeta : metav1.ObjectMeta;
  Rest : Body
}.

(** The calls of the program.  [Client_New] is
    [client.New(config.GetConfigOrDie(), client.Options{})], answered when
    the configuration was found; [Client_Patch] takes the object and the
    object the merge patch is computed from; the [fmt] calls take the format
    as it is written in the source, and its arguments.  Contexts and signal
    handling are left out, as everywhere. *)
Inductive op : Type → Type :=
| Client_New : op (option error)
| Apis_AddToScheme : op (option error)
| Labels_Parse (selector : string) : op (Selector * option error)
| Fmt_Println (text : string) : op unit
| Fmt_Printf (format : string) (args : list string) : op unit
| Client_DeleteAllOf (selector : Selector)
    (propagationPolicy : bootstrap.DeletionPropagation) : op (option error)
| Client_List (selector : Selector) : op (list ClusterObjectSet * option error)
| Client_Patch (obj mergeFrom : ClusterObjectSet) : op (option error).

Definition pkoClusterObjectSetLabelSelector : string :=
  "package-operator.run/package=package-operator".

Definition mustParseLabelSelector (selector : string) : prog op Selector :=
  '(labelSelector, err) ← call (Labels_Parse selector);
  match err with
  | Some err =>
      Panic (fmt_Errorf
               ("must be able to parse label selector string: " +:+ selector +:+ ", ")
               err "")
  | None => Ret labelSelector
  end.

(** The loop over [list.Items]. *)
Fixpoint patchAll (items : list ClusterObjectSet) : prog op unit :=
  match items with
  | [] => Ret ()
  | cos :: rest =>
      _ ← call (Fmt_Printf "\tpatching: %s\n" [metav1.Name (ObjectMeta cos)]);
      let original := cos in
      let cos := {| ObjectMeta := metav1.withFinalizers [] (ObjectMeta cos);
                    Rest := Rest cos |} in
      err ← call (Client_Patch cos original);
      match err with
      | Some err =>
          Panic (fmt_Errorf
                   ("could not patch cos " +:+ metav1.Name (ObjectMeta cos) +:+ ": ")
                   err "")
      | None =>
          _ ← call (Fmt_Printf "\tpatched\n" []);
          patchAll rest
      end
  end.

Definition main : prog op unit :=
  err ← call Client_New;
  match err with
  | Some err => Panic (fmt_Errorf "could not create client: " err "")
  | None =>
  err ← call Apis_AddToScheme;
  match err with
  | Some err => Panic (fmt_Errorf "could not register pko apis into scheme: " err "")
  | None =>
  pkoCosLabelSelector ← mustParseLabelSelector pkoClusterObjectSetLabelSelector;
  _ ← call (Fmt_Println "deleting");
  err ← call (Client_DeleteAllOf pkoCosLabelSelector bootstrap.DeletePropagationOrphan);
  match err with
  | Some err => Panic (fmt_Errorf "could not deleteAllOf: " err "")
  | None =>
  _ ← call (Fmt_Println "deleted");
  _ ← call (Fmt_Println "listing");
  '(items, err) ← call (Client_List pkoCosLabelSelector);
  match err with
  | Some err => Panic (fmt_Errorf "could not list cos: " err "")
  | None =>
  _ ← call (Fmt_Println "listed");
  _ ← patchAll items;
  call (Fmt_Printf "done" [])
  end end end end.

(** Entries that are output only. *)
Definition prints (e : entry op) : bool :=
  match e with
  | Call (Fmt_Println _) _ | Call (Fmt_Printf _ _) _ => true
  | _ => false
  end.

(** The patch of [cos]: its finalizers emptied, as a merge patch from the
    object as listed. *)
Definition strips (answer : option error) (cos : ClusterObjectSet) : entry op :=
  Call (Client_Patch
          {| ObjectMeta := metav1.withFinalizers [] (ObjectMeta cos); Rest := Rest cos |}
          cos)
       answer.
End script.
End cleanup.

(** [finishes Q hist m]: started after the calls [hist], whatever the
    answers, [Q] holds of all the calls made and of the way [m] ends, with a
    value or with a panic. *)
Fixpoint finishes {E : Type → Type} {A : Type}
    (Q : list (entry E) → A + error → Prop) (hist : list (entry E)) (m : prog E A)
  : Prop :=
  match m with
  | Ret a => Q hist (inl a)
  | Panic v => Q hist (inr v)
  | Vis c k => ∀ x, finishes Q (hist ++ [Call c x]) (k x)
  end.

(* ==== PROOFS ==== *)

(* ===================================================================== *)
(** ** Runs and transcripts *)
(* ===================================================================== *)

Section runs.
Context {E : Type → Type} {W : Type} (h : handler E W).

Lemma run_bind {A B} (m : prog E A) (f : A → prog E B) (w : W) :
  run h (m ≫= f) w =
  match run h m w with
  | Done a w' => run h (f a) w'
  | Panicked v w' => Panicked v w'
  end.
Proof.
  unfold mbind, prog_bind. revert w.
  induction m as [a|v|X c k IH]; intros w; simpl; try reflexivity.
  destruct (@h _ c w) as [x w']. apply IH.
Qed.

Lemma transcript_bind {A B} (m : prog E A) (f : A → prog E B) (w : W) :
  transcript h (m ≫= f) w =
  transcript h m w ++
  match run h m w with
  | Done a w' => transcript h (f a) w'
  | Panicked _ _ => []
  end.
Proof.
  unfold mbind, prog_bind. revert w.
  induction m as [a|v|X c k IH]; intros w; simpl; try reflexivity.
  destruct (@h _ c w) as [x w']. simpl. f_equal. apply IH.
Qed.

Lemma run_call {X} (c : E X) (w : W) :
  run h (call c) w = Done (@h _ c w).1 (@h _ c w).2.
Proof. simpl. destruct (@h _ c w); reflexivity. Qed.

Lemma transcript_call {X} (c : E X) (w : W) :
  transcript h (call c) w = [Call c (@h _ c w).1].
Proof. simpl. destruct (@h _ c w); reflexivity. Qed.
End runs.

(* ===================================================================== *)
(** ** Finalizer lists *)
(* ===================================================================== *)

Lemma containsString_elem_of (f : list string) (finalizer : string) :
  controllerutil.containsString f finalizer = true ↔ finalizer ∈ f.
Proof.
  induction f as [|e f IH]; simpl.
  - split; [discriminate | intros H; inversion H].
  - destruct (String.eqb_spec e finalizer) as [->|Hne].
    + split; [intros _; left | reflexivity].
    + rewrite IH. split; [intros H; right; exact H |].
      intros H. apply elem_of_cons in H as [H|H]; [congruence | exact H].
Qed.

Lemma removeString_not_elem_of (f : list string) (finalizer : string) :
  finalizer ∉ controllerutil.removeString f finalizer.
Proof.
  induction f as [|e f IH]; simpl.
  - intros H; inversion H.
  - destruct (String.eqb_spec e finalizer) as [->|Hne]; [exact IH |].
    intros H. apply elem_of_cons in H as [H|H]; [congruence | exact (IH H)].
Qed.

Lemma removeString_elem_of (f : list string) (finalizer other : string) :
  other ≠ finalizer →
  other ∈ controllerutil.removeString f finalizer ↔ other ∈ f.
Proof.
  intros Hne. induction f as [|e f IH]; simpl; [reflexivity |].
  destruct (String.eqb_spec e finalizer) as [->|Hne'].
  - rewrite IH. split; [intros H; right; exact H |].
    intros H. apply elem_of_cons in H as [H|H]; [congruence | exact H].
  - rewrite !elem_of_cons, IH. reflexivity.
Qed.

Section finalizer_facts.
Context {T : Type} `{Object T}.

Lemma GetResourceVersion_SetFinalizers (fs : list string) (o : T) :
  GetResourceVersion (SetFinalizers fs o) = GetResourceVersion o.
Proof. unfold GetResourceVersion, SetFinalizers. rewrite get_set_meta. reflexivity. Qed.

Lemma GetFinalizers_SetFinalizers (fs : list string) (o : T) :
  GetFinalizers (SetFinalizers fs o) = fs.
Proof. unfold GetFinalizers, SetFinalizers. rewrite get_set_meta. reflexivity. Qed.

Lemma GetResourceVersion_AddFinalizer (o : T) (finalizer : string) :
  GetResourceVersion (controllerutil.AddFinalizer o finalizer) = GetResourceVersion o.
Proof.
  unfold controllerutil.AddFinalizer.
  destruct (controllerutil.containsString _ _); [reflexivity |].
  apply GetResourceVersion_SetFinalizers.
Qed.

Lemma GetResourceVersion_RemoveFinalizer (o : T) (finalizer : string) :
  GetResourceVersion (controllerutil.RemoveFinalizer o finalizer) = GetResourceVersion o.
Proof. apply GetResourceVersion_SetFinalizers. Qed.

(** What the two helpers send: one merge patch, on the object with the
    finalizer list already changed, carrying the resource version the object
    had on entry. *)
Lemma EnsureFinalizer_transcript {W} (h : handler op W) (obj : T)
    (finalizer : string) (w : W) :
  controllerutil.ContainsFinalizer obj finalizer = false →
  let obj' := controllerutil.AddFinalizer obj finalizer in
  let data :=
    JObject [("metadata",
              JObject [("finalizers", json_strings (GetFinalizers obj'));
                       ("resourceVersion", JString (GetResourceVersion obj))])] in
  let c := Client_Patch obj' (RawPatch MergePatchType data) [] in
  transcript h (controllers.EnsureFinalizer obj finalizer) w = [Call c (h _ c w).1]
  ∧ run h (controllers.EnsureFinalizer obj finalizer) w =
    Done ((h _ c w).1.1,
          (λ err, fmt_Errorf "adding finalizer: " err "") <$> (h _ c w).1.2)
         (h _ c w).2.
Proof.
  intros Hc. unfold controllers.EnsureFinalizer. rewrite Hc. simpl.
  rewrite GetResourceVersion_AddFinalizer.
  destruct (h _ _ w) as [[obj'' [err|]] w']; simpl; split; reflexivity.
Qed.

Lemma RemoveFinalizer_transcript {W} (h : handler op W) (obj : T)
    (finalizer : string) (w : W) :
  controllerutil.ContainsFinalizer obj finalizer = true →
  let obj' := controllerutil.RemoveFinalizer obj finalizer in
  let data :=
    JObject [("metadata",
              JObject [("finalizers", json_strings (GetFinalizers obj'));
                       ("resourceVersion", JString (GetResourceVersion obj))])] in
  let c := Client_Patch obj' (RawPatch MergePatchType data) [] in
  transcript h (controllers.RemoveFinalizer obj finalizer) w = [Call c (h _ c w).1]
  ∧ run h (controllers.RemoveFinalizer obj finalizer) w =
    Done ((h _ c w).1.1,
          (λ err, fmt_Errorf "removing finalizer: " err "") <$> (h _ c w).1.2)
         (h _ c w).2.
Proof.
  intros Hc. unfold controllers.RemoveFinalizer. rewrite Hc. simpl.
  rewrite GetResourceVersion_RemoveFinalizer.
  destruct (h _ _ w) as [[obj'' [err|]] w']; simpl; split; reflexivity.
Qed.

Lemma EnsureFinalizer_present {W} (h : handler op W) (obj : T)
    (finalizer : string) (w : W) :
  controllerutil.ContainsFinalizer obj finalizer = true →
  transcript h (controllers.EnsureFinalizer obj finalizer) w = []
  ∧ run h (controllers.EnsureFinalizer obj finalizer) w = Done (obj, None) w.
Proof.
  intros Hc. unfold controllers.EnsureFinalizer. rewrite Hc. split; reflexivity.
Qed.

Lemma RemoveFinalizer_absent {W} (h : handler op W) (obj : T)
    (finalizer : string) (w : W) :
  controllerutil.ContainsFinalizer obj finalizer = false →
  transcript h (controllers.RemoveFinalizer obj finalizer) w = []
  ∧ run h (controllers.RemoveFinalizer obj finalizer) w = Done (obj, None) w.
Proof.
  intros Hc. unfold controllers.RemoveFinalizer. rewrite Hc. split; reflexivity.
Qed.
End finalizer_facts.

Lemma append_empty_r (s : string) : s +:+ "" = s.
Proof.
  induction s as [|a s IH]; [reflexivity |].
  change (String a (s +:+ "") = String a s). f_equal. exact IH.
Qed.

(* ===================================================================== *)
(** ** C8, C6, C10 *)
(* ===================================================================== *)

(** C8.  [EnsureFinalizer] on an object that has the finalizer, and
    [RemoveFinalizer] on an object that lacks it, return nil with the object
    and the store as they were and no call at all; and whatever patch either
    helper sends carries, under [metadata.resourceVersion], the resource
    version of the object it was called on. *)
Theorem finalizer_helpers_idempotent_at_store
    {T : Type} `{Object T} {W : Type} (h : handler op W)
    (obj : T) (finalizer : string) (w : W) :
  (controllerutil.ContainsFinalizer obj finalizer = true →
     run h (controllers.EnsureFinalizer obj finalizer) w = Done (obj, None) w
     ∧ transcript h (controllers.EnsureFinalizer obj finalizer) w = [])
  ∧ (controllerutil.ContainsFinalizer obj finalizer = false →
     run h (controllers.RemoveFinalizer obj finalizer) w = Done (obj, None) w
     ∧ transcript h (controllers.RemoveFinalizer obj finalizer) w = [])
  ∧ (∀ e : entry op,
       e ∈ transcript h (controllers.EnsureFinalizer obj finalizer) w
           ++ transcript h (controllers.RemoveFinalizer obj finalizer) w →
       isPatch e = true →
       ∃ data, patchData e = Some data
               ∧ json_at data "metadata" "resourceVersion"
                 = Some (JString (GetResourceVersion obj))).
Proof.
  split; [|split].
  - intros Hc. destruct (EnsureFinalizer_present h obj finalizer w Hc). auto.
  - intros Hc. destruct (RemoveFinalizer_absent h obj finalizer w Hc). auto.
  - intros e He _.
    destruct (controllerutil.ContainsFinalizer obj finalizer) eqn:Hc.
    + destruct (EnsureFinalizer_present h obj finalizer w Hc) as [Ht _].
      destruct (RemoveFinalizer_transcript h obj finalizer w Hc) as [Ht' _].
      rewrite Ht, Ht' in He. simpl in He.
      apply list_elem_of_singleton in He as ->. eexists. split; reflexivity.
    + destruct (EnsureFinalizer_transcript h obj finalizer w Hc) as [Ht _].
      destruct (RemoveFinalizer_absent h obj finalizer w Hc) as [Ht' _].
      rewrite Ht, Ht' in He. simpl in He.
      apply list_elem_of_singleton in He as ->. eexists. split; reflexivity.
Qed.

(** C6.  [FreeCacheAndRemoveFinalizer] starts with the cache's [Free]; when
    [Free] answers an error, that call is the whole transcript (no patch is
    sent), the object comes back as it was, with its finalizers, and the
    error returned is [Free]'s wrapped as "free cache: ...". *)
Theorem FreeCacheAndRemoveFinalizer_frees_first
    {T : Type} `{Object T} {W : Type} (h : handler op W) (obj : T) (w : W) :
  (∃ rest,
     transcript h (controllers.FreeCacheAndRemoveFinalizer obj) w
     = Call (Cache_Free obj) (h _ (Cache_Free obj) w).1 :: rest
     ∧ Forall (λ e, isFree e = false) rest)
  ∧ ∀ err : error,
      (h _ (Cache_Free obj) w).1 = Some err →
      run h (controllers.FreeCacheAndRemoveFinalizer obj) w
      = Done (obj, Some (fmt_Errorf "free cache: " err ""))
             (h _ (Cache_Free obj) w).2
      ∧ transcript h (controllers.FreeCacheAndRemoveFinalizer obj) w
        = [Call (Cache_Free obj) (Some err)]
      ∧ Forall (λ e, isPatch e = false)
          (transcript h (controllers.FreeCacheAndRemoveFinalizer obj) w)
      ∧ Error (fmt_Errorf "free cache: " err "") = "free cache: " +:+ Error err.
Proof.
  unfold controllers.FreeCacheAndRemoveFinalizer.
  rewrite transcript_bind, run_bind, transcript_call, run_call.
  destruct (h _ (Cache_Free obj) w) as [r w1] eqn:Hh. simpl.
  split.
  - destruct r as [err|]; simpl.
    + exists []. split; [reflexivity | constructor].
    + eexists. split; [reflexivity |].
      destruct (controllerutil.ContainsFinalizer obj controllers.CachedFinalizer) eqn:Hc.
      * destruct (RemoveFinalizer_transcript h obj controllers.CachedFinalizer w1 Hc) as [-> _].
        repeat constructor.
      * destruct (RemoveFinalizer_absent h obj controllers.CachedFinalizer w1 Hc) as [-> _].
        constructor.
  - intros err ->. simpl. repeat split; try reflexivity.
    + repeat constructor.
    + rewrite append_empty_r. reflexivity.
Qed.

(** C10.  For a SecretSync that is paused or has a deletion timestamp that
    is not zero, [secretReconciler.Reconcile] returns the empty result and a
    nil error, having issued no call (so nothing is read, patched or
    deleted: the handler's state is the one it started from) and leaving
    the SecretSync, its status included, as it was. *)
Theorem secretReconciler_skips_paused_or_deleting
    {W : Type} (h : handler op W) (K : v1alpha1.Constants) (now : metav1.Time)
    (secretSync : v1alpha1.SecretSync) (w : W) :
  v1alpha1.Paused (v1alpha1.Spec secretSync) = true
  ∨ metav1.IsZero (metav1.DeletionTimestamp (v1alpha1.ObjectMeta secretSync)) = false →
  run h (secretsync.secretReconciler_Reconcile K now secretSync) w
  = Done (secretSync, {| secretsync.statusChanged := false |}, None) w
  ∧ transcript h (secretsync.secretReconciler_Reconcile K now secretSync) w = [].
Proof.
  intros Hgate. unfold secretsync.secretReconciler_Reconcile.
  assert (v1alpha1.Paused (v1alpha1.Spec secretSync)
          || negb (metav1.IsZero (metav1.DeletionTimestamp (v1alpha1.ObjectMeta secretSync)))
          = true) as ->.
  { destruct Hgate as [-> | ->]; [reflexivity | apply orb_true_r]. }
  split; reflexivity.
Qed.

(** C8 at concrete inputs: a SecretSync that holds the cached finalizer, one
    that does not, and the patch sent for the latter (resource version 42). *)
Lemma finalizer_helpers_idempotent_witness :
  (run fake.handle
     (controllers.EnsureFinalizer
        (fake.secretSync false None [controllers.CachedFinalizer] fake.watch)
        controllers.CachedFinalizer) (fake.scripted [])
   = Done (fake.secretSync false None [controllers.CachedFinalizer] fake.watch, None)
          (fake.scripted [])
   ∧ transcript fake.handle
       (controllers.EnsureFinalizer
          (fake.secretSync false None [controllers.CachedFinalizer] fake.watch)
          controllers.CachedFinalizer) (fake.scripted []) = [])
  ∧ (run fake.handle
       (controllers.RemoveFinalizer (fake.secretSync false None [] fake.watch)
          controllers.CachedFinalizer) (fake.scripted [])
     = Done (fake.secretSync false None [] fake.watch, None) (fake.scripted [])
     ∧ transcript fake.handle
         (controllers.RemoveFinalizer (fake.secretSync false None [] fake.watch)
            controllers.CachedFinalizer) (fake.scripted []) = [])
  ∧ ∃ e data,
      transcript fake.handle
        (controllers.EnsureFinalizer (fake.secretSync false None [] fake.watch)
           controllers.CachedFinalizer) (fake.scripted []) = [e]
      ∧ isPatch e = true
      ∧ patchData e = Some data
      ∧ json_at data "metadata" "resourceVersion" = Some (JString "42").
Proof.
  split; [|split].
  - apply (finalizer_helpers_idempotent_at_store fake.handle
             (fake.secretSync false None [controllers.CachedFinalizer] fake.watch)
             controllers.CachedFinalizer (fake.scripted [])).
    reflexivity.
  - apply (finalizer_helpers_idempotent_at_store fake.handle
             (fake.secretSync false None [] fake.watch)
             controllers.CachedFinalizer (fake.scripted [])).
    reflexivity.
  - pose (obj' := controllerutil.AddFinalizer
                    (fake.secretSync false None [] fake.watch)
                    controllers.CachedFinalizer).
    pose (e := Call (Client_Patch obj'
                       (RawPatch MergePatchType
                          (JObject [("metadata",
                             JObject [("finalizers",
                                       json_strings [controllers.CachedFinalizer]);
                                      ("resourceVersion", JString "42")])])) [])
                    (obj', @None error)).
    destruct (proj2 (proj2 (finalizer_helpers_idempotent_at_store fake.handle
                              (fake.secretSync false None [] fake.watch)
                              controllers.CachedFinalizer (fake.scripted []))) e)
      as (data & Hd & Hat); [left | reflexivity |].
    exists e, data. repeat split; [exact Hd | exact Hat].
Defined.

(** C6 at a concrete input: the cache's [Free] answers [boom]. *)
Lemma FreeCacheAndRemoveFinalizer_frees_first_witness :
  run fake.handle
    (controllers.FreeCacheAndRemoveFinalizer
       (fake.secretSync false (Some 7) [controllers.CachedFinalizer] fake.watch))
    (fake.scripted [Some fake.boom])
  = Done (fake.secretSync false (Some 7) [controllers.CachedFinalizer] fake.watch,
          Some (fmt_Errorf "free cache: " fake.boom ""))
         (fake.scripted [])
  ∧ transcript fake.handle
      (controllers.FreeCacheAndRemoveFinalizer
         (fake.secretSync false (Some 7) [controllers.CachedFinalizer] fake.watch))
      (fake.scripted [Some fake.boom])
    = [Call (Cache_Free
               (fake.secretSync false (Some 7) [controllers.CachedFinalizer] fake.watch))
            (Some fake.boom)]
  ∧ Forall (λ e, isPatch e = false)
      (transcript fake.handle
         (controllers.FreeCacheAndRemoveFinalizer
            (fake.secretSync false (Some 7) [controllers.CachedFinalizer] fake.watch))
         (fake.scripted [Some fake.boom]))
  ∧ Error (fmt_Errorf "free cache: " fake.boom "") = "free cache: boom".
Proof.
  exact (proj2 (FreeCacheAndRemoveFinalizer_frees_first fake.handle
                  (fake.secretSync false (Some 7) [controllers.CachedFinalizer] fake.watch)
                  (fake.scripted [Some fake.boom]))
               fake.boom eq_refl).
Defined.

(** C10 at concrete inputs: a paused SecretSync, and one being deleted. *)
Lemma secretReconciler_skips_paused_or_deleting_witness :
  (run fake.handle
     (secretsync.secretReconciler_Reconcile fake.constants 100
        (fake.secretSync true None [] fake.watch)) (fake.scripted [Some fake.boom])
   = Done (fake.secretSync true None [] fake.watch,
           {| secretsync.statusChanged := false |}, None)
          (fake.scripted [Some fake.boom])
   ∧ transcript fake.handle
       (secretsync.secretReconciler_Reconcile fake.constants 100
          (fake.secretSync true None [] fake.watch)) (fake.scripted [Some fake.boom])
     = [])
  ∧ (run fake.handle
       (secretsync.secretReconciler_Reconcile fake.constants 100
          (fake.secretSync false (Some 7) [] fake.poll)) (fake.scripted [])
     = Done (fake.secretSync false (Some 7) [] fake.poll,
             {| secretsync.statusChanged := false |}, None)
            (fake.scripted [])
     ∧ transcript fake.handle
         (secretsync.secretReconciler_Reconcile fake.constants 100
            (fake.secretSync false (Some 7) [] fake.poll)) (fake.scripted [])
       = []).
Proof.
  split.
  - apply secretReconciler_skips_paused_or_deleting. left. reflexivity.
  - apply secretReconciler_skips_paused_or_deleting. right. reflexivity.
Defined.

(* ===================================================================== *)
(** ** Status conditions *)
(* ===================================================================== *)

Section conditions.
Import metav1.

Lemma Find_Some (cs : list Condition) (t : string) (i : nat) :
  meta.FindStatusCondition cs t = Some i →
  ∃ c, cs !! i = Some c ∧ Type_ c = t.
Proof.
  revert i. induction cs as [|c cs IH]; intros i; simpl; [discriminate |].
  destruct (String.eqb_spec (Type_ c) t) as [Heq|Hne].
  - intros [= <-]. exists c. split; [reflexivity | exact Heq].
  - destruct (meta.FindStatusCondition cs t) as [j|]; simpl; [|discriminate].
    intros [= <-]. destruct (IH j eq_refl) as (c' & Hl & Ht). eauto.
Qed.

Lemma Find_None (cs : list Condition) (t : string) :
  meta.FindStatusCondition cs t = None → ∀ c, c ∈ cs → Type_ c ≠ t.
Proof.
  induction cs as [|c cs IH]; simpl; intros Hf c' Hin; [inversion Hin |].
  destruct (String.eqb_spec (Type_ c) t) as [Heq|Hne]; [discriminate |].
  destruct (meta.FindStatusCondition cs t) as [j|] eqn:Hj; [discriminate |].
  apply elem_of_cons in Hin as [-> | Hin]; [exact Hne | exact (IH eq_refl c' Hin)].
Qed.

Lemma Find_app_singleton (cs : list Condition) (n : Condition) (t : string) :
  meta.FindStatusCondition (cs ++ [n]) t =
  match meta.FindStatusCondition cs t with
  | Some i => Some i
  | None => if String.eqb (Type_ n) t then Some (length cs) else None
  end.
Proof.
  induction cs as [|c cs IH]; simpl.
  - destruct (String.eqb (Type_ n) t); reflexivity.
  - destruct (String.eqb (Type_ c) t); [reflexivity |].
    rewrite IH. destruct (meta.FindStatusCondition cs t); simpl; [reflexivity |].
    destruct (String.eqb (Type_ n) t); reflexivity.
Qed.

Lemma Find_insert_same_type (cs : list Condition) (i : nat) (e u : Condition)
    (t : string) :
  cs !! i = Some e → Type_ u = Type_ e →
  meta.FindStatusCondition (<[i := u]> cs) t = meta.FindStatusCondition cs t.
Proof.
  revert i. induction cs as [|c cs IH]; intros i Hl Ht; [discriminate |].
  destruct i as [|i]; simpl in *.
  - injection Hl as ->. rewrite Ht. reflexivity.
  - rewrite (IH i Hl Ht). reflexivity.
Qed.

(** The three outcomes of [SetStatusCondition] on the slice. *)
Lemma SetStatusCondition_cases (now : Time) (cs : list Condition) (n : Condition) :
  (meta.FindStatusCondition cs (Type_ n) = None
   ∧ (meta.SetStatusCondition now cs n).1 = cs ++ [meta.stampCondition now n])
  ∨ (∃ i e, meta.FindStatusCondition cs (Type_ n) = Some i
            ∧ cs !! i = Some e ∧ Type_ e = Type_ n
            ∧ (meta.SetStatusCondition now cs n).1
              = <[i := meta.updateCondition now e n]> cs).
Proof.
  unfold meta.SetStatusCondition.
  destruct (meta.FindStatusCondition cs (Type_ n)) as [i|] eqn:Hf.
  - right. destruct (Find_Some _ _ _ Hf) as (e & Hl & Ht).
    exists i, e. rewrite Hl. auto.
  - left. auto.
Qed.

Lemma SetStatusCondition_lookup_other (now : Time) (cs : list Condition)
    (n d : Condition) (i : nat) :
  cs !! i = Some d → Type_ d ≠ Type_ n →
  (meta.SetStatusCondition now cs n).1 !! i = Some d.
Proof.
  intros Hl Hne.
  destruct (SetStatusCondition_cases now cs n) as [[_ ->] | (j & e & _ & Hj & Ht & ->)].
  - apply lookup_app_l_Some. exact Hl.
  - rewrite list_lookup_insert_ne; [exact Hl |].
    intros ->. rewrite Hl in Hj. injection Hj as ->. congruence.
Qed.

Lemma SetStatusCondition_find_other (now : Time) (cs : list Condition)
    (n : Condition) (t : string) :
  t ≠ Type_ n →
  meta.FindStatusCondition (meta.SetStatusCondition now cs n).1 t
  = meta.FindStatusCondition cs t.
Proof.
  intros Hne.
  destruct (SetStatusCondition_cases now cs n) as [[_ ->] | (j & e & _ & Hj & Ht & ->)].
  - rewrite Find_app_singleton.
    destruct (meta.FindStatusCondition cs t); [reflexivity |].
    simpl. destruct (String.eqb_spec (Type_ n) t); [congruence | reflexivity].
  - apply Find_insert_same_type with e; [exact Hj | reflexivity].
Qed.

Lemma SetStatusCondition_elem_of (now : Time) (cs : list Condition)
    (n c' : Condition) :
  c' ∈ (meta.SetStatusCondition now cs n).1 →
  c' ∈ cs
  ∨ (Type_ c' = Type_ n ∧ Status c' = Status n ∧ Reason c' = Reason n
     ∧ Message c' = Message n ∧ ObservedGeneration c' = ObservedGeneration n).
Proof.
  destruct (SetStatusCondition_cases now cs n) as [[_ ->] | (j & e & _ & Hj & Ht & ->)].
  - intros Hin. apply elem_of_app in Hin as [Hin | Hin]; [left; exact Hin |].
    apply list_elem_of_singleton in Hin as ->. right. simpl. auto.
  - intros Hin. apply list_elem_of_lookup in Hin as [k Hk].
    destruct (decide (k = j)) as [-> | Hne].
    + rewrite list_lookup_insert_eq in Hk by (eapply lookup_lt_Some; exact Hj).
      injection Hk as <-. right. simpl. auto.
    + rewrite list_lookup_insert_ne in Hk by congruence.
      left. apply list_elem_of_lookup. eauto.
Qed.

Lemma SetStatusCondition_find_same (now : Time) (cs : list Condition) (n : Condition) :
  ∃ i c', meta.FindStatusCondition (meta.SetStatusCondition now cs n).1 (Type_ n) = Some i
          ∧ (meta.SetStatusCondition now cs n).1 !! i = Some c'
          ∧ Type_ c' = Type_ n ∧ Status c' = Status n ∧ Reason c' = Reason n
          ∧ Message c' = Message n ∧ ObservedGeneration c' = ObservedGeneration n.
Proof.
  destruct (SetStatusCondition_cases now cs n) as [[Hf ->] | (j & e & Hf & Hj & Ht & ->)].
  - exists (length cs), (meta.stampCondition now n).
    rewrite Find_app_singleton, Hf. simpl. rewrite String.eqb_refl.
    split; [reflexivity |]. split; [|auto].
    rewrite lookup_app_r by reflexivity. rewrite Nat.sub_diag. reflexivity.
  - exists j, (meta.updateCondition now e n).
    rewrite (@Find_insert_same_type cs j e (meta.updateCondition now e n)
               (Type_ n) Hj eq_refl), Hf.
    split; [reflexivity |]. split; [|simpl; auto].
    apply list_lookup_insert_eq. eapply lookup_lt_Some; exact Hj.
Qed.
End conditions.

(* ===================================================================== *)
(** ** [MapConditions] *)
(* ===================================================================== *)

Section map_conditions.
Import metav1.
Variable now : nat → Time.
Variables srcGeneration destGeneration : Z.

Local Abbreviation from i src dest :=
  (controllers.MapConditions_from now i srcGeneration src destGeneration dest).

(** One turn of the loop: an upsert of the copy, or nothing. *)
Lemma MapConditions_from_cons (i : nat) (c : Condition) (rest dest : list Condition) :
  from i (c :: rest) dest =
  from (S i) rest
    (if mapping.is_copied srcGeneration c
     then (meta.SetStatusCondition (now i) dest (mapping.copy_of destGeneration c)).1
     else dest).
Proof.
  simpl. unfold mapping.is_copied.
  destruct (ObservedGeneration c =? srcGeneration); simpl; [|reflexivity].
  destruct (controllers.IsMappedCondition c); reflexivity.
Qed.

Lemma MapConditions_from_app (i : nat) (l1 l2 dest : list Condition) :
  from i (l1 ++ l2) dest = from (i + length l1)%nat l2 (from i l1 dest).
Proof.
  revert i dest. induction l1 as [|c l1 IH]; intros i dest.
  - simpl. rewrite Nat.add_0_r. reflexivity.
  - rewrite <- app_comm_cons, !MapConditions_from_cons, IH. simpl.
    rewrite Nat.add_succ_r. reflexivity.
Qed.

Lemma MapConditions_from_fold (i : nat) (src dest : list Condition) :
  from i src dest =
  foldl (λ d ic, (meta.SetStatusCondition (now ic.1) d
                    (mapping.copy_of destGeneration ic.2)).1)
        dest
        (filter (λ ic, mapping.is_copied srcGeneration ic.2 = true)
                (imap (λ j c, ((i + j)%nat, c)) src)).
Proof.
  revert i dest. induction src as [|c src IH]; intros i dest; [reflexivity |].
  rewrite MapConditions_from_cons, IH. cbn [imap].
  rewrite filter_cons. cbn [snd fst]. rewrite Nat.add_0_r.
  assert (imap ((λ j c0, ((i + j)%nat, c0)) ∘ S) src
          = imap (λ j c0, ((S i + j)%nat, c0)) src) as ->.
  { apply imap_ext. intros j x _. simpl. rewrite Nat.add_succ_r. reflexivity. }
  destruct (mapping.is_copied srcGeneration c); case_decide; try congruence; reflexivity.
Qed.

Lemma MapConditions_from_untouched (i : nat) (src dest : list Condition)
    (k : nat) (d : Condition) :
  dest !! k = Some d →
  (∀ c, c ∈ src → mapping.is_copied srcGeneration c = true → Type_ c ≠ Type_ d) →
  from i src dest !! k = Some d.
Proof.
  revert i dest. induction src as [|c src IH]; intros i dest Hl Hno; [exact Hl |].
  rewrite MapConditions_from_cons. apply IH.
  - destruct (mapping.is_copied srcGeneration c) eqn:Hc; [|exact Hl].
    apply SetStatusCondition_lookup_other; [exact Hl |].
    intros Heq. apply (Hno c); [left | exact Hc | symmetry; exact Heq].
  - intros c' Hin. apply Hno. right. exact Hin.
Qed.

Lemma MapConditions_from_elem_of (i : nat) (src dest : list Condition)
    (c' : Condition) :
  c' ∈ from i src dest →
  c' ∈ dest
  ∨ ∃ c, c ∈ src ∧ mapping.is_copied srcGeneration c = true
         ∧ mapping.shows destGeneration c c'.
Proof.
  revert i dest. induction src as [|c src IH]; intros i dest Hin; [left; exact Hin |].
  rewrite MapConditions_from_cons in Hin.
  destruct (IH _ _ Hin) as [Hd | (c0 & Hc0 & Hq & Hs)].
  - destruct (mapping.is_copied srcGeneration c) eqn:Hc; [|left; exact Hd].
    destruct (SetStatusCondition_elem_of _ _ _ _ Hd) as [Hd' | Hs]; [left; exact Hd' |].
    right. exists c. split; [left |]. split; [exact Hc | exact Hs].
  - right. exists c0. split; [right; exact Hc0 | auto].
Qed.

Lemma holds_SetStatusCondition_other (t : Time) (c n : Condition)
    (dest : list Condition) :
  Type_ n ≠ Type_ c →
  mapping.holds destGeneration c dest →
  mapping.holds destGeneration c (meta.SetStatusCondition t dest n).1.
Proof.
  intros Hne (k & c' & Hf & Hl & Hs). exists k, c'.
  split; [|split; [|exact Hs]].
  - rewrite SetStatusCondition_find_other by congruence. exact Hf.
  - apply SetStatusCondition_lookup_other; [exact Hl |].
    destruct Hs as (Ht & _). congruence.
Qed.

Lemma MapConditions_from_holds (i : nat) (c : Condition) (src dest : list Condition) :
  (∀ c2, c2 ∈ src → mapping.is_copied srcGeneration c2 = true → Type_ c2 ≠ Type_ c) →
  mapping.holds destGeneration c dest →
  mapping.holds destGeneration c (from i src dest).
Proof.
  revert i dest. induction src as [|c2 src IH]; intros i dest Hno Hh; [exact Hh |].
  rewrite MapConditions_from_cons. apply IH.
  - intros c3 Hin. apply Hno. right. exact Hin.
  - destruct (mapping.is_copied srcGeneration c2) eqn:Hc; [|exact Hh].
    apply holds_SetStatusCondition_other; [|exact Hh].
    change (Type_ c2 ≠ Type_ c). apply Hno; [left | exact Hc].
Qed.

Lemma MapConditions_from_last (i : nat) (pre : list Condition) (c : Condition)
    (post dest : list Condition) :
  mapping.is_copied srcGeneration c = true →
  (∀ c2, c2 ∈ post → mapping.is_copied srcGeneration c2 = true → Type_ c2 ≠ Type_ c) →
  mapping.holds destGeneration c (from i (pre ++ c :: post) dest).
Proof.
  intros Hc Hno. rewrite MapConditions_from_app, MapConditions_from_cons, Hc.
  apply MapConditions_from_holds; [exact Hno |].
  destruct (SetStatusCondition_find_same (now (i + length pre))
              (from i pre dest) (mapping.copy_of destGeneration c))
    as (k & c' & Hf & Hl & Hs).
  exists k, c'. split; [exact Hf |]. split; [exact Hl | exact Hs].
Qed.
End map_conditions.

(** C9.  [MapConditions] upserts into the destination, in source order, the
    copy of every source condition that was observed at the source
    generation and whose type contains a slash, and does nothing for the
    others.  So: a destination condition whose type no copied source
    condition has stays where it is, unchanged; every condition of the
    result is one of the destination or shows a copied source condition
    (same type, status, reason and message, the destination's generation);
    and a copied source condition after which no other copied one of its type
    comes is shown by the result's condition of that type. *)
Theorem MapConditions_copies_exactly_the_mapped
    (now : nat → metav1.Time) (srcGeneration destGeneration : Z)
    (srcConditions destConditions : list metav1.Condition) :
  let result :=
    controllers.MapConditions now srcGeneration srcConditions
      destGeneration destConditions in
  result =
    foldl (λ d ic, (meta.SetStatusCondition (now ic.1) d
                      (mapping.copy_of destGeneration ic.2)).1)
          destConditions
          (filter (λ ic, mapping.is_copied srcGeneration ic.2 = true)
                  (imap (λ j c, (j, c)) srcConditions))
  ∧ (∀ k d,
       destConditions !! k = Some d →
       (∀ c, c ∈ srcConditions → mapping.is_copied srcGeneration c = true →
             metav1.Type_ c ≠ metav1.Type_ d) →
       result !! k = Some d)
  ∧ (∀ c',
       c' ∈ result →
       c' ∈ destConditions
       ∨ ∃ c, c ∈ srcConditions ∧ mapping.is_copied srcGeneration c = true
              ∧ mapping.shows destGeneration c c')
  ∧ (∀ pre c post,
       srcConditions = pre ++ c :: post →
       mapping.is_copied srcGeneration c = true →
       (∀ c2, c2 ∈ post → mapping.is_copied srcGeneration c2 = true →
              metav1.Type_ c2 ≠ metav1.Type_ c) →
       mapping.holds destGeneration c result).
Proof.
  intros result. unfold result, controllers.MapConditions.
  split; [|split; [|split]].
  - apply (MapConditions_from_fold now srcGeneration destGeneration 0).
  - intros k d. apply MapConditions_from_untouched.
  - intros c'. apply MapConditions_from_elem_of.
  - intros pre c post ->. apply MapConditions_from_last.
Qed.

(** [MapConditions] on a small input: the mapped condition of the current
    generation is appended, stamped with the clock's reading; nothing else
    moves. *)
Example MapConditions_example :
  controllers.MapConditions fake.clock 3
    [fake.mappedCurrent; fake.unmapped; fake.mappedOutdated] 7 [fake.ready]
  = [fake.ready;
     {| metav1.Type_ := "my-prefix/Available"; metav1.Status := "True";
        metav1.ObservedGeneration := 7; metav1.LastTransitionTime := 100;
        metav1.Reason := "Up"; metav1.Message := "all replicas up" |}].
Proof. reflexivity. Qed.

(** C9 at that input. *)
Lemma MapConditions_copies_exactly_the_mapped_witness :
  controllers.MapConditions fake.clock 3
    [fake.mappedCurrent; fake.unmapped; fake.mappedOutdated] 7 [fake.ready]
    !! 0%nat = Some fake.ready
  ∧ mapping.holds 7 fake.mappedCurrent
      (controllers.MapConditions fake.clock 3
         [fake.mappedCurrent; fake.unmapped; fake.mappedOutdated] 7 [fake.ready]).
Proof.
  destruct (MapConditions_copies_exactly_the_mapped fake.clock 3 7
              [fake.mappedCurrent; fake.unmapped; fake.mappedOutdated] [fake.ready])
    as (_ & Huntouched & _ & Hlast).
  split.
  - apply Huntouched; [reflexivity |].
    intros c Hin Hc.
    apply elem_of_cons in Hin as [-> | Hin]; [discriminate |].
    apply elem_of_cons in Hin as [-> | Hin]; [discriminate |].
    apply elem_of_cons in Hin as [-> | Hin]; [discriminate |].
    inversion Hin.
  - apply (Hlast [] fake.mappedCurrent [fake.unmapped; fake.mappedOutdated]);
      [reflexivity | reflexivity |].
    intros c2 Hin Hc.
    apply elem_of_cons in Hin as [-> | Hin]; [discriminate |].
    apply elem_of_cons in Hin as [-> | Hin]; [discriminate |].
    inversion Hin.
Defined.

(* ===================================================================== *)
(** ** Postconditions over all answers *)
(* ===================================================================== *)

Section post_rules.
Context {A : Type}.

Lemma last_or_cons (l : option (entry op)) (e : entry op) (tr : list (entry op)) :
  last_or l (e :: tr) = last_or (Some e) tr.
Proof. unfold last_or. rewrite last_cons. destruct (last tr); reflexivity. Qed.

(** What [post] promises holds of every run that returns. *)
Lemma post_sound (P : option (entry op) → A → Prop) (l : option (entry op))
    (m : prog op A) :
  post P l m →
  ∀ {W} (h : handler op W) (w : W) (a : A) (w' : W),
    run h m w = Done a w' → P (last_or l (transcript h m w)) a.
Proof.
  induction 1 as [l a Ha | l v | l X c k _ IH]; intros W h w a' w' Hrun; simpl in *.
  - injection Hrun as <- <-. exact Ha.
  - discriminate.
  - destruct (h X c w) as [x w1]. rewrite last_or_cons. eapply IH. exact Hrun.
Qed.

Lemma post_mono (P Q : option (entry op) → A → Prop) (l : option (entry op))
    (m : prog op A) :
  (∀ l' a, P l' a → Q l' a) → post P l m → post Q l m.
Proof.
  intros HPQ. induction 1 as [l a Ha | l v | l X c k _ IH].
  - apply post_Ret. auto.
  - apply post_Panic.
  - apply post_Vis. exact IH.
Qed.

Lemma post_bind {B} (Q : option (entry op) → B → Prop)
    (P : option (entry op) → A → Prop) (l : option (entry op))
    (m : prog op B) (f : B → prog op A) :
  post Q l m → (∀ l' b, Q l' b → post P l' (f b)) → post P l (m ≫= f).
Proof.
  intros Hm Hf. unfold mbind, prog_bind.
  induction Hm as [l b Hb | l v | l X c k _ IH]; simpl.
  - apply Hf. exact Hb.
  - apply post_Panic.
  - apply post_Vis. exact IH.
Qed.
End post_rules.

Lemma post_call {X} (c : op X) (l : option (entry op)) :
  post (λ l' x, l' = Some (Call c x)) l (call c).
Proof. apply post_Vis. intros x. apply post_Ret. reflexivity. Qed.

(** One call, then case analysis on its answer. *)
Ltac post_step :=
  eapply post_bind; [apply post_call | intros ? ? ->].

Lemma Error_wrapAll (pres : list string) (cause : error) :
  Error (wrapAll pres cause) = concatStrings pres +:+ Error cause.
Proof.
  induction pres as [|pre pres IH]; [reflexivity |].
  change (pre +:+ Error (wrapAll pres cause) +:+ ""
          = (pre +:+ concatStrings pres) +:+ Error cause).
  rewrite append_empty_r, IH.
  clear IH. induction pre as [|a pre IHp]; [reflexivity |].
  change (String a (pre +:+ concatStrings pres +:+ Error cause)
          = String a ((pre +:+ concatStrings pres) +:+ Error cause)).
  f_equal. exact IHp.
Qed.

Lemma rootCause_wrapAll (pres : list string) (cause : error) :
  rootCause (wrapAll pres cause) = rootCause cause
  ∧ contexts (wrapAll pres cause) = pres ++ contexts cause.
Proof.
  induction pres as [|pre pres [IH1 IH2]]; [split; reflexivity |].
  simpl. rewrite IH1, IH2. split; reflexivity.
Qed.

(* ===================================================================== *)
(** ** Errors of the finalizer helpers *)
(* ===================================================================== *)

Section helper_errors.
Context {T : Type} `{Object T}.

Lemma EnsureFinalizer_post (obj : T) (finalizer : string) (l : option (entry op)) :
  post (λ l' r, ∀ err, r.2 = Some err → blamesPatch "adding finalizer: " l' err)
       l (controllers.EnsureFinalizer obj finalizer).
Proof.
  unfold controllers.EnsureFinalizer.
  destruct (controllerutil.ContainsFinalizer obj finalizer).
  - apply post_Ret. intros err [=].
  - cbn [json_Marshal]. post_step. destruct b as [obj' [cause|]]; apply post_Ret.
    + intros err [= <-]. eexists _, cause.
      split; [reflexivity |]. split; [eexists; reflexivity |]. split; reflexivity.
    + intros err [=].
Qed.

Lemma RemoveFinalizer_post (obj : T) (finalizer : string) (l : option (entry op)) :
  post (λ l' r, ∀ err, r.2 = Some err → blamesPatch "removing finalizer: " l' err)
       l (controllers.RemoveFinalizer obj finalizer).
Proof.
  unfold controllers.RemoveFinalizer.
  destruct (controllerutil.ContainsFinalizer obj finalizer); simpl negb; cbv iota.
  - cbn [json_Marshal]. post_step. destruct b as [obj' [cause|]]; apply post_Ret.
    + intros err [= <-]. eexists _, cause.
      split; [reflexivity |]. split; [eexists; reflexivity |]. split; reflexivity.
    + intros err [=].
  - apply post_Ret. intros err [=].
Qed.

Lemma FreeCacheAndRemoveFinalizer_post (obj : T) (l : option (entry op)) :
  post (λ l' r, ∀ err, r.2 = Some err →
                  blamesFree "free cache: " l' err
                  ∨ blamesPatch "removing finalizer: " l' err)
       l (controllers.FreeCacheAndRemoveFinalizer obj).
Proof.
  unfold controllers.FreeCacheAndRemoveFinalizer.
  post_step. destruct b as [cause|].
  - apply post_Ret. intros err [= <-]. left. eexists _, cause.
    repeat split; reflexivity.
  - eapply post_mono; [|apply RemoveFinalizer_post].
    intros l' r Hr err Herr. right. exact (Hr err Herr).
Qed.
End helper_errors.

Lemma blamesPatch_blames (ctx : entry op → list string) (pre : string)
    (outer : list string) (l : option (entry op)) (err : error) :
  (∀ e, is_Some (patchData e) → ctx e = outer ++ [pre]) →
  blamesPatch pre l err →
  blames ctx l (wrapAll outer err).
Proof.
  intros Hctx (e & cause & -> & Hp & Ha & ->).
  exists e, cause. rewrite (Hctx e Hp).
  split; [reflexivity |]. split; [exact Ha |].
  split; [destruct outer; discriminate |].
  unfold wrapAll. rewrite foldr_app. reflexivity.
Qed.

Lemma blamesFree_blames (ctx : entry op → list string) (pre : string)
    (outer : list string) (l : option (entry op)) (err : error) :
  (∀ e, isFree e = true → ctx e = outer ++ [pre]) →
  blamesFree pre l err →
  blames ctx l (wrapAll outer err).
Proof.
  intros Hctx (e & cause & -> & Hp & Ha & ->).
  exists e, cause. rewrite (Hctx e Hp).
  split; [reflexivity |]. split; [exact Ha |].
  split; [destruct outer; discriminate |].
  unfold wrapAll. rewrite foldr_app. reflexivity.
Qed.

Lemma patchData_cases (ctx : entry op → list string) (texts : list string) :
  (∀ T (O : Object T) (obj : T) pt data opts x,
     ctx (Call (Client_Patch obj (RawPatch pt data) opts) x) = texts) →
  ∀ e, is_Some (patchData e) → ctx e = texts.
Proof.
  intros Hctx [X c x] [data Hd]. destruct c; try discriminate.
  destruct patch; try discriminate. apply Hctx.
Qed.

Lemma isFree_cases (ctx : entry op → list string) (texts : list string) :
  (∀ T (O : Object T) (owner : T) x, ctx (Call (Cache_Free owner) x) = texts) →
  ∀ e, isFree e = true → ctx e = texts.
Proof.
  intros Hctx [X c x] Hf. destruct c; try discriminate. apply Hctx.
Qed.

(* ===================================================================== *)
(** ** Errors of the SecretSync reconcilers *)
(* ===================================================================== *)

Section reconciler_errors.
Variable K : v1alpha1.Constants.

Lemma targetObject_labelled (secretSync : v1alpha1.SecretSync)
    (srcSecret : corev1.Secret) (dest : types.NamespacedName) :
  bool_decide (metav1.Labels (corev1.ObjectMeta
                 (secretsync.targetObject K secretSync srcSecret dest)) = ∅) = false.
Proof. apply bool_decide_eq_false. simpl. apply insert_non_empty. Qed.

Lemma syncDest_post (secretSync : v1alpha1.SecretSync) (srcSecret : corev1.Secret)
    (dests controllerOf : list types.NamespacedName)
    (controllerOfLUT : gset types.NamespacedName) (l : option (entry op)) :
  post (λ l' r, ∀ err, r = inl err → blames context.secretReconciler l' err)
       l (secretsync.syncDest K secretSync srcSecret dests controllerOf controllerOfLUT).
Proof.
  revert controllerOf controllerOfLUT l.
  induction dests as [|dest rest IH]; intros controllerOf controllerOfLUT l.
  - apply post_Ret. intros err [=].
  - cbn [secretsync.syncDest]. post_step. destruct b as [cause|].
    { apply post_Ret. intros err [= <-]. eexists _, cause.
      split; [reflexivity |]. split; [reflexivity |].
      cbn [context.secretReconciler]. rewrite targetObject_labelled.
      split; [discriminate | reflexivity]. }
    post_step. destruct b as [target' [cause|]].
    { apply post_Ret. intros err [= <-]. eexists _, cause.
      split; [reflexivity |]. split; [reflexivity |].
      split; [discriminate | reflexivity]. }
    post_step. destruct b as [target'' [cause|]].
    { apply post_Ret. intros err [= <-]. eexists _, cause.
      split; [reflexivity |]. split; [reflexivity |].
      split; [discriminate | reflexivity]. }
    apply IH.
Qed.

Lemma deleteUnmanaged_post (items : list corev1.Secret)
    (controllerOfLUT : gset types.NamespacedName) (l : option (entry op)) :
  post (λ l' r, ∀ err, r = Some err → blames context.secretReconciler l' err)
       l (secretsync.deleteUnmanaged items controllerOfLUT).
Proof.
  revert l. induction items as [|managedSecret rest IH]; intros l.
  - apply post_Ret. intros err [=].
  - cbn [secretsync.deleteUnmanaged]. case_bool_decide; [apply IH |].
    post_step. destruct b as [cause|]; [|apply IH].
    unfold IgnoreNotFound. destruct (IsNotFound cause); [apply IH |].
    apply post_Ret. intros err [= <-]. eexists _, cause.
    split; [reflexivity |]. split; [reflexivity |].
    split; [discriminate | reflexivity].
Qed.

Lemma secretReconciler_post (now : metav1.Time) (secretSync : v1alpha1.SecretSync) :
  post (λ l' r, ∀ err, r.2 = Some err → blames context.secretReconciler l' err)
       None (secretsync.secretReconciler_Reconcile K now secretSync).
Proof.
  unfold secretsync.secretReconciler_Reconcile.
  destruct (v1alpha1.Paused (v1alpha1.Spec secretSync)
            || negb (metav1.IsZero (metav1.DeletionTimestamp
                                      (v1alpha1.ObjectMeta secretSync)))).
  { apply post_Ret. intros err [=]. }
  eapply post_bind with
    (Q := λ l' r, ∀ err, r.2 = Some err → blames context.secretReconciler l' err).
  { destruct (v1alpha1.Watch (v1alpha1.Strategy (v1alpha1.Spec secretSync))).
    2:{ apply post_Ret. intros err [=]. }
    unfold controllers.EnsureCachedFinalizer.
    eapply post_bind; [apply EnsureFinalizer_post |].
    intros l' [ss1 [cause|]] Hb; cbn beta iota.
    { apply post_Ret. intros err [= <-].
      apply (blamesPatch_blames context.secretReconciler "adding finalizer: "
               ["adding cached finalizer: "]).
      - apply patchData_cases. reflexivity.
      - apply Hb. reflexivity. }
    post_step. destruct b as [cause|].
    { apply post_Ret. intros err [= <-]. eexists _, cause.
      split; [reflexivity |]. split; [reflexivity |].
      split; [discriminate | reflexivity]. }
    post_step. destruct b as [cause|].
    { apply post_Ret. intros err [= <-]. eexists _, cause.
      split; [reflexivity |]. split; [reflexivity |].
      split; [discriminate | reflexivity]. }
    apply post_Ret. intros err [=]. }
  intros l1 [ss1 [err1|]] Hb; cbn beta iota.
  { apply post_Ret. intros err [= <-]. apply Hb. reflexivity. }
  destruct (secretsync.srcReaderForStrategy _) as [srcReader | v];
    [|apply post_Panic].
  post_step. destruct b as [srcSecret [cause|]].
  { apply post_Ret. intros err [= <-]. eexists _, cause.
    split; [reflexivity |]. split; [reflexivity |].
    split; [discriminate | reflexivity]. }
  eapply post_bind; [apply syncDest_post |].
  intros l2 [err2 | [controllerOf controllerOfLUT]] Hs; cbn beta iota.
  { apply post_Ret. intros err [= <-]. apply Hs. reflexivity. }
  post_step. destruct b as [managedSecretsList [cause|]].
  { apply post_Ret. intros err [= <-]. eexists _, cause.
    split; [reflexivity |]. split; [reflexivity |].
    split; [discriminate | reflexivity]. }
  eapply post_bind; [apply deleteUnmanaged_post |].
  intros l3 [err3|] Hd; cbn beta iota.
  { apply post_Ret. intros err [= <-]. apply Hd. reflexivity. }
  destruct (meta.SetStatusCondition _ _ _) as [conditions condChanged].
  apply post_Ret. intros err [=].
Qed.

Lemma deletionReconciler_post (secretSync : v1alpha1.SecretSync) :
  post (λ l' r, ∀ err, r.2 = Some err →
                  blames context.deletionReconciler l' err
                  ∨ (l' = None
                     ∧ err = fmt_Errorf "" secretsync.ErrInvalidStrategy
                               ": strategy not implemented"))
       None (secretsync.deletionReconciler_Reconcile secretSync).
Proof.
  unfold secretsync.deletionReconciler_Reconcile.
  destruct (metav1.IsZero _).
  { apply post_Ret. intros err [=]. }
  destruct (v1alpha1.Poll _) as [?|].
  { apply post_Ret. intros err [=]. }
  destruct (v1alpha1.Watch _) as [?|].
  2:{ apply post_Ret. intros err [= <-]. right. split; reflexivity. }
  post_step.
  assert (post (λ l' r, ∀ err, r.2 = Some err →
                  blames context.deletionReconciler l' err
                  ∨ (l' = None
                     ∧ err = fmt_Errorf "" secretsync.ErrInvalidStrategy
                               ": strategy not implemented"))
            (Some (Call (RemoveDynamicCacheLabel (secretsync.srcSecretRef secretSync)) b))
            ('(secretSync0, err) ← controllers.FreeCacheAndRemoveFinalizer secretSync;
             match err with
             | Some err0 =>
                 Ret (secretsync.fail secretSync0
                        (fmt_Errorf "free cache and remove finalizer: " err0 ""))
             | None => Ret (secretsync.succeed secretSync0)
             end)) as Hrest.
  { eapply post_bind; [apply FreeCacheAndRemoveFinalizer_post |].
    intros l1 [ss1 [err1|]] Hf; cbn beta iota.
    2:{ apply post_Ret. intros err [=]. }
    apply post_Ret. intros err [= <-]. left.
    destruct (Hf err1 eq_refl) as [Hfree | Hpatch].
    - apply (blamesFree_blames context.deletionReconciler "free cache: "
               ["free cache and remove finalizer: "]); [|exact Hfree].
      apply isFree_cases. reflexivity.
    - apply (blamesPatch_blames context.deletionReconciler "removing finalizer: "
               ["free cache and remove finalizer: "]); [|exact Hpatch].
      apply patchData_cases. reflexivity. }
  destruct b as [cause|]; [|exact Hrest].
  unfold IgnoreNotFound. destruct (IsNotFound cause); [exact Hrest |].
  apply post_Ret. intros err [= <-]. left. eexists _, cause.
  split; [reflexivity |]. split; [reflexivity |].
  split; [discriminate | reflexivity].
Qed.

Lemma pauseReconciler_post (now : metav1.Time) (secretSync : v1alpha1.SecretSync) :
  post (λ l' r, l' = None ∧ r.2 = None)
       None (secretsync.pauseReconciler_Reconcile K now secretSync).
Proof.
  unfold secretsync.pauseReconciler_Reconcile.
  destruct (negb _).
  { apply post_Ret. split; reflexivity. }
  destruct (meta.SetStatusCondition _ _ _) as [conditions condChanged].
  apply post_Ret. split; reflexivity.
Qed.
End reconciler_errors.

(** [GetControllerOf] is no reconcile operation: it hands the error of the
    scheme lookup to its caller as it is. *)
Lemma GetControllerOf_error_passes_through {O T : Type} `{Object T}
    (IsController : O → T → bool)
    (GVKForObject : T → controllers.GroupVersionKind + error)
    (owner : O) (actualObjects : list T) (err : error) :
  controllers.GetControllerOf IsController GVKForObject owner actualObjects = inr err →
  ∃ actualObj, actualObj ∈ actualObjects
               ∧ IsController owner actualObj = true
               ∧ GVKForObject actualObj = inr err.
Proof.
  unfold controllers.GetControllerOf. generalize (@nil controllers.ControlledObjectReference).
  induction actualObjects as [|actualObj rest IH]; intros acc; simpl; [discriminate |].
  destruct (IsController owner actualObj) eqn:Hc; simpl.
  - destruct (GVKForObject actualObj) as [gvk | e] eqn:Hg.
    + intros Hrest. destruct (IH _ Hrest) as (o & Hin & Ho). exists o.
      split; [right; exact Hin | exact Ho].
    + intros [= <-]. exists actualObj. split; [left | auto].
  - intros Hrest. destruct (IH _ Hrest) as (o & Hin & Ho). exists o.
    split; [right; exact Hin | exact Ho].
Qed.

(* ===================================================================== *)
(** ** C7 *)
(* ===================================================================== *)

(** C7.  Whatever the collaborators answer, an error returned by a
    reconcile operation is the error of the last call that operation made,
    wrapped in the text(s) the operation has for that call ("adding cached
    finalizer: adding finalizer: ...", "free cache: ...", "getting source
    object: ...", ...); so its message is those texts followed by the
    message of the call's error.  This holds of [secretReconciler.Reconcile],
    of [deletionReconciler.Reconcile] (whose one error without a call is
    [ErrInvalidStrategy] wrapped with ": strategy not implemented"), of
    [EnsureFinalizer], [RemoveFinalizer] and [FreeCacheAndRemoveFinalizer];
    [pauseReconciler.Reconcile] returns no error. *)
Theorem reconcile_errors_carry_their_step
    {T : Type} `{Object T} {W : Type} (h : handler op W)
    (K : v1alpha1.Constants) (now : metav1.Time)
    (secretSync : v1alpha1.SecretSync) (obj : T) (finalizer : string) (w : W) :
  (∀ secretSync' res err w',
     run h (secretsync.secretReconciler_Reconcile K now secretSync) w
     = Done (secretSync', res, Some err) w' →
     blames context.secretReconciler
       (last (transcript h (secretsync.secretReconciler_Reconcile K now secretSync) w))
       err)
  ∧ (∀ secretSync' res err w',
       run h (secretsync.deletionReconciler_Reconcile secretSync) w
       = Done (secretSync', res, Some err) w' →
       blames context.deletionReconciler
         (last (transcript h (secretsync.deletionReconciler_Reconcile secretSync) w))
         err
       ∨ (transcript h (secretsync.deletionReconciler_Reconcile secretSync) w = []
          ∧ err = fmt_Errorf "" secretsync.ErrInvalidStrategy
                    ": strategy not implemented"))
  ∧ (∀ secretSync' res err w',
       run h (secretsync.pauseReconciler_Reconcile K now secretSync) w
       = Done (secretSync', res, err) w' →
       err = None)
  ∧ (∀ obj' err w',
       run h (controllers.EnsureFinalizer obj finalizer) w = Done (obj', Some err) w' →
       blames context.EnsureFinalizer
         (last (transcript h (controllers.EnsureFinalizer obj finalizer) w)) err)
  ∧ (∀ obj' err w',
       run h (controllers.RemoveFinalizer obj finalizer) w = Done (obj', Some err) w' →
       blames context.RemoveFinalizer
         (last (transcript h (controllers.RemoveFinalizer obj finalizer) w)) err)
  ∧ (∀ obj' err w',
       run h (controllers.FreeCacheAndRemoveFinalizer obj) w = Done (obj', Some err) w' →
       blames context.FreeCacheAndRemoveFinalizer
         (last (transcript h (controllers.FreeCacheAndRemoveFinalizer obj) w)) err)
  ∧ (∀ ctx l err,
       blames ctx l err →
       ∃ e cause, l = Some e ∧ answeredError e = Some cause
                  ∧ Error err = concatStrings (ctx e) +:+ Error cause
                  ∧ rootCause err = rootCause cause).
Proof.
  assert (∀ tr : list (entry op), last_or None tr = last tr) as Hlast.
  { intros tr. unfold last_or. destruct (last tr); reflexivity. }
  repeat apply conj.
  - intros ss' res err w' Hrun. rewrite <- Hlast.
    apply (post_sound _ _ _ (secretReconciler_post K now secretSync) h w _ w' Hrun).
    reflexivity.
  - intros ss' res err w' Hrun.
    destruct (post_sound _ _ _ (deletionReconciler_post secretSync) h w _ w' Hrun
                err eq_refl) as [Hb | [Hl ->]].
    + left. rewrite <- Hlast. exact Hb.
    + right. split; [|reflexivity].
      rewrite Hlast in Hl. apply last_None. exact Hl.
  - intros ss' res err w' Hrun.
    apply (post_sound _ _ _ (pauseReconciler_post K now secretSync) h w _ w' Hrun).
  - intros obj' err w' Hrun. rewrite <- Hlast.
    apply (blamesPatch_blames context.EnsureFinalizer "adding finalizer: " []).
    + apply patchData_cases. reflexivity.
    + apply (post_sound _ _ _ (EnsureFinalizer_post obj finalizer None) h w _ w' Hrun).
      reflexivity.
  - intros obj' err w' Hrun. rewrite <- Hlast.
    apply (blamesPatch_blames context.RemoveFinalizer "removing finalizer: " []).
    + apply patchData_cases. reflexivity.
    + apply (post_sound _ _ _ (RemoveFinalizer_post obj finalizer None) h w _ w' Hrun).
      reflexivity.
  - intros obj' err w' Hrun. rewrite <- Hlast.
    destruct (post_sound _ _ _ (FreeCacheAndRemoveFinalizer_post obj None) h w _ w' Hrun
                err eq_refl) as [Hfree | Hpatch].
    + apply (blamesFree_blames context.FreeCacheAndRemoveFinalizer "free cache: " []);
        [|exact Hfree].
      apply isFree_cases. reflexivity.
    + apply (blamesPatch_blames context.FreeCacheAndRemoveFinalizer
               "removing finalizer: " []); [|exact Hpatch].
      apply patchData_cases. reflexivity.
  - intros ctx l err (e & cause & -> & Ha & _ & ->).
    exists e, cause. split; [reflexivity |]. split; [exact Ha |].
    split; [apply Error_wrapAll | apply rootCause_wrapAll].
Qed.

(** C7 at a concrete input: a watching SecretSync without the finalizer;
    the patch succeeds, labelling the source secret fails with [boom]. *)
Lemma reconcile_errors_carry_their_step_witness :
  blames context.secretReconciler
    (last (transcript fake.handle
             (secretsync.secretReconciler_Reconcile fake.constants 100
                (fake.secretSync false None [] fake.watch))
             (fake.scripted [None; Some fake.boom])))
    (fmt_Errorf "adding dynamic cache label: " fake.boom "")
  ∧ Error (fmt_Errorf "adding dynamic cache label: " fake.boom "")
    = "adding dynamic cache label: boom".
Proof.
  split; [|reflexivity].
  eapply (proj1 (reconcile_errors_carry_their_step fake.handle fake.constants 100
                   (fake.secretSync false None [] fake.watch)
                   (fake.secretSync false None [] fake.watch)
                   controllers.CachedFinalizer
                   (fake.scripted [None; Some fake.boom]))).
  reflexivity.
Defined.

(* ===================================================================== *)
(** ** Slices: collision (C3) and garbage collection (C2) *)
(* ===================================================================== *)

Section slices.
Import corev1alpha1 client.
Variable hash : list ObjectSetObject → string.
Variable sliceOwnerLabel : string.

(** [Test_sliceCollisionError]. *)
Example sliceCollisionError_test :
  Error (sliceCollisionError {| types.Name := "test"; types.Namespace := "test" |})
  = "ObjectSlice collision with test/test".
Proof. reflexivity. Qed.

Lemma deleteUnreferenced_transcript {W} (h : handler op W)
    (slices : list ObjectSlice) (referenced : gset string) (w : W) :
  deletedSlices (transcript h (packages.deleteUnreferenced slices referenced) w)
  = filter (λ s, metav1.Name (sliceObjectMeta s) ∉ referenced) slices
  ∧ countDeletes (transcript h (packages.deleteUnreferenced slices referenced) w)
    = length (filter (λ s, metav1.Name (sliceObjectMeta s) ∉ referenced) slices)
  ∧ Forall (λ e, isUpdate e = false)
      (transcript h (packages.deleteUnreferenced slices referenced) w)
  ∧ ∃ w', run h (packages.deleteUnreferenced slices referenced) w = Done () w'.
Proof.
  revert w. induction slices as [|slice rest IH]; intros w.
  - simpl. repeat split; [constructor | eauto].
  - cbn [packages.deleteUnreferenced]. rewrite filter_cons.
    destruct (decide (metav1.Name (sliceObjectMeta slice) ∈ referenced)) as [Hin|Hout].
    + rewrite decide_False by tauto. apply IH.
    + rewrite decide_True by exact Hout.
      rewrite transcript_bind, run_bind, transcript_call, run_call.
      destruct (h _ (Delete ObjectSliceKind slice) w) as [r w1]. simpl.
      destruct (IH w1) as (Hd & Hc & Hu & Hr).
      rewrite Hd, Hc. repeat split; [constructor; [reflexivity | exact Hu] | exact Hr].
Qed.
End slices.

Lemma not_referenced (deploy : corev1alpha1.ObjectDeployment)
    (sets : list corev1alpha1.ObjectSet) (name : string) :
  name ∉ packages.referencedSlices deploy sets ↔
  (name ∉ packages.sliceNames (corev1alpha1.Phases deploy))
  ∧ (∀ set, set ∈ sets → name ∉ packages.sliceNames (corev1alpha1.setPhases set)).
Proof.
  unfold packages.referencedSlices.
  rewrite not_elem_of_union, elem_of_list_to_set, elem_of_union_list.
  split.
  - intros [Hd Hs]. split; [exact Hd |].
    intros set Hset Hin. apply Hs.
    exists (list_to_set (packages.sliceNames (corev1alpha1.setPhases set))).
    split; [|apply elem_of_list_to_set; exact Hin].
    apply list_elem_of_fmap. exists set. split; [reflexivity | exact Hset].
  - intros [Hd Hs]. split; [exact Hd |].
    intros (X & HX & Hin). apply list_elem_of_fmap in HX as (set & -> & Hset).
    apply elem_of_list_to_set in Hin. exact (Hs set Hset Hin).
Qed.

(** C2.  Let the two lists of the garbage collection be answered with the
    revisions [sets] (those the deployment's selector selects) and the
    slices [slices] (those carrying the deployment's ownership label).  Then
    the slices deleted are, in order, exactly the listed slices whose name is
    neither in the deployment's own template nor in the phases of one of the
    revisions; nothing but slices is deleted, and one delete that fails does
    not stop the others: the result is nil whatever the deletes answer. *)
Theorem sliceGarbageCollection_deletes_exactly_the_unreferenced
    {W : Type} (h : handler client.op W) (sliceOwnerLabel : string)
    (deploy : corev1alpha1.ObjectDeployment) (w w1 w2 : W)
    (sets : list corev1alpha1.ObjectSet) (slices : list corev1alpha1.ObjectSlice) :
  h _ (client.List corev1alpha1.ObjectSetKind
         [client.MatchingLabels (corev1alpha1.Selector deploy);
          client.InNamespace (metav1.Namespace (corev1alpha1.ObjectMeta deploy))]) w
  = ((sets, None), w1) →
  h _ (client.List corev1alpha1.ObjectSliceKind
         [client.MatchingLabels
            (<[sliceOwnerLabel := metav1.Name (corev1alpha1.ObjectMeta deploy)]> ∅);
          client.InNamespace (metav1.Namespace (corev1alpha1.ObjectMeta deploy))]) w1
  = ((slices, None), w2) →
  let tr := transcript h (packages.sliceGarbageCollection sliceOwnerLabel deploy) w in
  client.deletedSlices tr
  = filter (λ s, metav1.Name (corev1alpha1.sliceObjectMeta s)
                 ∉ packages.referencedSlices deploy sets) slices
  ∧ client.countDeletes tr = length (client.deletedSlices tr)
  ∧ (∀ s, s ∈ client.deletedSlices tr →
          s ∈ slices
          ∧ (metav1.Name (corev1alpha1.sliceObjectMeta s)
             ∉ packages.sliceNames (corev1alpha1.Phases deploy))
          ∧ (∀ set, set ∈ sets →
                    metav1.Name (corev1alpha1.sliceObjectMeta s)
                    ∉ packages.sliceNames (corev1alpha1.setPhases set)))
  ∧ (∀ s, s ∈ slices →
          metav1.Name (corev1alpha1.sliceObjectMeta s)
          ∉ packages.referencedSlices deploy sets →
          s ∈ client.deletedSlices tr)
  ∧ returned (run h (packages.sliceGarbageCollection sliceOwnerLabel deploy) w)
    = Some None.
Proof.
  intros Hsets Hslices tr. subst tr. unfold packages.sliceGarbageCollection.
  rewrite transcript_bind, run_bind, transcript_call, run_call, Hsets.
  cbn [fst snd]. cbn beta iota.
  rewrite transcript_bind, run_bind, transcript_call, run_call, Hslices.
  cbn [fst snd]. cbn beta iota.
  rewrite transcript_bind, run_bind.
  destruct (deleteUnreferenced_transcript h slices
              (packages.referencedSlices deploy sets) w2) as (Hd & Hc & _ & w3 & Hr).
  rewrite Hr. simpl. rewrite app_nil_r, Hd, Hc.
  split; [reflexivity |]. split; [reflexivity |]. split; [|split; [|reflexivity]].
  - intros s Hs. apply list_elem_of_filter in Hs as [Hout Hin].
    apply not_referenced in Hout. tauto.
  - intros s Hin Hout. apply list_elem_of_filter. tauto.
Qed.

(** C2 in the scenario of [TestDeploymentReconciler_sliceGarbageCollection]:
    one delete, of [slice2-xxx]. *)
Lemma sliceGarbageCollection_scenario_witness :
  client.deletedSlices
    (transcript mock.handle
       (packages.sliceGarbageCollection mock.ownerLabel mock.gcDeploy)
       mock.gcExpectations)
  = [mock.objectSlice2]
  ∧ client.countDeletes
      (transcript mock.handle
         (packages.sliceGarbageCollection mock.ownerLabel mock.gcDeploy)
         mock.gcExpectations)
    = 1%nat
  ∧ returned (run mock.handle
                (packages.sliceGarbageCollection mock.ownerLabel mock.gcDeploy)
                mock.gcExpectations)
    = Some None.
Proof.
  destruct (sliceGarbageCollection_deletes_exactly_the_unreferenced
              mock.handle mock.ownerLabel mock.gcDeploy
              mock.gcExpectations mock.gcExpectations mock.gcExpectations
              [mock.objectSet1]
              [mock.objectSlice0; mock.objectSlice1; mock.objectSlice2]
              eq_refl eq_refl) as (Hd & Hc & _ & _ & Hr).
  split; [|split].
  - rewrite Hd. reflexivity.
  - rewrite Hc, Hd. reflexivity.
  - exact Hr.
Defined.

Lemma store_Create_taken (k : corev1alpha1.kind) (o existing : corev1alpha1.obj k)
    (w : store.cluster) :
  store.table k w !! corev1alpha1.keyOf o = Some existing →
  store.handle _ (client.Create k o) w = ((o, Some store.alreadyExists), w).
Proof. intros Hl. unfold store.handle. rewrite Hl. reflexivity. Qed.

Lemma store_Get_found (k : corev1alpha1.kind) (key : types.NamespacedName)
    (into existing : corev1alpha1.obj k) (w : store.cluster) :
  store.table k w !! key = Some existing →
  store.handle _ (client.Get k key into) w = ((existing, None), w).
Proof. intros Hl. unfold store.handle. rewrite Hl. reflexivity. Qed.

(** C3.  In a store that holds, under the name computed for the pending
    slice, a slice with other content, the attempt to create the pending
    slice returns [sliceCollisionError] for that key and leaves the store as
    it was: it has made one [Create], refused by the store, and one [Get].
    The error reads "ObjectSlice collision with <namespace>/<name>". *)
Theorem createSlice_collision_is_surfaced_and_store_kept
    (hash : list corev1alpha1.ObjectSetObject → string) (sliceOwnerLabel : string)
    (w : store.cluster) (deploy : corev1alpha1.ObjectDeployment)
    (slice existing : corev1alpha1.ObjectSlice) :
  let pending := packages.sliceFor hash sliceOwnerLabel deploy slice in
  let key := corev1alpha1.keyOf (k := corev1alpha1.ObjectSliceKind) pending in
(store.slices w) !! key = Some existing →
  corev1alpha1.sliceObjects existing ≠ corev1alpha1.sliceObjects slice →
  run store.handle (packages.createSlice hash sliceOwnerLabel deploy slice) w
  = Done (pending, Some (sliceCollisionError key)) w
  ∧ (store.slices
       (final (run store.handle
                 (packages.createSlice hash sliceOwnerLabel deploy slice) w)))
    !! key = Some existing
  ∧ transcript store.handle
      (packages.createSlice hash sliceOwnerLabel deploy slice) w
    = [Call (client.Create corev1alpha1.ObjectSliceKind pending)
            (pending, Some store.alreadyExists);
       Call (client.Get corev1alpha1.ObjectSliceKind key
               (corev1alpha1.new corev1alpha1.ObjectSliceKind))
            (existing, None)]
  ∧ Error (sliceCollisionError key)
    = "ObjectSlice collision with "
      +:+ types.Namespace key +:+ "/" +:+ types.Name key.
Proof.
  intros pending key Hstored Hdiffers.
  assert (run store.handle
            (packages.createSlice hash sliceOwnerLabel deploy slice) w
          = Done (pending, Some (sliceCollisionError key)) w
          ∧ transcript store.handle
              (packages.createSlice hash sliceOwnerLabel deploy slice) w
            = [Call (client.Create corev1alpha1.ObjectSliceKind pending)
                    (pending, Some store.alreadyExists);
               Call (client.Get corev1alpha1.ObjectSliceKind key
                       (corev1alpha1.new corev1alpha1.ObjectSliceKind))
                    (existing, None)]) as [Hrun Htr].
  { assert (store.table corev1alpha1.ObjectSliceKind w !! key = Some existing)
      as Htable by exact Hstored.
    unfold packages.createSlice. fold pending. fold key.
    rewrite transcript_bind, run_bind, transcript_call, run_call.
    rewrite (store_Create_taken corev1alpha1.ObjectSliceKind pending existing w Htable).
    cbn [fst snd]. cbn beta iota.
    change (IsAlreadyExists store.alreadyExists) with true. cbn [negb].
    rewrite transcript_bind, run_bind, transcript_call, run_call.
    rewrite (store_Get_found corev1alpha1.ObjectSliceKind key
               (corev1alpha1.new corev1alpha1.ObjectSliceKind) existing w Htable).
    cbn [fst snd]. cbn beta iota.
    rewrite decide_False by exact Hdiffers.
    split; reflexivity. }
  rewrite Hrun, Htr. cbn [final].
  split; [reflexivity |]. split; [exact Hstored |]. split; reflexivity.
Qed.

(** C3 at a concrete store: slice [test-depl-754bcb585] holds ["first"],
    the pending slice of the same name holds ["second"]. *)
Lemma createSlice_collision_witness :
  run store.handle
    (packages.createSlice mock.observedHash mock.ownerLabel mock.deploy
       store.pendingSlice) store.oneSlice
  = Done (packages.sliceFor mock.observedHash mock.ownerLabel mock.deploy
            store.pendingSlice,
          Some (sliceCollisionError
                  {| types.Namespace := ""; types.Name := "test-depl-754bcb585" |}))
         store.oneSlice
  ∧ (store.slices store.oneSlice)
      !! {| types.Namespace := ""; types.Name := "test-depl-754bcb585" |}
    = Some store.storedSlice
  ∧ Error (sliceCollisionError
             {| types.Namespace := ""; types.Name := "test-depl-754bcb585" |})
    = "ObjectSlice collision with /test-depl-754bcb585".
Proof.
  destruct (createSlice_collision_is_surfaced_and_store_kept
              mock.observedHash mock.ownerLabel store.oneSlice mock.deploy
              store.pendingSlice store.storedSlice)
    as (Hrun & Hkept & _ & Herr).
  - reflexivity.
  - discriminate.
  - split; [exact Hrun |]. split; [reflexivity | exact Herr].
Defined.

(* ===================================================================== *)
(** ** Writes of the deployment (C5) and the first reconcile (C1) *)
(* ===================================================================== *)

Section calls.
Context {E : Type → Type}.

Lemma calls_satisfy_bind {A B} (P : entry E → Prop) (m : prog E A) (f : A → prog E B) :
  calls_satisfy P m → (∀ a, calls_satisfy P (f a)) → calls_satisfy P (m ≫= f).
Proof.
  intros Hm Hf. unfold mbind, prog_bind.
  induction Hm as [a | v | X c k Hc _ IH]; simpl.
  - apply Hf.
  - apply calls_Panic.
  - apply calls_Vis; [exact Hc | exact IH].
Qed.

Lemma calls_satisfy_call {X} (P : entry E → Prop) (c : E X) :
  (∀ x, P (Call c x)) → calls_satisfy P (call c).
Proof. intros Hc. apply calls_Vis; [exact Hc |]. intros x. apply calls_Ret. Qed.

Lemma calls_satisfy_transcript {A W} (P : entry E → Prop) (m : prog E A)
    (h : handler E W) (w : W) :
  calls_satisfy P m → Forall P (transcript h m w).
Proof.
  intros Hm. revert w. induction Hm as [a | v | X c k Hc _ IH]; intros w; simpl.
  - constructor.
  - constructor.
  - destruct (h _ c w) as [x w1]. constructor; [apply Hc | apply IH].
Qed.
End calls.

Section writes.
Import corev1alpha1 client retrying.
Variable hash : list ObjectSetObject → string.
Variable sliceOwnerLabel : string.

Local Abbreviation quiet := (calls_satisfy (λ e : entry op, isUpdate e = false)).

Lemma createSlice_quiet (deploy : ObjectDeployment) (slice : ObjectSlice) :
  quiet (packages.createSlice hash sliceOwnerLabel deploy slice).
Proof.
  unfold packages.createSlice.
  apply calls_satisfy_bind; [apply calls_satisfy_call; reflexivity |].
  intros [created [err|]]; [|apply calls_Ret].
  destruct (negb (IsAlreadyExists err)); [apply calls_Ret |].
  apply calls_satisfy_bind; [apply calls_satisfy_call; reflexivity |].
  intros [conflicting [err'|]]; [apply calls_Ret |].
  case_decide; apply calls_Ret.
Qed.

Lemma createSlices_quiet (deploy : ObjectDeployment)
    (chunks : list (list ObjectSetObject)) (names : list string) :
  quiet (packages.createSlices hash sliceOwnerLabel deploy chunks names).
Proof.
  revert names. induction chunks as [|objects rest IH]; intros names.
  - apply calls_Ret.
  - cbn [packages.createSlices].
    apply calls_satisfy_bind; [apply createSlice_quiet |].
    intros [slice [err|]]; [apply calls_Ret | apply IH].
Qed.

Lemma chunkPhases_quiet (deploy : ObjectDeployment) (chunker : packages.objectChunker)
    (phases done : list ObjectSetTemplatePhase) :
  quiet (packages.chunkPhases hash sliceOwnerLabel deploy chunker phases done).
Proof.
  revert done. induction phases as [|phase rest IH]; intros done.
  - apply calls_Ret.
  - cbn [packages.chunkPhases].
    apply calls_satisfy_bind.
    + unfold packages.chunkPhase. destruct (chunker phase) as [|chunk chunks].
      * apply calls_Ret.
      * apply calls_satisfy_bind; [apply createSlices_quiet |].
        intros [err | names]; apply calls_Ret.
    + intros [err | phase']; [apply calls_Ret | apply IH].
Qed.

Lemma deleteUnreferenced_quiet (slices : list ObjectSlice) (referenced : gset string) :
  quiet (packages.deleteUnreferenced slices referenced).
Proof.
  induction slices as [|slice rest IH]; [apply calls_Ret |].
  cbn [packages.deleteUnreferenced]. case_decide; [exact IH |].
  apply calls_satisfy_bind; [apply calls_satisfy_call; reflexivity |].
  intros _. exact IH.
Qed.

Lemma sliceGarbageCollection_quiet (deploy : ObjectDeployment) :
  quiet (packages.sliceGarbageCollection sliceOwnerLabel deploy).
Proof.
  unfold packages.sliceGarbageCollection.
  apply calls_satisfy_bind; [apply calls_satisfy_call; reflexivity |].
  intros [sets [err|]]; [apply calls_Ret |].
  apply calls_satisfy_bind; [apply calls_satisfy_call; reflexivity |].
  intros [slices [err|]]; [apply calls_Ret |].
  apply calls_satisfy_bind; [apply deleteUnreferenced_quiet |].
  intros _. apply calls_Ret.
Qed.

(** One turn of the retry loop, whatever the number of retries left. *)
Lemma updateDeployment_unfold (n : nat) (actualDeploy : ObjectDeployment)
    (phases : list ObjectSetTemplatePhase) :
  packages.updateDeployment n actualDeploy phases =
  '(actualDeploy, err) ←
    call (Update ObjectDeploymentKind (withPhases phases actualDeploy));
  match err with
  | None => Ret (inr actualDeploy)
  | Some err =>
      if negb (IsConflict err) then
        Ret (inl (fmt_Errorf "updating ObjectDeployment: " err ""))
      else
        match n with
        | O => Ret (inl (fmt_Errorf "updating ObjectDeployment: " err ""))
        | S n =>
            '(latest, err) ←
              call (Get ObjectDeploymentKind
                      (keyOf (k := ObjectDeploymentKind) actualDeploy) actualDeploy);
            match err with
            | Some err => Ret (inl (fmt_Errorf "getting ObjectDeployment: " err ""))
            | None => packages.updateDeployment n latest phases
            end
        end
  end.
Proof. destruct n; reflexivity. Qed.

Lemma updateDeployment_optimistic {W} (h : handler op W) (n : nat)
    (actualDeploy : ObjectDeployment) (phases : list ObjectSetTemplatePhase) (w : W) :
  ∃ r w',
    run h (packages.updateDeployment n actualDeploy phases) w = Done r w'
    ∧ optimistic phases n actualDeploy
        (transcript h (packages.updateDeployment n actualDeploy phases) w) r.
Proof.
  revert actualDeploy w. induction n as [|n IH]; intros actualDeploy w;
    rewrite updateDeployment_unfold;
    rewrite transcript_bind, run_bind, transcript_call, run_call;
    destruct (h _ (Update ObjectDeploymentKind (withPhases phases actualDeploy)) w)
      as [[updated [err|]] w1]; cbn [fst snd]; cbn beta iota.
  - destruct (IsConflict err) eqn:Hc; cbn [negb]; simpl;
      eexists _, _; (split; [reflexivity |]).
    + apply exhausted. exact Hc.
    + apply refused. exact Hc.
  - simpl. eexists _, _. split; [reflexivity | apply written].
  - destruct (IsConflict err) eqn:Hc; cbn [negb].
    2:{ simpl. eexists _, _. split; [reflexivity | apply refused; exact Hc]. }
    rewrite transcript_bind, run_bind, transcript_call, run_call.
    destruct (h _ (Get ObjectDeploymentKind
                     (keyOf (k := ObjectDeploymentKind) updated) updated) w1)
      as [[latest [readErr|]] w2]; cbn [fst snd]; cbn beta iota.
    + simpl. eexists _, _. split; [reflexivity |].
      apply reread_failed. exact Hc.
    + destruct (IH latest w2) as (r & w' & Hrun & Hopt).
      exists r, w'. split; [exact Hrun |]. simpl.
      apply retried; [exact Hc | exact Hopt].
  - simpl. eexists _, _. split; [reflexivity | apply written].
Qed.

Lemma optimistic_bounded (phases : list ObjectSetTemplatePhase) (n : nat)
    (actual : ObjectDeployment) (tr : list (entry op)) (r : error + ObjectDeployment) :
  optimistic phases n actual tr r →
  (1 ≤ countUpdates tr ≤ S n)%nat
  ∧ (∀ err, r = inl err → ∃ e cause, last tr = Some e ∧ answered e = Some cause
                                     ∧ rootCause err = rootCause cause).
Proof.
  induction 1 as [n actual updated | n actual updated err Hc | actual updated err Hc
                  | n actual updated err latest readErr Hc
                  | n actual updated err latest rest r Hc Hrest [IHc IHe]]; simpl.
  - split; [lia |]. intros err [=].
  - split; [lia |]. intros e [= <-]. eexists _, err. repeat split; reflexivity.
  - split; [lia |]. intros e [= <-]. eexists _, err. repeat split; reflexivity.
  - split; [lia |]. intros e [= <-]. eexists _, readErr. repeat split; reflexivity.
  - split; [lia |]. intros e Hr. destruct (IHe e Hr) as (e' & cause & Hl & Ha & Hroot).
    exists e', cause. split; [|split; [exact Ha | exact Hroot]].
    rewrite !last_cons, Hl. reflexivity.
Qed.
End writes.

Section reconcile.
Import corev1alpha1 client retrying.
Variable hash : list ObjectSetObject → string.
Variable sliceOwnerLabel : string.
Variable retries : nat.

Lemma writesUnderRetry_quiet (tr : list (entry op)) :
  Forall (λ e, isUpdate e = false) tr → writesUnderRetry retries tr.
Proof.
  intros Hq. exists tr, [], []. rewrite !app_nil_r.
  split; [reflexivity |]. split; [exact Hq |]. split; [constructor | left; reflexivity].
Qed.

Lemma writesUnderRetry_prefix (l tr : list (entry op)) :
  Forall (λ e, isUpdate e = false) l →
  writesUnderRetry retries tr → writesUnderRetry retries (l ++ tr).
Proof.
  intros Hl (pre & mid & post & -> & Hpre & Hpost & Hmid).
  exists (l ++ pre), mid, post. rewrite <- app_assoc.
  split; [reflexivity |]. split; [apply Forall_app; auto | auto].
Qed.

Lemma Reconcile_writesUnderRetry {W} (h : handler op W)
    (desiredDeploy : ObjectDeployment) (chunker : packages.objectChunker) (w : W) :
  writesUnderRetry retries
    (transcript h
       (packages.Reconcile hash sliceOwnerLabel retries desiredDeploy chunker) w).
Proof.
  unfold packages.Reconcile.
  rewrite transcript_bind, transcript_call, run_call.
  apply writesUnderRetry_prefix; [repeat constructor |].
  destruct (h _ _ w) as [[actual0 err0] w0]; cbn [fst snd]; cbn beta iota.
  rewrite transcript_bind. apply writesUnderRetry_prefix.
  { apply calls_satisfy_transcript. destruct err0 as [err0|]; [|apply calls_Ret].
    destruct (IsNotFound err0); [|apply calls_Ret].
    apply calls_satisfy_bind; [apply calls_satisfy_call; reflexivity |].
    intros [created [err|]]; apply calls_Ret. }
  destruct (run h _ w0) as [[err | actualDeploy] w1 | v w1];
    try (apply writesUnderRetry_quiet; constructor).
  rewrite transcript_bind. apply writesUnderRetry_prefix.
  { apply calls_satisfy_transcript. apply chunkPhases_quiet. }
  destruct (run h _ w1) as [[err | phases] w2 | v w2];
    try (apply writesUnderRetry_quiet; constructor).
  rewrite transcript_bind.
  case_decide.
  - cbn [transcript run app]. apply writesUnderRetry_quiet.
    apply calls_satisfy_transcript. apply sliceGarbageCollection_quiet.
  - destruct (updateDeployment_optimistic h retries actualDeploy phases w2)
      as (r & w3 & Hrun & Hopt).
    rewrite Hrun.
    exists [], (transcript h (packages.updateDeployment retries actualDeploy phases) w2),
      (match r with
       | inl _ => []
       | inr updated =>
           transcript h (packages.sliceGarbageCollection sliceOwnerLabel updated) w3
       end).
    split; [destruct r; reflexivity |]. split; [constructor |].
    split; [|right; eauto].
    destruct r as [err | updated]; [constructor |].
    apply calls_satisfy_transcript. apply sliceGarbageCollection_quiet.
Qed.
End reconcile.

(** The run of [Test_DeploymentReconciler_Reconcile], for every hash, label
    key and retry bound of at least one. *)
Lemma Reconcile_scenario (hash : list corev1alpha1.ObjectSetObject → string)
    (sliceOwnerLabel : string) (n : nat) :
  let name := packages.NameFor hash "test-depl" [mock.theObject] in
  let slice :=
    {| corev1alpha1.sliceObjectMeta :=
         metav1.ObjectMeta_of "" name (<[sliceOwnerLabel := "test-depl"]> ∅);
       corev1alpha1.sliceObjects := [mock.theObject] |} in
  let empty := corev1alpha1.withPhases [] mock.deploy in
  let sliced :=
    corev1alpha1.withPhases
      [{| corev1alpha1.Name := "test"; corev1alpha1.Objects := [];
          corev1alpha1.Slices := [name] |}] mock.deploy in
  let key := {| types.Namespace := ""; types.Name := "test-depl" |} in
  transcript mock.handle
    (packages.Reconcile hash sliceOwnerLabel (S n) mock.deploy
       packages.EachObjectChunker) mock.reconcileExpectations
  = [Call (client.Get corev1alpha1.ObjectDeploymentKind key
             (corev1alpha1.new corev1alpha1.ObjectDeploymentKind))
          (corev1alpha1.new corev1alpha1.ObjectDeploymentKind, Some mock.notFound);
     Call (client.Create corev1alpha1.ObjectDeploymentKind empty) (empty, None);
     Call (client.Create corev1alpha1.ObjectSliceKind slice) (slice, None);
     Call (client.Update corev1alpha1.ObjectDeploymentKind sliced)
          (sliced, Some mock.conflict);
     Call (client.Get corev1alpha1.ObjectDeploymentKind key sliced) (sliced, None);
     Call (client.Update corev1alpha1.ObjectDeploymentKind sliced) (sliced, None);
     Call (client.List corev1alpha1.ObjectSetKind
             [client.MatchingLabels ∅; client.InNamespace ""])
          ([], None);
     Call (client.List corev1alpha1.ObjectSliceKind
             [client.MatchingLabels (<[sliceOwnerLabel := "test-depl"]> ∅);
              client.InNamespace ""])
          ([], None)]
  ∧ returned (run mock.handle
                (packages.Reconcile hash sliceOwnerLabel (S n) mock.deploy
                   packages.EachObjectChunker) mock.reconcileExpectations)
    = Some None.
Proof.
  intros name slice empty sliced key.
  unfold packages.Reconcile.
  rewrite !transcript_bind, !run_bind. simpl.
  rewrite (updateDeployment_unfold n). simpl.
  split; reflexivity.
Qed.

(** C5.  In every run of [Reconcile] the updates sent all belong to one
    write of the deployment under optimistic concurrency: an update
    answered with a conflict is followed by a read of the object and, the
    read succeeding, by the same write to what was read; after [retries]
    re-reads the conflict is returned.  Such a write sends between one and
    [retries + 1] updates, and what it returns as an error has the error of
    its last call as root cause.  In the test's run (the first update
    conflicts, the read and the second update succeed) [Reconcile] returns
    nil as soon as one retry is allowed, and the wrapped conflict when none
    is. *)
Theorem deployment_writes_retry_on_conflict
    {W : Type} (h : handler client.op W)
    (hash : list corev1alpha1.ObjectSetObject → string) (sliceOwnerLabel : string)
    (retries : nat) (desiredDeploy : corev1alpha1.ObjectDeployment)
    (chunker : packages.objectChunker) (w : W) :
  retrying.writesUnderRetry retries
    (transcript h
       (packages.Reconcile hash sliceOwnerLabel retries desiredDeploy chunker) w)
  ∧ (∀ phases actual tr r,
       retrying.optimistic phases retries actual tr r →
       (1 ≤ retrying.countUpdates tr ≤ S retries)%nat
       ∧ ∀ err, r = inl err →
                ∃ e cause, last tr = Some e ∧ client.answered e = Some cause
                           ∧ rootCause err = rootCause cause)
  ∧ (retries ≠ 0%nat →
     returned (run mock.handle
                 (packages.Reconcile hash sliceOwnerLabel retries mock.deploy
                    packages.EachObjectChunker) mock.reconcileExpectations)
     = Some None)
  ∧ (retries = 0%nat →
     returned (run mock.handle
                 (packages.Reconcile hash sliceOwnerLabel retries mock.deploy
                    packages.EachObjectChunker) mock.reconcileExpectations)
     = Some (Some (fmt_Errorf "updating ObjectDeployment: " mock.conflict ""))).
Proof.
  split; [apply Reconcile_writesUnderRetry |].
  split; [intros phases actual tr r; apply optimistic_bounded |].
  split.
  - intros Hretries. destruct retries as [|n]; [congruence |].
    apply (Reconcile_scenario hash sliceOwnerLabel n).
  - intros ->. reflexivity.
Qed.

(** C5 in the test's run, with four retries. *)
Lemma deployment_writes_retry_on_conflict_witness :
  returned (run mock.handle
              (packages.Reconcile mock.observedHash mock.ownerLabel mock.fourRetries
                 mock.deploy packages.EachObjectChunker) mock.reconcileExpectations)
  = Some None.
Proof.
  apply (deployment_writes_retry_on_conflict mock.handle mock.observedHash
           mock.ownerLabel mock.fourRetries mock.deploy packages.EachObjectChunker
           mock.reconcileExpectations).
  discriminate.
Defined.

(** C1, as the test has it.  For the deployment [test-depl] with the one
    phase [test] holding one object, the first [Get] answering NotFound,
    [Reconcile] creates the ObjectDeployment object itself with no phases,
    then creates a slice that holds exactly the one object and is named
    [test-depl-<hash of the content>], then updates the ObjectDeployment (a
    second time after the conflict) so that its phases are [{Name: test,
    Slices: [that name]}], and returns nil.  No ObjectSet, the revision
    object, is written.  With the hash the test observes the name is
    [test-depl-754bcb585]. *)
Theorem Reconcile_creates_empty_deployment_slice_then_updates
    (hash : list corev1alpha1.ObjectSetObject → string)
    (sliceOwnerLabel : string) (n : nat) :
  let name := packages.NameFor hash "test-depl" [mock.theObject] in
  let slice :=
    {| corev1alpha1.sliceObjectMeta :=
         metav1.ObjectMeta_of "" name (<[sliceOwnerLabel := "test-depl"]> ∅);
       corev1alpha1.sliceObjects := [mock.theObject] |} in
  let empty := corev1alpha1.withPhases [] mock.deploy in
  let sliced :=
    corev1alpha1.withPhases
      [{| corev1alpha1.Name := "test"; corev1alpha1.Objects := [];
          corev1alpha1.Slices := [name] |}] mock.deploy in
  let key := {| types.Namespace := ""; types.Name := "test-depl" |} in
  let tr :=
    transcript mock.handle
      (packages.Reconcile hash sliceOwnerLabel (S n) mock.deploy
         packages.EachObjectChunker) mock.reconcileExpectations in
  tr = [Call (client.Get corev1alpha1.ObjectDeploymentKind key
                (corev1alpha1.new corev1alpha1.ObjectDeploymentKind))
             (corev1alpha1.new corev1alpha1.ObjectDeploymentKind, Some mock.notFound);
        Call (client.Create corev1alpha1.ObjectDeploymentKind empty) (empty, None);
        Call (client.Create corev1alpha1.ObjectSliceKind slice) (slice, None);
        Call (client.Update corev1alpha1.ObjectDeploymentKind sliced)
             (sliced, Some mock.conflict);
        Call (client.Get corev1alpha1.ObjectDeploymentKind key sliced) (sliced, None);
        Call (client.Update corev1alpha1.ObjectDeploymentKind sliced) (sliced, None);
        Call (client.List corev1alpha1.ObjectSetKind
                [client.MatchingLabels ∅; client.InNamespace ""])
             ([], None);
        Call (client.List corev1alpha1.ObjectSliceKind
                [client.MatchingLabels (<[sliceOwnerLabel := "test-depl"]> ∅);
                 client.InNamespace ""])
             ([], None)]
  ∧ returned (run mock.handle
                (packages.Reconcile hash sliceOwnerLabel (S n) mock.deploy
                   packages.EachObjectChunker) mock.reconcileExpectations)
    = Some None
  ∧ corev1alpha1.Phases empty = []
  ∧ Forall (λ e, client.writes e ≠ Some corev1alpha1.ObjectSetKind) tr
  ∧ (hash [mock.theObject] = "754bcb585" → name = "test-depl-754bcb585").
Proof.
  intros name slice empty sliced key tr.
  destruct (Reconcile_scenario hash sliceOwnerLabel n) as [Htr Hrun].
  split; [exact Htr |]. split; [exact Hrun |]. split; [reflexivity |].
  split.
  - unfold tr. rewrite Htr. repeat constructor; discriminate.
  - intros Hhash. unfold name, packages.NameFor. rewrite Hhash. reflexivity.
Qed.

(** C1 with the hash the test observes. *)
Lemma Reconcile_creates_empty_deployment_slice_then_updates_witness :
  packages.NameFor mock.observedHash "test-depl" [mock.theObject]
  = "test-depl-754bcb585".
Proof.
  apply (Reconcile_creates_empty_deployment_slice_then_updates
           mock.observedHash mock.ownerLabel 3).
  reflexivity.
Defined.

(** The claim as worded has a Revision created and then updated: in the
    test's run no call creates, updates or deletes an ObjectSet. *)
Lemma Reconcile_writes_no_revision :
  ¬ ∃ e, e ∈ transcript mock.handle
               (packages.Reconcile mock.observedHash mock.ownerLabel mock.fourRetries
                  mock.deploy packages.EachObjectChunker) mock.reconcileExpectations
         ∧ client.writes e = Some corev1alpha1.ObjectSetKind.
Proof.
  intros (e & Hin & Hw). unfold mock.fourRetries in Hin.
  rewrite (proj1 (Reconcile_scenario mock.observedHash mock.ownerLabel 3)) in Hin.
  repeat (apply elem_of_cons in Hin as [-> | Hin]; [discriminate |]).
  inversion Hin.
Qed.

(** The attempt modelled above against the mock of
    [TestDeploymentReconciler_reconcileSlice_hashCollision] ([Create]
    answers AlreadyExists once, [Get] stores a slice with the same objects):
    it returns nil after one [Create] and one [Get].  The test, which calls
    [reconcileSlice], asserts two [Create] calls: one attempt alone does not
    make them. *)
Example createSlice_same_content :
  let w := {| mock.onGetDeployment := []; mock.onUpdateDeployment := [];
              mock.onCreateSlice := [Some mock.alreadyExists];
              mock.getSliceStores :=
                Some {| corev1alpha1.sliceObjectMeta := metav1.ObjectMeta_of "" "" ∅;
                        corev1alpha1.sliceObjects := [mock.theObject] |};
              mock.listStoresSets := []; mock.listStoresSlices := [] |} in
  let slice := {| corev1alpha1.sliceObjectMeta := metav1.ObjectMeta_of "" "" ∅;
                  corev1alpha1.sliceObjects := [mock.theObject] |} in
  returned (run mock.handle
              (packages.createSlice mock.observedHash mock.ownerLabel
                 mock.gcDeploy slice) w)
  = Some (packages.sliceFor mock.observedHash mock.ownerLabel mock.gcDeploy slice, None)
  ∧ length (transcript mock.handle
              (packages.createSlice mock.observedHash mock.ownerLabel
                 mock.gcDeploy slice) w)
    = 2%nat.
Proof. split; reflexivity. Qed.

(* ===================================================================== *)
(** ** Calls in their order *)
(* ===================================================================== *)

Section allows_rules.
Context {E : Type → Type}.

Lemma allows_bind {A B} (ok : list (entry E) → entry E → Prop)
    (Q' : list (entry E) → A → Prop) (Q : list (entry E) → B → Prop)
    (hist : list (entry E)) (m : prog E A) (f : A → prog E B) :
  allows ok Q' hist m →
  (∀ hist' a, Q' hist' a → allows ok Q hist' (f a)) →
  allows ok Q hist (m ≫= f).
Proof.
  intros Hm Hf. unfold mbind, prog_bind. revert hist Hm.
  induction m as [a | v | X c k IH]; intros hist Hm; simpl in *.
  - apply Hf. exact Hm.
  - exact I.
  - intros x. destruct (Hm x) as [Hok Hk]. split; [exact Hok |].
    apply IH. exact Hk.
Qed.

Lemma allows_call {X} (ok : list (entry E) → entry E → Prop)
    (hist : list (entry E)) (c : E X) :
  (∀ x, ok hist (Call c x)) →
  allows ok (λ hist' x, hist' = hist ++ [Call c x]) hist (call c).
Proof. intros Hok x. split; [apply Hok | reflexivity]. Qed.

Lemma allows_mono {A} (ok : list (entry E) → entry E → Prop)
    (Q Q' : list (entry E) → A → Prop) (hist : list (entry E)) (m : prog E A) :
  (∀ hist' a, Q hist' a → Q' hist' a) → allows ok Q hist m → allows ok Q' hist m.
Proof.
  intros HQ. revert hist. induction m as [a | v | X c k IH]; intros hist Hm; simpl in *.
  - apply HQ. exact Hm.
  - exact I.
  - intros x. destruct (Hm x) as [Hok Hk]. split; [exact Hok | apply IH; exact Hk].
Qed.

(** What [allows] promises, of every run against every handler. *)
Lemma allows_sound {A W} (ok : list (entry E) → entry E → Prop)
    (Q : list (entry E) → A → Prop) (hist : list (entry E)) (m : prog E A)
    (h : handler E W) (w : W) :
  allows ok Q hist m →
  (∀ pre e post, transcript h m w = pre ++ e :: post → ok (hist ++ pre) e)
  ∧ (∀ a w', run h m w = Done a w' → Q (hist ++ transcript h m w) a).
Proof.
  revert hist w. induction m as [a | v | X c k IH]; intros hist w Hm; simpl in *.
  - split.
    + intros pre e post Heq. destruct pre; discriminate.
    + intros a' w' [= <- <-]. rewrite app_nil_r. exact Hm.
  - split.
    + intros pre e post Heq. destruct pre; discriminate.
    + intros a' w' [=].
  - destruct (h _ c w) as [x w1]. destruct (Hm x) as [Hok Hk].
    destruct (IH x (hist ++ [Call c x]) w1 Hk) as [IHok IHQ]. split.
    + intros pre e post Heq. destruct pre as [|e0 pre]; simpl in Heq.
      * injection Heq as <- _. rewrite app_nil_r. exact Hok.
      * injection Heq as <- Heq. specialize (IHok pre e post Heq).
        rewrite <- app_assoc in IHok. exact IHok.
    + intros a w' Hrun. specialize (IHQ a w' Hrun).
      rewrite <- app_assoc in IHQ. exact IHQ.
Qed.
End allows_rules.

(** One call, then case analysis on its answer. *)
Ltac allows_step :=
  eapply allows_bind; [apply allows_call | intros ? ? ->].

(* ===================================================================== *)
(** ** More of [controllers.go]: mapped conditions *)
(* ===================================================================== *)

Section mapped_conditions.
Import metav1.

Lemma filter_ext_elem {A} (P Q : A → Prop) `{∀ x, Decision (P x)}
    `{∀ x, Decision (Q x)} (l : list A) :
  (∀ x, x ∈ l → P x ↔ Q x) → filter P l = filter Q l.
Proof.
  induction l as [|x l IH]; intros Hext; [reflexivity |].
  rewrite !filter_cons.
  assert (filter P l = filter Q l) as ->.
  { apply IH. intros y Hy. apply Hext. right. exact Hy. }
  destruct (Hext x) as [H1 H2]; [left |].
  destruct (decide (P x)), (decide (Q x)); tauto || reflexivity.
Qed.

Lemma RemoveStatusCondition_filter (cs : list Condition) (t : string) :
  meta.RemoveStatusCondition cs t = filter (λ c, Type_ c ≠ t) cs.
Proof.
  induction cs as [|c cs IH]; [reflexivity |].
  simpl. rewrite filter_cons, IH.
  destruct (String.eqb_spec (Type_ c) t) as [Heq | Hne].
  - rewrite decide_False by tauto. reflexivity.
  - rewrite decide_True by exact Hne. reflexivity.
Qed.

Lemma IsMappedCondition_by_type (c d : Condition) :
  Type_ c = Type_ d →
  controllers.IsMappedCondition c = controllers.IsMappedCondition d.
Proof. unfold controllers.IsMappedCondition. intros ->. reflexivity. Qed.

Lemma DeleteMappedConditions_fold (l current : list Condition) :
  foldl (λ current cond,
           if controllers.IsMappedCondition cond
           then meta.RemoveStatusCondition current (Type_ cond)
           else current) current l
  = filter (λ c, Forall (λ d, controllers.IsMappedCondition d = true →
                              Type_ c ≠ Type_ d) l) current.
Proof.
  revert current. induction l as [|d l IH]; intros current.
  - simpl. induction current as [|c cs IHc]; [reflexivity |].
    rewrite filter_cons, decide_True by constructor. f_equal. exact IHc.
  - simpl. rewrite IH. destruct (controllers.IsMappedCondition d) eqn:Hd.
    + rewrite RemoveStatusCondition_filter, list_filter_filter.
      apply list_filter_iff. intros c. rewrite Forall_cons. tauto.
    + apply list_filter_iff. intros c. rewrite Forall_cons.
      split; [intros Hl; split; [congruence | exact Hl] | tauto].
Qed.

(** X1.  [DeleteMappedConditions] removes exactly the conditions whose type
    contains a slash and keeps the others, in their order. *)
Theorem DeleteMappedConditions_keeps_the_unmapped (conditions : list Condition) :
  controllers.DeleteMappedConditions conditions
  = filter (λ c, controllers.IsMappedCondition c = false) conditions.
Proof.
  unfold controllers.DeleteMappedConditions. rewrite DeleteMappedConditions_fold.
  apply filter_ext_elem. intros c Hc. split.
  - intros Hall. destruct (controllers.IsMappedCondition c) eqn:Hm; [|reflexivity].
    rewrite Forall_forall in Hall. exfalso. exact (Hall c Hc Hm eq_refl).
  - intros Hm. apply Forall_forall. intros d _ Hd Heq.
    rewrite (IsMappedCondition_by_type c d Heq) in Hm. congruence.
Qed.

Lemma filter_insert_dropped {A} (P : A → Prop) `{∀ x, Decision (P x)}
    (l : list A) (i : nat) (old new : A) :
  l !! i = Some old → ¬ P old → ¬ P new → filter P (<[i := new]> l) = filter P l.
Proof.
  revert i. induction l as [|x l IH]; intros i Hl Hold Hnew; [discriminate |].
  destruct i as [|i]; simpl in *.
  - injection Hl as ->. rewrite !filter_cons, !decide_False by assumption. reflexivity.
  - rewrite !filter_cons, (IH i Hl Hold Hnew). reflexivity.
Qed.

Lemma SetStatusCondition_keeps_unmapped (now : Time) (cs : list Condition)
    (n : Condition) :
  controllers.IsMappedCondition n = true →
  filter (λ c, controllers.IsMappedCondition c = false)
         (meta.SetStatusCondition now cs n).1
  = filter (λ c, controllers.IsMappedCondition c = false) cs.
Proof.
  intros Hn.
  destruct (SetStatusCondition_cases now cs n) as [[_ ->] | (i & e & _ & Hi & Ht & ->)].
  - rewrite filter_app, filter_cons, decide_False; [apply app_nil_r |].
    change (controllers.IsMappedCondition (meta.stampCondition now n))
      with (controllers.IsMappedCondition n). congruence.
  - apply filter_insert_dropped with e; [exact Hi | |].
    + rewrite (IsMappedCondition_by_type e n Ht). congruence.
    + rewrite (IsMappedCondition_by_type (meta.updateCondition now e n) n Ht).
      congruence.
Qed.

Lemma MapConditions_from_keeps_unmapped (now : nat → Time) (i : nat)
    (srcGeneration destGeneration : Z) (src dest : list Condition) :
  filter (λ c, controllers.IsMappedCondition c = false)
         (controllers.MapConditions_from now i srcGeneration src destGeneration dest)
  = filter (λ c, controllers.IsMappedCondition c = false) dest.
Proof.
  revert i dest. induction src as [|c src IH]; intros i dest; [reflexivity |].
  rewrite MapConditions_from_cons, IH.
  destruct (mapping.is_copied srcGeneration c) eqn:Hc; [|reflexivity].
  apply SetStatusCondition_keeps_unmapped.
  unfold mapping.is_copied in Hc. apply andb_true_iff in Hc as [_ Hm]. exact Hm.
Qed.

(** X2.  [MapConditions] touches mapped conditions only: the conditions of
    the destination whose type has no slash are, after it, the same and in
    the same order; so deleting the mapped conditions after mapping gives
    what deleting them before gives. *)
Theorem MapConditions_leaves_the_unmapped (now : nat → Time)
    (srcGeneration destGeneration : Z) (srcConditions destConditions : list Condition) :
  filter (λ c, controllers.IsMappedCondition c = false)
         (controllers.MapConditions now srcGeneration srcConditions
            destGeneration destConditions)
  = filter (λ c, controllers.IsMappedCondition c = false) destConditions
  ∧ controllers.DeleteMappedConditions
      (controllers.MapConditions now srcGeneration srcConditions
         destGeneration destConditions)
    = controllers.DeleteMappedConditions destConditions.
Proof.
  split.
  - apply MapConditions_from_keeps_unmapped.
  - rewrite !DeleteMappedConditions_keeps_the_unmapped.
    apply MapConditions_from_keeps_unmapped.
Qed.
End mapped_conditions.

(* ===================================================================== *)
(** ** More of [controllers.go]: what the finalizer patches carry,
       [GetControllerOf], mapping twice *)
(* ===================================================================== *)

Lemma removeString_filter (f : list string) (finalizer : string) :
  controllerutil.removeString f finalizer = filter (λ g, g ≠ finalizer) f.
Proof.
  induction f as [|e f IH]; [reflexivity |].
  simpl. rewrite filter_cons, IH.
  destruct (String.eqb_spec e finalizer) as [Heq | Hne].
  - rewrite decide_False by tauto. reflexivity.
  - rewrite decide_True by exact Hne. reflexivity.
Qed.

(** X3.  The merge patch of [EnsureFinalizer] lists the finalizers the
    object had, in their order, followed by the new one; that of
    [RemoveFinalizer] lists the finalizers the object had without the one
    removed, in their order.  Both are sent on the object with that list,
    with no patch option. *)
Theorem finalizer_patches_keep_the_other_finalizers
    {T : Type} `{Object T} {W : Type} (h : handler op W)
    (obj : T) (finalizer : string) (w : W) :
  (controllerutil.ContainsFinalizer obj finalizer = false →
   ∃ answer,
     transcript h (controllers.EnsureFinalizer obj finalizer) w
     = [Call (Client_Patch
                (SetFinalizers (GetFinalizers obj ++ [finalizer]) obj)
                (RawPatch MergePatchType
                   (JObject
                      [("metadata",
                        JObject
                          [("finalizers",
                            json_strings (GetFinalizers obj ++ [finalizer]));
                           ("resourceVersion", JString (GetResourceVersion obj))])]))
                [])
             answer])
  ∧ (controllerutil.ContainsFinalizer obj finalizer = true →
     ∃ answer,
       transcript h (controllers.RemoveFinalizer obj finalizer) w
       = [Call (Client_Patch
                  (SetFinalizers (filter (λ g, g ≠ finalizer) (GetFinalizers obj)) obj)
                  (RawPatch MergePatchType
                     (JObject
                        [("metadata",
                          JObject
                            [("finalizers",
                              json_strings
                                (filter (λ g, g ≠ finalizer) (GetFinalizers obj)));
                             ("resourceVersion", JString (GetResourceVersion obj))])]))
                  [])
               answer]).
Proof.
  split; intros Hc.
  - destruct (EnsureFinalizer_transcript h obj finalizer w Hc) as [Htr _].
    cbv zeta in Htr. revert Htr.
    unfold controllerutil.AddFinalizer.
    unfold controllerutil.ContainsFinalizer in Hc. rewrite Hc.
    rewrite GetFinalizers_SetFinalizers. intros ->. eexists. reflexivity.
  - destruct (RemoveFinalizer_transcript h obj finalizer w Hc) as [Htr _].
    cbv zeta in Htr. revert Htr.
    unfold controllerutil.RemoveFinalizer.
    rewrite GetFinalizers_SetFinalizers, removeString_filter.
    intros ->. eexists. reflexivity.
Qed.

(** X3 at concrete inputs: a SecretSync with the finalizers [a], to which
    the cached finalizer is added; one with [a; cached; b], from which it is
    removed. *)
Lemma finalizer_patches_keep_the_other_finalizers_witness :
  (∃ answer,
     transcript fake.handle
       (controllers.EnsureFinalizer (fake.secretSync false None ["a"] fake.watch)
          controllers.CachedFinalizer) (fake.scripted [])
     = [Call (Client_Patch
                (fake.secretSync false None ["a"; controllers.CachedFinalizer]
                   fake.watch)
                (RawPatch MergePatchType
                   (JObject
                      [("metadata",
                        JObject
                          [("finalizers",
                            JArray [JString "a"; JString controllers.CachedFinalizer]);
                           ("resourceVersion", JString "42")])]))
                [])
             answer])
  ∧ (∃ answer,
       transcript fake.handle
         (controllers.RemoveFinalizer
            (fake.secretSync false None ["a"; controllers.CachedFinalizer; "b"]
               fake.watch)
            controllers.CachedFinalizer) (fake.scripted [])
       = [Call (Client_Patch
                  (fake.secretSync false None ["a"; "b"] fake.watch)
                  (RawPatch MergePatchType
                     (JObject
                        [("metadata",
                          JObject
                            [("finalizers", JArray [JString "a"; JString "b"]);
                             ("resourceVersion", JString "42")])]))
                  [])
               answer]).
Proof.
  split.
  - exact (proj1 (finalizer_patches_keep_the_other_finalizers fake.handle
                    (fake.secretSync false None ["a"] fake.watch)
                    controllers.CachedFinalizer (fake.scripted []))
             eq_refl).
  - exact (proj2 (finalizer_patches_keep_the_other_finalizers fake.handle
                    (fake.secretSync false None ["a"; controllers.CachedFinalizer; "b"]
                       fake.watch)
                    controllers.CachedFinalizer (fake.scripted []))
             eq_refl).
Defined.

Section controller_of.
Context {O T : Type} `{Object T}.
Variable IsController : O → T → bool.
Variable GVKForObject : T → controllers.GroupVersionKind + error.

(* The reference [GetControllerOf] builds for an object of a known kind. *)
Local Abbreviation referenceTo gvk actualObj :=
  {| controllers.refKind := controllers.Kind gvk;
     controllers.refGroup := controllers.Group gvk;
     controllers.refName := metav1.Name (GetObjectMeta actualObj);
     controllers.refNamespace := metav1.Namespace (GetObjectMeta actualObj) |}.

Lemma GetControllerOf_from_app (owner : O) (pre post : list T)
    (acc : list controllers.ControlledObjectReference) :
  controllers.GetControllerOf_from IsController GVKForObject owner (pre ++ post) acc
  = match controllers.GetControllerOf_from IsController GVKForObject owner pre acc with
    | inl acc' =>
        controllers.GetControllerOf_from IsController GVKForObject owner post acc'
    | inr err => inr err
    end.
Proof.
  revert acc. induction pre as [|o pre IH]; intros acc; [reflexivity |].
  simpl. destruct (negb (IsController owner o)); [apply IH |].
  destruct (GVKForObject o) as [gvk | err]; [apply IH | reflexivity].
Qed.

Lemma GetControllerOf_from_ok (owner : O) (objs : list T)
    (acc : list controllers.ControlledObjectReference) (gvkOf : T → controllers.GroupVersionKind) :
  (∀ o, o ∈ objs → IsController owner o = true → GVKForObject o = inl (gvkOf o)) →
  controllers.GetControllerOf_from IsController GVKForObject owner objs acc
  = inl (acc ++ ((λ o, referenceTo (gvkOf o) o)
                   <$> filter (λ o, IsController owner o = true) objs)).
Proof.
  revert acc. induction objs as [|o objs IH]; intros acc Hok.
  - simpl. rewrite app_nil_r. reflexivity.
  - simpl. rewrite filter_cons.
    destruct (decide (IsController owner o = true)) as [Hc | Hc].
    + rewrite Hc. simpl. rewrite (Hok o) by (left || exact Hc).
      rewrite IH by (intros o' Ho'; apply Hok; right; exact Ho').
      rewrite <- app_assoc. reflexivity.
    + apply not_true_is_false in Hc. rewrite Hc. simpl.
      apply IH. intros o' Ho'. apply Hok. right. exact Ho'.
Qed.

(** X4.  [GetControllerOf] returns one reference per object the owner
    controls, in the order of the objects, with the kind and group of the
    object's GroupVersionKind and its name and namespace; objects the owner
    does not control are skipped without a lookup mattering.  It fails with
    the lookup error of the first controlled object whose kind is unknown,
    as it is. *)
Theorem GetControllerOf_lists_the_controlled (owner : O) (actualObjects : list T) :
  (∀ gvkOf : T → controllers.GroupVersionKind,
     (∀ o, o ∈ actualObjects → IsController owner o = true →
           GVKForObject o = inl (gvkOf o)) →
     controllers.GetControllerOf IsController GVKForObject owner actualObjects
     = inl ((λ o, referenceTo (gvkOf o) o)
              <$> filter (λ o, IsController owner o = true) actualObjects))
  ∧ (∀ (gvkOf : T → controllers.GroupVersionKind) pre o post err,
       actualObjects = pre ++ o :: post →
       (∀ p, p ∈ pre → IsController owner p = true → GVKForObject p = inl (gvkOf p)) →
       IsController owner o = true →
       GVKForObject o = inr err →
       controllers.GetControllerOf IsController GVKForObject owner actualObjects
       = inr err).
Proof.
  split.
  - intros gvkOf Hok. unfold controllers.GetControllerOf.
    rewrite (GetControllerOf_from_ok owner actualObjects [] gvkOf Hok). reflexivity.
  - intros gvkOf pre o post err -> Hpre Hc Herr. unfold controllers.GetControllerOf.
    rewrite GetControllerOf_from_app, (GetControllerOf_from_ok owner pre [] gvkOf Hpre).
    simpl. rewrite Hc, Herr. reflexivity.
Qed.
End controller_of.

Section mapping_twice.
Import metav1.
Variables srcGeneration destGeneration : Z.

(** Writing what the destination already shows changes nothing, whatever
    the clock reads. *)
Lemma SetStatusCondition_shown (t : Time) (c : Condition) (dest : list Condition) :
  mapping.holds destGeneration c dest →
  meta.SetStatusCondition t dest (mapping.copy_of destGeneration c) = (dest, false).
Proof.
  intros (i & e & Hf & Hl & Ht & Hs & Hr & Hm & Hg).
  unfold meta.SetStatusCondition.
  change (Type_ (mapping.copy_of destGeneration c)) with (Type_ c).
  rewrite Hf, Hl. cbv zeta.
  change (Status (mapping.copy_of destGeneration c)) with (Status c).
  change (Reason (mapping.copy_of destGeneration c)) with (Reason c).
  change (Message (mapping.copy_of destGeneration c)) with (Message c).
  change (ObservedGeneration (mapping.copy_of destGeneration c)) with destGeneration.
  rewrite Hs, Hr, Hm, Hg, !String.eqb_refl, Z.eqb_refl. simpl. f_equal.
  apply list_insert_id. rewrite Hl. f_equal.
  unfold meta.updateCondition. simpl.
  rewrite Hs, String.eqb_refl.
  destruct e; simpl in *; subst; reflexivity.
Qed.

Lemma MapConditions_from_shown (now : nat → Time) (i : nat)
    (src dest : list Condition) :
  (∀ c, c ∈ src → mapping.is_copied srcGeneration c = true →
        mapping.holds destGeneration c dest) →
  controllers.MapConditions_from now i srcGeneration src destGeneration dest = dest.
Proof.
  revert i. induction src as [|c src IH]; intros i Hall; [reflexivity |].
  rewrite MapConditions_from_cons.
  destruct (mapping.is_copied srcGeneration c) eqn:Hc.
  - rewrite (SetStatusCondition_shown (now i) c dest) by (apply Hall; [left | exact Hc]).
    simpl. apply IH. intros c' Hin. apply Hall. right. exact Hin.
  - apply IH. intros c' Hin. apply Hall. right. exact Hin.
Qed.

Lemma MapConditions_from_all_hold (now : nat → Time) (i : nat)
    (src dest : list Condition) :
  NoDup (Type_ <$> filter (λ c, mapping.is_copied srcGeneration c = true) src) →
  ∀ c, c ∈ src → mapping.is_copied srcGeneration c = true →
       mapping.holds destGeneration c
         (controllers.MapConditions_from now i srcGeneration src destGeneration dest).
Proof.
  revert i dest. induction src as [|c0 src IH]; intros i dest Hnd c Hin Hc;
    [inversion Hin |].
  rewrite MapConditions_from_cons.
  rewrite filter_cons in Hnd.
  apply elem_of_cons in Hin as [-> | Hin].
  - rewrite Hc. rewrite decide_True in Hnd by exact Hc.
    rewrite fmap_cons in Hnd. apply NoDup_cons in Hnd as [Hfresh _].
    apply MapConditions_from_holds.
    + intros c2 Hin2 Hc2 Heq. apply Hfresh. rewrite <- Heq.
      apply list_elem_of_fmap. exists c2. split; [reflexivity |].
      apply list_elem_of_filter. split; [exact Hc2 | exact Hin2].
    + destruct (SetStatusCondition_find_same (now i) dest
                  (mapping.copy_of destGeneration c0))
        as (k & c' & Hf & Hl & Hs).
      exists k, c'. split; [exact Hf |]. split; [exact Hl | exact Hs].
  - apply IH; [|exact Hin | exact Hc].
    destruct (decide (mapping.is_copied srcGeneration c0 = true)) as [H0 | H0];
      [|exact Hnd].
    rewrite fmap_cons in Hnd. apply NoDup_cons in Hnd as [_ Hnd]. exact Hnd.
Qed.

(** X5.  When the source conditions that are copied have pairwise different
    types, mapping the same source a second time onto the result changes
    nothing, at any later time: no condition is rewritten and no transition
    time moves. *)
Theorem MapConditions_twice_changes_nothing (now later : nat → Time)
    (srcConditions destConditions : list Condition) :
  NoDup (Type_ <$> filter (λ c, mapping.is_copied srcGeneration c = true)
                          srcConditions) →
  controllers.MapConditions later srcGeneration srcConditions destGeneration
    (controllers.MapConditions now srcGeneration srcConditions destGeneration
       destConditions)
  = controllers.MapConditions now srcGeneration srcConditions destGeneration
      destConditions.
Proof.
  intros Hnd. unfold controllers.MapConditions at 1.
  apply MapConditions_from_shown.
  intros c Hin Hc. unfold controllers.MapConditions.
  apply MapConditions_from_all_hold; assumption.
Qed.
End mapping_twice.

(** X5 at a concrete input: the three sample source conditions at
    generation 3, one destination condition, a second mapping 900 ticks
    later. *)
Lemma MapConditions_twice_changes_nothing_witness :
  NoDup (metav1.Type_ <$>
           filter (λ c, mapping.is_copied 3 c = true)
                  [fake.mappedCurrent; fake.unmapped; fake.mappedOutdated])
  ∧ controllers.MapConditions (λ i, 1000 + Z.of_nat i) 3
      [fake.mappedCurrent; fake.unmapped; fake.mappedOutdated] 7
      (controllers.MapConditions fake.clock 3
         [fake.mappedCurrent; fake.unmapped; fake.mappedOutdated] 7 [fake.ready])
    = controllers.MapConditions fake.clock 3
        [fake.mappedCurrent; fake.unmapped; fake.mappedOutdated] 7 [fake.ready].
Proof.
  assert (NoDup (metav1.Type_ <$>
                   filter (λ c, mapping.is_copied 3 c = true)
                          [fake.mappedCurrent; fake.unmapped; fake.mappedOutdated]))
    as Hnd.
  { vm_compute. apply NoDup_singleton. }
  split; [exact Hnd |].
  exact (MapConditions_twice_changes_nothing 3 7 fake.clock (λ i, 1000 + Z.of_nat i)
           [fake.mappedCurrent; fake.unmapped; fake.mappedOutdated] [fake.ready] Hnd).
Defined.

(* ===================================================================== *)
(** ** The SecretSync reconcilers, call by call *)
(* ===================================================================== *)

(** A call with no condition on it, then case analysis on its answer. *)
Tactic Notation "allows_call" "as" simple_intropattern(x) :=
  eapply allows_bind; [apply allows_call; intros; exact I | intros ? x ->].

Lemma NamespacedName_eta (n : types.NamespacedName) :
  {| types.Namespace := types.Namespace n; types.Name := types.Name n |} = n.
Proof. destruct n; reflexivity. Qed.

Section sync_runs.
Variable K : v1alpha1.Constants.

Local Abbreviation any := (λ (_ : list (entry op)) (_ : entry op), True).
Local Abbreviation quiet := (Forall (λ e : entry op, syncing.deleted e = None)).

Lemma EnsureFinalizer_allows {T : Type} `{Object T} (obj : T) (finalizer : string)
    (hist : list (entry op)) :
  allows any
    (λ hist' r,
       if controllerutil.ContainsFinalizer obj finalizer
       then hist' = hist ∧ r = (obj, None)
       else ∃ data s answer,
              hist' = hist ++ [Call (Client_Patch
                                       (controllerutil.AddFinalizer obj finalizer)
                                       (RawPatch MergePatchType data) [])
                                    (s, answer)]
              ∧ r = (s, (λ e, fmt_Errorf "adding finalizer: " e "") <$> answer))
    hist (controllers.EnsureFinalizer obj finalizer).
Proof.
  unfold controllers.EnsureFinalizer.
  destruct (controllerutil.ContainsFinalizer obj finalizer).
  - simpl. split; reflexivity.
  - cbn [json_Marshal]. cbv zeta. allows_call as [s answer].
    destruct answer as [cause|]; simpl; eexists _, s, _; split; reflexivity.
Qed.

Lemma syncDest_allows (s : v1alpha1.SecretSync) (src : corev1.Secret)
    (dests acc : list types.NamespacedName) (lut : gset types.NamespacedName)
    (hist : list (entry op)) :
  allows any
    (λ hist' r,
       ∃ tr, hist' = hist ++ tr
             ∧ match r with
               | inr (controllerOf, controllerOfLUT) =>
                   controllerOf = acc ++ dests
                   ∧ controllerOfLUT = list_to_set dests ∪ lut
                   ∧ syncing.destWrites K s src dests tr
               | inl _ => quiet tr
               end)
    hist (secretsync.syncDest K s src dests acc lut).
Proof.
  revert acc lut hist. induction dests as [|dest rest IH]; intros acc lut hist.
  - simpl. exists []. rewrite !app_nil_r.
    split; [reflexivity |]. split; [reflexivity |].
    split; [rewrite (left_id_L ∅ (∪)); reflexivity | reflexivity].
  - cbn [secretsync.syncDest]. allows_call as [cause|].
    { simpl. eexists. rewrite <- ?app_assoc.
      split; [reflexivity |]. repeat constructor. }
    allows_call as [owned [cause|]].
    { simpl. eexists. rewrite <- ?app_assoc.
      split; [reflexivity |]. repeat constructor. }
    allows_call as [answered [cause|]].
    { simpl. eexists. rewrite <- ?app_assoc.
      split; [reflexivity |]. repeat constructor. }
    eapply allows_mono; [|apply IH].
    intros hist' r (tr & -> & Hr). eexists. rewrite <- ?app_assoc.
    split; [reflexivity |]. rewrite NamespacedName_eta in Hr.
    destruct r as [err | [controllerOf controllerOfLUT]].
    + simpl. repeat (constructor; [reflexivity |]). exact Hr.
    + destruct Hr as (-> & -> & Hw). rewrite <- app_assoc.
      split; [reflexivity |].
      split; [rewrite list_to_set_cons, (assoc_L (∪) (list_to_set rest)),
                (comm_L (∪) (list_to_set rest) {[dest]}); reflexivity |].
      simpl. eexists owned, answered, tr. split; [reflexivity | exact Hw].
Qed.

Lemma deleteUnmanaged_allows (items : list corev1.Secret)
    (lut : gset types.NamespacedName) (hist : list (entry op)) :
  allows any
    (λ hist' err,
       ∃ tr, hist' = hist ++ tr
             ∧ Forall (λ e, ∀ obj, syncing.deleted e = Some obj →
                            ∃ item, item ∈ items ∧ (syncing.keyOf item ∉ lut)
                                    ∧ obj = syncing.bareKey (syncing.keyOf item)) tr
             ∧ (err = None →
                Forall2 syncing.collects
                  (filter (λ item, syncing.keyOf item ∉ lut) items) tr))
    hist (secretsync.deleteUnmanaged items lut).
Proof.
  revert hist. induction items as [|item rest IH]; intros hist.
  - simpl. exists []. rewrite app_nil_r.
    split; [reflexivity |]. split; [constructor |]. intros _. constructor.
  - cbn [secretsync.deleteUnmanaged]. rewrite filter_cons.
    change {| types.Namespace := metav1.Namespace (corev1.ObjectMeta item);
              types.Name := metav1.Name (corev1.ObjectMeta item) |}
      with (syncing.keyOf item).
    case_bool_decide as Hin.
    { rewrite decide_False by (intros Hn; exact (Hn Hin)).
      eapply allows_mono; [|apply IH].
      intros hist' err (tr & -> & Hall & Hok). exists tr.
      split; [reflexivity |]. split; [|exact Hok].
      eapply Forall_impl; [exact Hall |].
      intros e He obj Hobj. destruct (He obj Hobj) as (it & Hit & Hk & ->).
      exists it. split; [right; exact Hit |]. split; [exact Hk | reflexivity]. }
    rewrite decide_True by exact Hin.
    allows_call as answer.
    assert (∀ rest_err tr,
              Forall (λ e, ∀ obj, syncing.deleted e = Some obj →
                             ∃ it, it ∈ rest ∧ (syncing.keyOf it ∉ lut)
                                   ∧ obj = syncing.bareKey (syncing.keyOf it)) tr →
              Forall (λ e, ∀ obj, syncing.deleted e = Some obj →
                             ∃ it, it ∈ item :: rest ∧ (syncing.keyOf it ∉ lut)
                                   ∧ obj = syncing.bareKey (syncing.keyOf it))
                     (Call (Client_Delete (syncing.bareKey (syncing.keyOf item))) rest_err
                      :: tr)) as Hcons.
    { intros rest_err tr Hall. constructor.
      - intros obj [= <-]. exists item. split; [left |]. split; [exact Hin | reflexivity].
      - eapply Forall_impl; [exact Hall |].
        intros e He obj Hobj. destruct (He obj Hobj) as (it & Hit & Hk & ->).
        exists it. split; [right; exact Hit |]. split; [exact Hk | reflexivity]. }
    assert (IgnoreNotFound answer = None →
            allows any
              (λ hist' err,
                 ∃ tr, hist' = hist ++ tr
                       ∧ Forall (λ e, ∀ obj, syncing.deleted e = Some obj →
                                      ∃ it, it ∈ item :: rest ∧ (syncing.keyOf it ∉ lut)
                                            ∧ obj = syncing.bareKey (syncing.keyOf it)) tr
                       ∧ (err = None →
                          Forall2 syncing.collects
                            (item :: filter (λ it, syncing.keyOf it ∉ lut) rest) tr))
              (hist ++ [Call (Client_Delete (syncing.bareKey (syncing.keyOf item))) answer])
              (secretsync.deleteUnmanaged rest lut)) as Hgo.
    { intros Hnf. eapply allows_mono; [|apply IH].
      intros hist' err (tr & -> & Hall & Hok). eexists. rewrite <- app_assoc.
      split; [reflexivity |]. split; [apply Hcons; exact Hall |].
      intros Herr. constructor; [|apply Hok; exact Herr].
      exists answer. split; [reflexivity | exact Hnf]. }
    destruct answer as [cause|]; [|apply Hgo; reflexivity].
    unfold IgnoreNotFound in *. destruct (IsNotFound cause); [apply Hgo; reflexivity |].
    simpl. eexists. split; [reflexivity |].
    split; [apply Hcons; constructor | discriminate].
Qed.
End sync_runs.

Section sync_shape.
Variable K : v1alpha1.Constants.
Variable now : metav1.Time.

Local Abbreviation any := (λ (_ : list (entry op)) (_ : entry op), True).
Local Abbreviation quiet := (Forall (λ e : entry op, syncing.deleted e = None)).

Lemma prepared_quiet (ss s : v1alpha1.SecretSync) (tr : list (entry op)) :
  syncing.prepared ss s tr → quiet tr.
Proof.
  intros (fin & -> & Hfin). apply Forall_app. split; [|repeat constructor].
  destruct (controllerutil.ContainsFinalizer ss controllers.CachedFinalizer).
  - destruct Hfin as [-> _]. constructor.
  - destruct Hfin as (data & ->). repeat constructor.
Qed.

Lemma destWrites_quiet (s : v1alpha1.SecretSync) (src : corev1.Secret)
    (dests : list types.NamespacedName) (tr : list (entry op)) :
  syncing.destWrites K s src dests tr → quiet tr.
Proof.
  revert tr. induction dests as [|dest rest IH]; intros tr; simpl.
  - intros ->. constructor.
  - intros (owned & answered & tr' & -> & Hw).
    repeat (constructor; [reflexivity |]). apply IH. exact Hw.
Qed.

Lemma not_in_lookup_table (dests : list types.NamespacedName)
    (key : types.NamespacedName) :
  key ∉ (list_to_set dests ∪ ∅ : gset types.NamespacedName) ↔ key ∉ dests.
Proof. rewrite (right_id_L ∅ (∪)), elem_of_list_to_set. reflexivity. Qed.

(** Every way [secretReconciler.Reconcile] returns from an object that is
    neither paused nor deleting, with the calls made until then.  [s] is
    the object worked on once the finalizer is in place. *)
Lemma secretReconciler_shape (ss : v1alpha1.SecretSync) :
  v1alpha1.Paused (v1alpha1.Spec ss)
  || negb (metav1.IsZero (metav1.DeletionTimestamp (v1alpha1.ObjectMeta ss))) = false →
  allows any
    (λ hist out,
       ∃ s,
         (v1alpha1.Watch (v1alpha1.Strategy (v1alpha1.Spec ss)) = None
          ∨ controllerutil.ContainsFinalizer ss controllers.CachedFinalizer = true →
          s = ss)
         ∧ ((is_Some out.2 ∧ out.1 = (s, {| secretsync.statusChanged := false |})
             ∧ quiet hist)
            ∨ ∃ pre r src sync listed gc,
                hist = pre
                       ++ Call (Reader_Get r (v1alpha1.Src (v1alpha1.Spec s)) corev1.zero)
                               (src, None)
                       :: sync
                       ++ Call (Cache_List
                                  (<[secretsync.ManagedByLabel :=
                                       metav1.Name (v1alpha1.ObjectMeta s)]> ∅))
                               (listed, None)
                       :: gc
                ∧ match v1alpha1.Watch (v1alpha1.Strategy (v1alpha1.Spec ss)) with
                  | Some _ => syncing.prepared ss s pre
                  | None => pre = []
                  end
                ∧ secretsync.srcReaderForStrategy (v1alpha1.Strategy (v1alpha1.Spec s))
                  = inl r
                ∧ syncing.destWrites K s src (v1alpha1.Dest (v1alpha1.Spec s)) sync
                ∧ Forall (λ e, ∀ obj, syncing.deleted e = Some obj →
                               ∃ item, item ∈ listed
                                       ∧ (syncing.keyOf item
                                          ∉ v1alpha1.Dest (v1alpha1.Spec s))
                                       ∧ obj = syncing.bareKey (syncing.keyOf item)) gc
                ∧ match out.2 with
                  | Some _ => out.1 = (s, {| secretsync.statusChanged := false |})
                  | None =>
                      Forall2 syncing.collects
                        (filter (λ item, syncing.keyOf item
                                         ∉ v1alpha1.Dest (v1alpha1.Spec s)) listed) gc
                      ∧ let set :=
                          meta.SetStatusCondition now
                            (v1alpha1.Conditions (v1alpha1.Status s))
                            {| metav1.Type_ := v1alpha1.SecretSyncSync K;
                               metav1.Status := metav1.ConditionTrue;
                               metav1.Reason := "SuccessfulSync";
                               metav1.Message := "Synchronization completed successfully.";
                               metav1.ObservedGeneration :=
                                 metav1.Generation (v1alpha1.ObjectMeta s);
                               metav1.LastTransitionTime := 0 |} in
                        out.1
                        = (v1alpha1.withStatus
                             {| v1alpha1.Conditions := set.1;
                                v1alpha1.Phase := v1alpha1.SecretSyncStatusPhaseSync K;
                                v1alpha1.ControllerOf :=
                                  Some (v1alpha1.Dest (v1alpha1.Spec s)) |} s,
                           {| secretsync.statusChanged :=
                                set.2
                                || negb (bool_decide
                                           (v1alpha1.ControllerOf (v1alpha1.Status s)
                                            = Some (v1alpha1.Dest (v1alpha1.Spec s))))
                                || negb (String.eqb
                                           (v1alpha1.Phase (v1alpha1.Status s))
                                           (v1alpha1.SecretSyncStatusPhaseSync K)) |})
                  end))
    [] (secretsync.secretReconciler_Reconcile K now ss).
Proof.
  intros Hskip. unfold secretsync.secretReconciler_Reconcile. rewrite Hskip.
  eapply allows_bind with
    (Q' := λ hist' r,
       (v1alpha1.Watch (v1alpha1.Strategy (v1alpha1.Spec ss)) = None
        ∨ controllerutil.ContainsFinalizer ss controllers.CachedFinalizer = true →
        r.1 = ss)
       ∧ match r.2 with
         | Some _ => quiet hist'
         | None =>
             match v1alpha1.Watch (v1alpha1.Strategy (v1alpha1.Spec ss)) with
             | Some _ => syncing.prepared ss r.1 hist'
             | None => hist' = []
             end
         end).
  { destruct (v1alpha1.Watch (v1alpha1.Strategy (v1alpha1.Spec ss))) as [watch|].
    2:{ simpl. split; reflexivity. }
    unfold controllers.EnsureCachedFinalizer.
    eapply allows_bind; [apply EnsureFinalizer_allows |].
    intros hist1 [s1 e1] H1. cbn beta iota.
    destruct (controllerutil.ContainsFinalizer ss controllers.CachedFinalizer) eqn:Hc.
    - destruct H1 as [-> [= -> ->]].
      allows_call as [cause|].
      { simpl. split; [reflexivity | repeat constructor]. }
      allows_call as [cause|].
      { simpl. split; [reflexivity | repeat constructor]. }
      simpl. split; [reflexivity |]. exists []. rewrite Hc.
      split; [reflexivity |]. split; reflexivity.
    - destruct H1 as (data & s & answer & -> & [= -> ->]).
      destruct answer as [cause|]; cbn [fmap option_fmap option_map].
      { simpl. split; [intros [[=] | [=]] | repeat constructor]. }
      allows_call as [cause|].
      { simpl. split; [intros [[=] | [=]] | repeat constructor]. }
      allows_call as [cause|].
      { simpl. split; [intros [[=] | [=]] | repeat constructor]. }
      simpl. split; [intros [[=] | [=]] |].
      exists [Call (Client_Patch
                      (controllerutil.AddFinalizer ss controllers.CachedFinalizer)
                      (RawPatch MergePatchType data) [])
                   (s, None)].
      rewrite Hc. split; [reflexivity |]. eexists. reflexivity. }
  intros hist1 [s [perr|]] [Hsame Hpre]; cbn beta iota; simpl in Hsame, Hpre.
  { simpl. exists s. split; [exact Hsame |]. left.
    split; [eexists; reflexivity |]. split; [reflexivity | exact Hpre]. }
  assert (quiet hist1) as Hq1.
  { destruct (v1alpha1.Watch (v1alpha1.Strategy (v1alpha1.Spec ss))).
    - eapply prepared_quiet. exact Hpre.
    - subst hist1. constructor. }
  destruct (secretsync.srcReaderForStrategy (v1alpha1.Strategy (v1alpha1.Spec s)))
    as [r | v] eqn:Hr; [|exact I].
  rewrite NamespacedName_eta.
  allows_call as [src [cause|]].
  { simpl. exists s. split; [exact Hsame |]. left.
    split; [eexists; reflexivity |]. split; [reflexivity |].
    apply Forall_app. split; [exact Hq1 | repeat constructor]. }
  eapply allows_bind; [apply syncDest_allows |].
  intros hist2 [err2 | [controllerOf lut]] (sync & -> & Hs); cbn beta iota.
  { simpl. exists s. split; [exact Hsame |]. left.
    split; [eexists; reflexivity |]. split; [reflexivity |].
    apply Forall_app. split; [|exact Hs].
    apply Forall_app. split; [exact Hq1 | repeat constructor]. }
  destruct Hs as (-> & -> & Hw). simpl app.
  allows_call as [listed [cause|]].
  { simpl. exists s. split; [exact Hsame |]. left.
    split; [eexists; reflexivity |]. split; [reflexivity |].
    apply Forall_app. split; [|repeat constructor].
    apply Forall_app. split; [|eapply destWrites_quiet; exact Hw].
    apply Forall_app. split; [exact Hq1 | repeat constructor]. }
  eapply allows_bind; [apply deleteUnmanaged_allows |].
  intros hist3 err3 (gc & -> & Hall & Hok).
  assert (Forall (λ e, ∀ obj, syncing.deleted e = Some obj →
                       ∃ item, item ∈ listed
                               ∧ (syncing.keyOf item ∉ v1alpha1.Dest (v1alpha1.Spec s))
                               ∧ obj = syncing.bareKey (syncing.keyOf item)) gc) as Hall'.
  { eapply Forall_impl; [exact Hall |].
    intros e He obj Hobj. destruct (He obj Hobj) as (item & Hin & Hk & ->).
    exists item. split; [exact Hin |]. split; [|reflexivity].
    apply not_in_lookup_table. exact Hk. }
  assert (filter (λ item, syncing.keyOf item
                          ∉ (list_to_set (v1alpha1.Dest (v1alpha1.Spec s)) ∪ ∅
                             : gset types.NamespacedName)) listed
          = filter (λ item, syncing.keyOf item ∉ v1alpha1.Dest (v1alpha1.Spec s)) listed)
    as Hfilter.
  { apply filter_ext_elem. intros item _. apply not_in_lookup_table. }
  destruct err3 as [e3|]; cbn beta iota.
  { simpl. exists s. split; [exact Hsame |]. right.
    exists hist1, r, src, sync, listed, gc.
    split; [rewrite <- !app_assoc; reflexivity |].
    split; [exact Hpre |]. split; [exact Hr |]. split; [exact Hw |].
    split; [exact Hall' | reflexivity]. }
  destruct (meta.SetStatusCondition _ _ _) as [conditions condChanged] eqn:Hset.
  simpl. exists s. split; [exact Hsame |]. right.
  exists hist1, r, src, sync, listed, gc.
  split; [rewrite <- !app_assoc; reflexivity |].
  split; [exact Hpre |]. split; [exact Hr |]. split; [exact Hw |].
  split; [exact Hall' |]. split; [rewrite <- Hfilter; apply Hok; reflexivity |].
  rewrite Hset. reflexivity.
Qed.
End sync_shape.

Section sync_results.
Variable K : v1alpha1.Constants.
Variable now : metav1.Time.

Local Abbreviation skipped ss :=
  (v1alpha1.Paused (v1alpha1.Spec ss)
   || negb (metav1.IsZero (metav1.DeletionTimestamp (v1alpha1.ObjectMeta ss)))).

(** [changed] is false exactly when the slice is left as it was. *)
Lemma SetStatusCondition_changed (t : metav1.Time) (cs : list metav1.Condition)
    (n : metav1.Condition) :
  (meta.SetStatusCondition t cs n).2 = false ↔ (meta.SetStatusCondition t cs n).1 = cs.
Proof.
  unfold meta.SetStatusCondition.
  destruct (meta.FindStatusCondition cs (metav1.Type_ n)) as [i|] eqn:Hf.
  2:{ simpl. split; [discriminate |]. intros Heq.
      apply (f_equal length) in Heq. rewrite length_app in Heq. simpl in Heq. lia. }
  destruct (cs !! i) as [e|] eqn:Hl; [|split; reflexivity].
  cbv zeta. cbn [fst snd]. split.
  - intros Hc. apply orb_false_elim in Hc as [Hc Hg].
    apply orb_false_elim in Hc as [Hc Hm]. apply orb_false_elim in Hc as [Hs Hr].
    apply negb_false_iff in Hs, Hr, Hm, Hg.
    apply String.eqb_eq in Hs, Hr, Hm. apply Z.eqb_eq in Hg.
    apply list_insert_id. rewrite Hl. f_equal.
    unfold meta.updateCondition. rewrite <- Hs, <- Hr, <- Hm, <- Hg, String.eqb_refl.
    destruct e; reflexivity.
  - intros Heq.
    assert (meta.updateCondition t e n = e) as Hu.
    { apply (f_equal (λ l, l !! i)) in Heq.
      rewrite list_lookup_insert_eq in Heq by (eapply lookup_lt_Some; exact Hl).
      rewrite Hl in Heq. injection Heq as Heq. exact Heq. }
    rewrite <- Hu at 1 2 3 4. simpl.
    rewrite !String.eqb_refl, Z.eqb_refl. reflexivity.
Qed.

Lemma withStatus_same (st : v1alpha1.SecretSyncStatus) (s : v1alpha1.SecretSync) :
  v1alpha1.withStatus st s = s ↔ st = v1alpha1.Status s.
Proof.
  destruct s as [m sp st0]. unfold v1alpha1.withStatus. simpl. split.
  - intros [= ->]. reflexivity.
  - intros ->. reflexivity.
Qed.

Lemma secretReconciler_skipped {W} (h : handler op W) (w : W) (ss : v1alpha1.SecretSync) :
  skipped ss = true →
  run h (secretsync.secretReconciler_Reconcile K now ss) w
  = Done (secretsync.succeed ss) w
  ∧ transcript h (secretsync.secretReconciler_Reconcile K now ss) w = [].
Proof.
  intros Hskip. unfold secretsync.secretReconciler_Reconcile. rewrite Hskip.
  split; reflexivity.
Qed.

(** X6.  When [secretReconciler.Reconcile] returns without error for an
    object that is neither paused nor deleting, whatever the collaborators
    answered, the object comes back in phase Sync, its [ControllerOf] lists
    its destinations in their order, and its Sync condition is True with the
    reason SuccessfulSync, observed at the object's generation. *)
Theorem secretReconciler_success_status {W} (h : handler op W) (w w' : W)
    (ss ss' : v1alpha1.SecretSync) (res : secretsync.reconcileResult) :
  skipped ss = false →
  run h (secretsync.secretReconciler_Reconcile K now ss) w = Done (ss', res, None) w' →
  v1alpha1.Phase (v1alpha1.Status ss') = v1alpha1.SecretSyncStatusPhaseSync K
  ∧ v1alpha1.ControllerOf (v1alpha1.Status ss')
    = Some (v1alpha1.Dest (v1alpha1.Spec ss'))
  ∧ ∃ i c,
      meta.FindStatusCondition (v1alpha1.Conditions (v1alpha1.Status ss'))
        (v1alpha1.SecretSyncSync K) = Some i
      ∧ v1alpha1.Conditions (v1alpha1.Status ss') !! i = Some c
      ∧ metav1.Status c = metav1.ConditionTrue
      ∧ metav1.Reason c = "SuccessfulSync"
      ∧ metav1.Message c = "Synchronization completed successfully."
      ∧ metav1.ObservedGeneration c = metav1.Generation (v1alpha1.ObjectMeta ss').
Proof.
  intros Hskip Hrun.
  destruct (allows_sound _ _ [] _ h w (secretReconciler_shape K now ss Hskip))
    as [_ Hq].
  destruct (Hq _ _ Hrun) as (s & _ & [([? [=]] & _) | Hshape]).
  destruct Hshape as (pre & r & src & sync & listed & gc & _ & _ & _ & _ & _ & _ & Hout).
  cbv zeta in Hout. cbn [fst snd] in Hout. injection Hout as -> _.
  cbn [v1alpha1.withStatus v1alpha1.Status v1alpha1.Phase v1alpha1.ControllerOf
       v1alpha1.Conditions v1alpha1.Spec v1alpha1.ObjectMeta].
  split; [reflexivity |]. split; [reflexivity |].
  destruct (SetStatusCondition_find_same now
              (v1alpha1.Conditions (v1alpha1.Status s))
              {| metav1.Type_ := v1alpha1.SecretSyncSync K;
                 metav1.Status := metav1.ConditionTrue;
                 metav1.Reason := "SuccessfulSync";
                 metav1.Message := "Synchronization completed successfully.";
                 metav1.ObservedGeneration :=
                   metav1.Generation (v1alpha1.ObjectMeta s);
                 metav1.LastTransitionTime := 0 |})
    as (i & c & Hf & Hl & _ & Hs & Hr & Hm & Hg).
  exists i, c. auto 10.
Qed.

(** X7.  When no finalizer patch is due (no watch strategy, or the cached
    finalizer already there), [statusChanged] is false exactly when the
    object comes back as it went in, on every return, with or without
    error. *)
Theorem secretReconciler_statusChanged_exact {W} (h : handler op W) (w w' : W)
    (ss ss' : v1alpha1.SecretSync) (res : secretsync.reconcileResult)
    (err : option error) :
  v1alpha1.Watch (v1alpha1.Strategy (v1alpha1.Spec ss)) = None
  ∨ controllerutil.ContainsFinalizer ss controllers.CachedFinalizer = true →
  run h (secretsync.secretReconciler_Reconcile K now ss) w = Done (ss', res, err) w' →
  secretsync.statusChanged res = false ↔ ss' = ss.
Proof.
  intros Hquiet Hrun. destruct (skipped ss) eqn:Hskip.
  { destruct (secretReconciler_skipped h w ss Hskip) as [Hr _].
    rewrite Hr in Hrun. injection Hrun as <- <- <- _. split; reflexivity. }
  destruct (allows_sound _ _ [] _ h w (secretReconciler_shape K now ss Hskip))
    as [_ Hq].
  destruct (Hq _ _ Hrun) as (s & Hs & Hcases). specialize (Hs Hquiet). subst s.
  cbn [fst snd] in Hcases.
  destruct Hcases as [(_ & [= -> ->] & _) | Hshape]; [split; reflexivity |].
  destruct Hshape as (pre & r & src & sync & listed & gc & _ & _ & _ & _ & _ & Hout).
  destruct err as [e|].
  { injection Hout as -> ->. split; reflexivity. }
  destruct Hout as [_ Hout]. cbv zeta in Hout. injection Hout as -> ->.
  cbn [secretsync.statusChanged].
  rewrite withStatus_same, !orb_false_iff, !negb_false_iff,
    SetStatusCondition_changed, bool_decide_eq_true, String.eqb_eq.
  destruct (v1alpha1.Status ss) as [cs ph co]. simpl. split.
  - intros [[-> ->] ->]. reflexivity.
  - intros [= -> <- ->]. auto.
Qed.
End sync_results.

Section sync_calls.
Variable K : v1alpha1.Constants.
Variable now : metav1.Time.

Local Abbreviation skipped ss :=
  (v1alpha1.Paused (v1alpha1.Spec ss)
   || negb (metav1.IsZero (metav1.DeletionTimestamp (v1alpha1.ObjectMeta ss)))).

Lemma destWrites_no_read (s : v1alpha1.SecretSync) (src : corev1.Secret)
    (dests : list types.NamespacedName) (tr : list (entry op)) :
  syncing.destWrites K s src dests tr → Forall (λ e, syncing.reads e = None) tr.
Proof.
  revert tr. induction dests as [|dest rest IH]; intros tr; simpl.
  - intros ->. constructor.
  - intros (owned & answered & tr' & -> & Hw).
    repeat (constructor; [reflexivity |]). apply IH. exact Hw.
Qed.

Lemma collects_no_read (items : list corev1.Secret) (tr : list (entry op)) :
  Forall2 syncing.collects items tr → Forall (λ e, syncing.reads e = None) tr.
Proof.
  induction 1 as [|item e items tr (answer & -> & _) _ IH]; constructor;
    [reflexivity | exact IH].
Qed.

Lemma withStatus_Status (s s' : v1alpha1.SecretSync) (st : v1alpha1.SecretSyncStatus) :
  s' = v1alpha1.withStatus st s →
  v1alpha1.withStatus (v1alpha1.Status s') s = s'
  ∧ v1alpha1.Spec s' = v1alpha1.Spec s
  ∧ v1alpha1.ObjectMeta s' = v1alpha1.ObjectMeta s.
Proof. intros ->. repeat split. Qed.



Lemma keyOf_bareKey (key : types.NamespacedName) :
  syncing.keyOf (syncing.bareKey key) = key.
Proof. destruct key; reflexivity. Qed.

(** X10.  Garbage collection of [secretReconciler.Reconcile].  On every
    return, with or without error, each [Delete] sent names a secret by
    namespace and name alone, and never a destination of [Spec.Dest].  On a
    return without error (object neither paused nor deleting), the deletes
    are all after the list call for the managed-by label with the object's
    name, and they are exactly: one per listed secret that is no destination,
    in the order listed, each answered without error or with NotFound. *)
Theorem secretReconciler_collects_the_unmanaged {W} (h : handler op W) (w w' : W)
    (ss ss' : v1alpha1.SecretSync) (res : secretsync.reconcileResult)
    (err : option error) :
  run h (secretsync.secretReconciler_Reconcile K now ss) w = Done (ss', res, err) w' →
  (∀ e obj,
     e ∈ transcript h (secretsync.secretReconciler_Reconcile K now ss) w →
     syncing.deleted e = Some obj →
     obj = syncing.bareKey (syncing.keyOf obj)
     ∧ (syncing.keyOf obj ∉ v1alpha1.Dest (v1alpha1.Spec ss')))
  ∧ (err = None → skipped ss = false →
     ∃ pre listed gc,
       transcript h (secretsync.secretReconciler_Reconcile K now ss) w
       = pre ++ Call (Cache_List
                        (<[secretsync.ManagedByLabel :=
                             metav1.Name (v1alpha1.ObjectMeta ss')]> ∅))
                     (listed, None)
             :: gc
       ∧ Forall (λ e, syncing.deleted e = None) pre
       ∧ Forall2 syncing.collects
           (filter (λ item, syncing.keyOf item
                            ∉ v1alpha1.Dest (v1alpha1.Spec ss')) listed) gc).
Proof.
  intros Hrun. destruct (skipped ss) eqn:Hskip.
  { destruct (secretReconciler_skipped K now h w ss Hskip) as [Hr Htr].
    rewrite Htr. split; [intros e obj Hin; inversion Hin |].
    intros _ [=]. }
  destruct (allows_sound _ _ [] _ h w (secretReconciler_shape K now ss Hskip))
    as [_ Hq].
  destruct (Hq _ _ Hrun) as (s & Hs & Hcases). cbn [fst snd] in Hcases.
  rewrite app_nil_l in Hcases.
  destruct Hcases as [([cause ->] & _ & Hquiet) | Hshape].
  { split; [|discriminate].
    intros e obj Hin Hdel. rewrite Forall_forall in Hquiet.
    rewrite (Hquiet e Hin) in Hdel. discriminate. }
  destruct Hshape as (pre & r & src & sync & listed & gc
                      & Htr & Hpre & _ & Hw & Hall & Hout).
  assert (Forall (λ e, syncing.deleted e = None)
            (pre ++ Call (Reader_Get r (v1alpha1.Src (v1alpha1.Spec s)) corev1.zero)
                         (src, None) :: sync)) as Hquiet.
  { apply Forall_app. split.
    - destruct (v1alpha1.Watch (v1alpha1.Strategy (v1alpha1.Spec ss))).
      + eapply prepared_quiet. exact Hpre.
      + subst pre. constructor.
    - constructor; [reflexivity |]. eapply destWrites_quiet. exact Hw. }
  assert (v1alpha1.Spec ss' = v1alpha1.Spec s
          ∧ v1alpha1.ObjectMeta ss' = v1alpha1.ObjectMeta s) as [Hspec Hmeta].
  { destruct err as [e|].
    - injection Hout as -> _. split; reflexivity.
    - destruct Hout as [_ Hout]. cbv zeta in Hout. injection Hout as -> _.
      split; reflexivity. }
  unfold secretsync.reconciled in *. rewrite Htr, Hspec, Hmeta. split.
  - intros e obj Hin Hdel.
    change (pre ++ Call (Reader_Get r (v1alpha1.Src (v1alpha1.Spec s)) corev1.zero)
                        (src, None)
                :: sync ++ Call (Cache_List
                                   (<[secretsync.ManagedByLabel :=
                                        metav1.Name (v1alpha1.ObjectMeta s)]> ∅))
                                (listed, None) :: gc)
      with (pre ++ (Call (Reader_Get r (v1alpha1.Src (v1alpha1.Spec s)) corev1.zero)
                         (src, None) :: sync)
                ++ Call (Cache_List
                           (<[secretsync.ManagedByLabel :=
                                metav1.Name (v1alpha1.ObjectMeta s)]> ∅))
                        (listed, None) :: gc) in Hin.
    rewrite (assoc_L (++)) in Hin.
    apply elem_of_app in Hin as [Hin | Hin].
    { rewrite Forall_forall in Hquiet. rewrite (Hquiet e Hin) in Hdel. discriminate. }
    apply elem_of_cons in Hin as [-> | Hin]; [discriminate |].
    rewrite Forall_forall in Hall.
    destruct (Hall e Hin obj Hdel) as (item & _ & Hk & ->).
    rewrite keyOf_bareKey. split; [reflexivity | exact Hk].
  - intros -> _. destruct Hout as [Hgc _].
    exists (pre ++ Call (Reader_Get r (v1alpha1.Src (v1alpha1.Spec s)) corev1.zero)
                        (src, None) :: sync), listed, gc.
    split; [rewrite <- (assoc_L (++)); reflexivity |].
    split; [exact Hquiet | exact Hgc].
Qed.
End sync_calls.

(** X6 on the scripted double, every call answered without error: a
    SecretSync under the watch strategy, not yet finalized. *)
Lemma secretReconciler_success_status_witness :
  ∃ ss' res w',
    run fake.handle
      (secretsync.secretReconciler_Reconcile fake.constants 100
         (fake.secretSync false None [] fake.watch)) (sample.cluster [])
    = Done (ss', res, None) w'
    ∧ v1alpha1.Phase (v1alpha1.Status ss') = "Sync"
    ∧ v1alpha1.ControllerOf (v1alpha1.Status ss')
      = Some [{| types.Namespace := "ns"; types.Name := "dst" |}].
Proof.
  eexists _, _, _. split; [reflexivity |].
  destruct (secretReconciler_success_status fake.constants 100 fake.handle
              (sample.cluster []) _ (fake.secretSync false None [] fake.watch) _ _
              eq_refl eq_refl) as (Hphase & Hcontrols & _).
  split; [exact Hphase | exact Hcontrols].
Defined.

(** X7 on the scripted double: a polled SecretSync comes back changed, and
    the result says so. *)
Lemma secretReconciler_statusChanged_exact_witness :
  ∃ ss' res w',
    run fake.handle
      (secretsync.secretReconciler_Reconcile fake.constants 100
         (fake.secretSync false None [] fake.poll)) (sample.cluster [])
    = Done (ss', res, None) w'
    ∧ (secretsync.statusChanged res = false
       ↔ ss' = fake.secretSync false None [] fake.poll).
Proof.
  eexists _, _, _. split; [reflexivity |].
  exact (secretReconciler_statusChanged_exact fake.constants 100 fake.handle
           (sample.cluster []) _ (fake.secretSync false None [] fake.poll) _ _ _
           (or_introl eq_refl) eq_refl).
Defined.



(** X10 on the scripted double: of the two managed secrets listed, the one
    that is no destination is deleted. *)
Lemma secretReconciler_collects_the_unmanaged_witness :
  ∃ pre listed gc,
    transcript fake.handle
      (secretsync.secretReconciler_Reconcile fake.constants 100
         (fake.secretSync false None [] fake.poll)) (sample.cluster [])
    = pre ++ Call (Cache_List (<[secretsync.ManagedByLabel := "sync"]> ∅))
                  (listed, None)
          :: gc
    ∧ Forall (λ e, syncing.deleted e = None) pre
    ∧ Forall2 syncing.collects
        (filter (λ item, syncing.keyOf item
                         ∉ [{| types.Namespace := "ns"; types.Name := "dst" |}])
                listed) gc.
Proof.
  exact (proj2 (secretReconciler_collects_the_unmanaged fake.constants 100 fake.handle
                  (sample.cluster []) _ (fake.secretSync false None [] fake.poll)
                  _ _ None eq_refl)
           eq_refl eq_refl).
Defined.

(* ===================================================================== *)
(** ** [deletionReconciler], the strategies, [pauseReconciler] *)
(* ===================================================================== *)

Section deletion_runs.
Local Abbreviation any := (λ (_ : list (entry op)) (_ : entry op), True).

Lemma RemoveFinalizer_allows {T : Type} `{Object T} (obj : T) (finalizer : string)
    (hist : list (entry op)) :
  allows any
    (λ hist' r,
       if controllerutil.ContainsFinalizer obj finalizer
       then ∃ data s answer,
              hist' = hist ++ [Call (Client_Patch
                                       (controllerutil.RemoveFinalizer obj finalizer)
                                       (RawPatch MergePatchType data) [])
                                    (s, answer)]
              ∧ r = (s, (λ e, fmt_Errorf "removing finalizer: " e "") <$> answer)
       else hist' = hist ∧ r = (obj, None))
    hist (controllers.RemoveFinalizer obj finalizer).
Proof.
  unfold controllers.RemoveFinalizer.
  destruct (controllerutil.ContainsFinalizer obj finalizer).
  - cbn [negb json_Marshal]. cbv zeta. allows_call as [s answer].
    destruct answer as [cause|]; simpl; eexists _, s, _; split; reflexivity.
  - simpl. split; reflexivity.
Qed.

(** X11.  [deletionReconciler.Reconcile] on a deleting object under the
    watch strategy alone.  The first call removes the cache label from the
    source secret.  It returns without error only when that was answered
    without error or with NotFound, the cache was then freed without error,
    and, if the object still had the cached finalizer, the merge patch
    removing it was answered without error; the object then comes back as
    that patch answered it, or untouched when there was no finalizer.  On an
    error the calls stop at the one that failed.  [statusChanged] is never
    set. *)
Theorem deletionReconciler_cleans_up_in_order {W} (h : handler op W) (w w' : W)
    (ss ss' : v1alpha1.SecretSync) (res : secretsync.reconcileResult)
    (err : option error) :
  metav1.IsZero (metav1.DeletionTimestamp (v1alpha1.ObjectMeta ss)) = false →
  v1alpha1.Poll (v1alpha1.Strategy (v1alpha1.Spec ss)) = None →
  is_Some (v1alpha1.Watch (v1alpha1.Strategy (v1alpha1.Spec ss))) →
  run h (secretsync.deletionReconciler_Reconcile ss) w = Done (ss', res, err) w' →
  secretsync.statusChanged res = false
  ∧ ∃ a rest,
      transcript h (secretsync.deletionReconciler_Reconcile ss) w
      = Call (RemoveDynamicCacheLabel (secretsync.srcSecretRef ss)) a :: rest
      ∧ match err with
        | None =>
            IgnoreNotFound a = None
            ∧ ∃ fin,
                rest = Call (Cache_Free ss) None :: fin
                ∧ if controllerutil.ContainsFinalizer ss controllers.CachedFinalizer
                  then ∃ data,
                         fin = [Call (Client_Patch
                                        (controllerutil.RemoveFinalizer ss
                                           controllers.CachedFinalizer)
                                        (RawPatch MergePatchType data) [])
                                     (ss', None)]
                  else fin = [] ∧ ss' = ss
        | Some _ =>
            (IgnoreNotFound a ≠ None ∧ rest = [])
            ∨ (IgnoreNotFound a = None
               ∧ ∃ cause, rest = [Call (Cache_Free ss) (Some cause)])
            ∨ (IgnoreNotFound a = None
               ∧ ∃ data s cause,
                   rest = [Call (Cache_Free ss) None;
                           Call (Client_Patch
                                   (controllerutil.RemoveFinalizer ss
                                      controllers.CachedFinalizer)
                                   (RawPatch MergePatchType data) [])
                                (s, Some cause)])
        end.
Proof.
  intros Hdel Hpoll [watch Hwatch] Hrun.
  assert (allows any
            (λ hist out,
               secretsync.statusChanged out.1.2 = false
               ∧ ∃ a rest,
                   hist = Call (RemoveDynamicCacheLabel (secretsync.srcSecretRef ss)) a
                          :: rest
                   ∧ match out.2 with
                     | None =>
                         IgnoreNotFound a = None
                         ∧ ∃ fin,
                             rest = Call (Cache_Free ss) None :: fin
                             ∧ if controllerutil.ContainsFinalizer ss
                                    controllers.CachedFinalizer
                               then ∃ data,
                                      fin = [Call (Client_Patch
                                                     (controllerutil.RemoveFinalizer ss
                                                        controllers.CachedFinalizer)
                                                     (RawPatch MergePatchType data) [])
                                                  (out.1.1, None)]
                               else fin = [] ∧ out.1.1 = ss
                     | Some _ =>
                         (IgnoreNotFound a ≠ None ∧ rest = [])
                         ∨ (IgnoreNotFound a = None
                            ∧ ∃ cause, rest = [Call (Cache_Free ss) (Some cause)])
                         ∨ (IgnoreNotFound a = None
                            ∧ ∃ data s cause,
                                rest = [Call (Cache_Free ss) None;
                                        Call (Client_Patch
                                                (controllerutil.RemoveFinalizer ss
                                                   controllers.CachedFinalizer)
                                                (RawPatch MergePatchType data) [])
                                             (s, Some cause)])
                     end)
            [] (secretsync.deletionReconciler_Reconcile ss)) as Hshape.
  { unfold secretsync.deletionReconciler_Reconcile. rewrite Hdel, Hpoll, Hwatch.
    allows_call as a. rewrite app_nil_l.
    assert (IgnoreNotFound a = None ∨ ∃ e, IgnoreNotFound a = Some e ∧ a = Some e)
      as [Hnf | (e & Hnf & ->)].
    { destruct a as [e|]; [|left; reflexivity].
      unfold IgnoreNotFound. destruct (IsNotFound e); [left | right; exists e]; auto. }
    2:{ rewrite Hnf. simpl. split; [reflexivity |]. eexists _, [].
        split; [reflexivity |]. left. rewrite Hnf. split; [discriminate | reflexivity]. }
    assert (match IgnoreNotFound a, a with
            | Some _, Some err0 =>
                Ret (secretsync.fail ss
                       (fmt_Errorf "remove cache label from source secret: " err0 ""))
            | _, _ =>
                '(secretSync, err0) ← controllers.FreeCacheAndRemoveFinalizer ss;
                match err0 with
                | Some err1 =>
                    Ret (secretsync.fail secretSync
                           (fmt_Errorf "free cache and remove finalizer: " err1 ""))
                | None => Ret (secretsync.succeed secretSync)
                end
            end
            = ('(secretSync, err0) ← controllers.FreeCacheAndRemoveFinalizer ss;
               match err0 with
               | Some err1 =>
                   Ret (secretsync.fail secretSync
                          (fmt_Errorf "free cache and remove finalizer: " err1 ""))
               | None => Ret (secretsync.succeed secretSync)
               end)) as ->.
    { rewrite Hnf. reflexivity. }
    unfold controllers.FreeCacheAndRemoveFinalizer.
    eapply allows_bind with
      (Q' := λ hist' r,
         ∃ fin, hist' = [Call (RemoveDynamicCacheLabel (secretsync.srcSecretRef ss)) a]
                        ++ fin
                ∧ match r.2 with
                  | None =>
                      ∃ fin', fin = Call (Cache_Free ss) None :: fin'
                              ∧ if controllerutil.ContainsFinalizer ss
                                     controllers.CachedFinalizer
                                then ∃ data,
                                       fin' = [Call (Client_Patch
                                                       (controllerutil.RemoveFinalizer ss
                                                          controllers.CachedFinalizer)
                                                       (RawPatch MergePatchType data) [])
                                                    (r.1, None)]
                                else fin' = [] ∧ r.1 = ss
                  | Some _ =>
                      (∃ cause, fin = [Call (Cache_Free ss) (Some cause)])
                      ∨ (∃ data s cause,
                           fin = [Call (Cache_Free ss) None;
                                  Call (Client_Patch
                                          (controllerutil.RemoveFinalizer ss
                                             controllers.CachedFinalizer)
                                          (RawPatch MergePatchType data) [])
                                       (s, Some cause)])
                  end).
    { allows_call as [cause|].
      { simpl. eexists. split; [reflexivity |]. left. eexists. reflexivity. }
      eapply allows_mono; [|apply RemoveFinalizer_allows].
      intros hist' r Hr.
      destruct (controllerutil.ContainsFinalizer ss controllers.CachedFinalizer).
      - destruct Hr as (data & s & answer & -> & ->).
        eexists. rewrite <- app_assoc. split; [reflexivity |].
        destruct answer as [cause|]; simpl.
        + right. eexists _, _, _. reflexivity.
        + eexists. split; [reflexivity |]. eexists. reflexivity.
      - destruct Hr as [-> ->]. eexists. split; [reflexivity |]. simpl.
        eexists. split; [reflexivity |]. split; reflexivity. }
    intros hist' [s [e|]] (fin & -> & Hfin); cbn beta iota; simpl in Hfin; simpl.
    - split; [reflexivity |]. eexists _, _. split; [reflexivity |].
      right. destruct Hfin as [Hf | Hf]; [left | right]; (split; [exact Hnf | exact Hf]).
    - split; [reflexivity |]. eexists _, _. split; [reflexivity |].
      split; [exact Hnf | exact Hfin]. }
  destruct (allows_sound _ _ [] _ h w Hshape) as [_ Hq].
  specialize (Hq _ _ Hrun). rewrite app_nil_l in Hq. cbn [fst snd] in Hq.
  unfold secretsync.reconciled in *. exact Hq.
Qed.
End deletion_runs.

(** X11 on the scripted double: the label removal is answered NotFound, the
    rest without error. *)
Lemma deletionReconciler_cleans_up_in_order_witness :
  ∃ ss' res w' a fin,
    run fake.handle
      (secretsync.deletionReconciler_Reconcile
         (fake.secretSync false (Some 7) [controllers.CachedFinalizer] fake.watch))
      (fake.scripted [Some (StatusError StatusReasonNotFound "not found")])
    = Done (ss', res, None) w'
    ∧ transcript fake.handle
        (secretsync.deletionReconciler_Reconcile
           (fake.secretSync false (Some 7) [controllers.CachedFinalizer] fake.watch))
        (fake.scripted [Some (StatusError StatusReasonNotFound "not found")])
      = Call (RemoveDynamicCacheLabel
                (secretsync.srcSecretRef
                   (fake.secretSync false (Some 7) [controllers.CachedFinalizer]
                      fake.watch))) a
        :: Call (Cache_Free
                   (fake.secretSync false (Some 7) [controllers.CachedFinalizer]
                      fake.watch)) None
        :: fin
    ∧ IgnoreNotFound a = None.
Proof.
  eexists _, _, _.
  assert (run fake.handle
            (secretsync.deletionReconciler_Reconcile
               (fake.secretSync false (Some 7) [controllers.CachedFinalizer] fake.watch))
            (fake.scripted [Some (StatusError StatusReasonNotFound "not found")])
          = Done (_, _, None) _) as Hrun by reflexivity.
  destruct (deletionReconciler_cleans_up_in_order fake.handle _ _
              (fake.secretSync false (Some 7) [controllers.CachedFinalizer] fake.watch)
              _ _ None eq_refl eq_refl (mk_is_Some _ _ eq_refl) Hrun)
    as (_ & a & rest & Htr & Hnf & fin & -> & _).
  exists a, fin. split; [exact Hrun |]. split; [exact Htr | exact Hnf].
Defined.

Section strategies.
Variable K : v1alpha1.Constants.
Variable now : metav1.Time.

(** X12.  A SecretSync with neither a poll nor a watch strategy.
    [secretReconciler.Reconcile], unless the object is paused or deleting,
    panics with [ErrInvalidStrategy] before any call.
    [deletionReconciler.Reconcile] on a deleting object makes no call either
    and returns an error that wraps [ErrInvalidStrategy] and reads
    [invalid strategy: strategy not implemented]; on a live object it
    returns without error. *)
Theorem invalid_strategy_panics_or_fails {W} (h : handler op W) (w : W)
    (ss : v1alpha1.SecretSync) :
  v1alpha1.Poll (v1alpha1.Strategy (v1alpha1.Spec ss)) = None →
  v1alpha1.Watch (v1alpha1.Strategy (v1alpha1.Spec ss)) = None →
  (v1alpha1.Paused (v1alpha1.Spec ss)
   || negb (metav1.IsZero (metav1.DeletionTimestamp (v1alpha1.ObjectMeta ss))) = false →
   run h (secretsync.secretReconciler_Reconcile K now ss) w
   = Panicked secretsync.ErrInvalidStrategy w
   ∧ transcript h (secretsync.secretReconciler_Reconcile K now ss) w = [])
  ∧ transcript h (secretsync.deletionReconciler_Reconcile ss) w = []
  ∧ ∃ err,
      run h (secretsync.deletionReconciler_Reconcile ss) w
      = Done (ss, {| secretsync.statusChanged := false |}, err) w
      ∧ if metav1.IsZero (metav1.DeletionTimestamp (v1alpha1.ObjectMeta ss))
        then err = None
        else ∃ e, err = Some e
                  ∧ errors_Is e secretsync.ErrInvalidStrategy = true
                  ∧ Error e = "invalid strategy: strategy not implemented".
Proof.
  intros Hpoll Hwatch. split; [|split].
  - intros Hskip. unfold secretsync.secretReconciler_Reconcile.
    rewrite Hskip, Hwatch. cbn -[secretsync.srcReaderForStrategy].
    unfold secretsync.srcReaderForStrategy. rewrite Hwatch, Hpoll.
    split; reflexivity.
  - unfold secretsync.deletionReconciler_Reconcile. rewrite Hpoll, Hwatch.
    destruct (metav1.IsZero _); reflexivity.
  - unfold secretsync.deletionReconciler_Reconcile. rewrite Hpoll, Hwatch.
    destruct (metav1.IsZero _).
    + exists None. split; reflexivity.
    + eexists. split; [reflexivity |]. eexists. split; [reflexivity |].
      split; reflexivity.
Qed.

(** X13.  A SecretSync with both a poll and a watch strategy.
    [secretReconciler.Reconcile] treats it as watched: unless the object is
    paused or deleting, its first call adds the cached finalizer when it is
    missing, and else puts the cache label on the source secret.
    [deletionReconciler.Reconcile] treats it as polled: it makes no call and
    returns the object as it is, cached finalizer included. *)
Theorem both_strategies_watch_to_sync_poll_to_delete {W} (h : handler op W) (w : W)
    (ss : v1alpha1.SecretSync) :
  is_Some (v1alpha1.Poll (v1alpha1.Strategy (v1alpha1.Spec ss))) →
  is_Some (v1alpha1.Watch (v1alpha1.Strategy (v1alpha1.Spec ss))) →
  (v1alpha1.Paused (v1alpha1.Spec ss)
   || negb (metav1.IsZero (metav1.DeletionTimestamp (v1alpha1.ObjectMeta ss))) = false →
   if controllerutil.ContainsFinalizer ss controllers.CachedFinalizer
   then ∃ a rest,
          transcript h (secretsync.secretReconciler_Reconcile K now ss) w
          = Call (EnsureDynamicCacheLabel (secretsync.srcSecretRef ss)) a :: rest
   else ∃ data a rest,
          transcript h (secretsync.secretReconciler_Reconcile K now ss) w
          = Call (Client_Patch
                    (controllerutil.AddFinalizer ss controllers.CachedFinalizer)
                    (RawPatch MergePatchType data) []) a :: rest)
  ∧ transcript h (secretsync.deletionReconciler_Reconcile ss) w = []
  ∧ run h (secretsync.deletionReconciler_Reconcile ss) w
    = Done (ss, {| secretsync.statusChanged := false |}, None) w.
Proof.
  intros [poll Hpoll] [watch Hwatch]. split; [|split].
  - intros Hskip. unfold secretsync.secretReconciler_Reconcile.
    rewrite Hskip, Hwatch.
    unfold controllers.EnsureCachedFinalizer, controllers.EnsureFinalizer.
    destruct (controllerutil.ContainsFinalizer ss controllers.CachedFinalizer).
    + rewrite 2!transcript_bind. cbn [run transcript app]. cbn beta iota.
      rewrite transcript_bind, transcript_call. cbn [app].
      eexists _, _. reflexivity.
    + cbn [json_Marshal]. cbv zeta.
      rewrite 3!transcript_bind, transcript_call. cbn [app].
      eexists _, _, _. reflexivity.
  - unfold secretsync.deletionReconciler_Reconcile. rewrite Hpoll.
    destruct (metav1.IsZero _); reflexivity.
  - unfold secretsync.deletionReconciler_Reconcile. rewrite Hpoll.
    destruct (metav1.IsZero _); reflexivity.
Qed.
End strategies.

(** X12 at a SecretSync whose strategy names neither poll nor watch, live
    for the one reconciler and deleting for the other. *)
Lemma invalid_strategy_panics_or_fails_witness :
  run fake.handle
    (secretsync.secretReconciler_Reconcile fake.constants 100
       (fake.secretSync false None []
          {| v1alpha1.Poll := None; v1alpha1.Watch := None |}))
    (fake.scripted [])
  = Panicked secretsync.ErrInvalidStrategy (fake.scripted [])
  ∧ ∃ e,
      returned (run fake.handle
                  (secretsync.deletionReconciler_Reconcile
                     (fake.secretSync false (Some 7) []
                        {| v1alpha1.Poll := None; v1alpha1.Watch := None |}))
                  (fake.scripted []))
      = Some (fake.secretSync false (Some 7) []
                {| v1alpha1.Poll := None; v1alpha1.Watch := None |},
              {| secretsync.statusChanged := false |}, Some e)
      ∧ Error e = "invalid strategy: strategy not implemented".
Proof.
  split.
  - exact (proj1 (proj1 (invalid_strategy_panics_or_fails fake.constants 100 fake.handle
                           (fake.scripted [])
                           (fake.secretSync false None []
                              {| v1alpha1.Poll := None; v1alpha1.Watch := None |})
                           eq_refl eq_refl)
                    eq_refl)).
  - destruct (proj2 (proj2 (invalid_strategy_panics_or_fails fake.constants 100
                              fake.handle (fake.scripted [])
                              (fake.secretSync false (Some 7) []
                                 {| v1alpha1.Poll := None; v1alpha1.Watch := None |})
                              eq_refl eq_refl)))
      as (err & Hrun & e & -> & _ & Htext).
    exists e. rewrite Hrun. split; [reflexivity | exact Htext].
Defined.

(** X13 at a SecretSync with both strategies, finalized and deleting. *)
Lemma both_strategies_watch_to_sync_poll_to_delete_witness :
  transcript fake.handle
    (secretsync.deletionReconciler_Reconcile
       (fake.secretSync false (Some 7) [controllers.CachedFinalizer]
          {| v1alpha1.Poll := Some {| v1alpha1.Interval := 60 |};
             v1alpha1.Watch := Some v1alpha1.Build_SecretSyncStrategyWatch |}))
    (fake.scripted [])
  = [].
Proof.
  exact (proj1 (proj2 (both_strategies_watch_to_sync_poll_to_delete fake.constants 100
                         fake.handle (fake.scripted [])
                         (fake.secretSync false (Some 7) [controllers.CachedFinalizer]
                            {| v1alpha1.Poll := Some {| v1alpha1.Interval := 60 |};
                               v1alpha1.Watch :=
                                 Some v1alpha1.Build_SecretSyncStrategyWatch |})
                         (mk_is_Some _ _ eq_refl) (mk_is_Some _ _ eq_refl)))).
Defined.

Section pausing.
Variable K : v1alpha1.Constants.
Variable now : metav1.Time.

(** X14.  [pauseReconciler.Reconcile] makes no call and returns no error;
    spec, metadata and [ControllerOf] come back as they were.  A deleting
    object comes back untouched.  Otherwise the Paused condition is True
    with reason SpecSaysPaused when the spec says paused, False with
    SpecSaysUnpaused when not, observed at the object's generation, and
    every other condition stays in its place.  A paused object ends in phase
    Paused; an unpaused one stays in phase Paused if it was there, and ends
    in phase Sync from any other phase.  [statusChanged] is false exactly
    when the conditions are left as they were and the phase was Paused. *)
Theorem pauseReconciler_sets_condition_and_phase {W} (h : handler op W) (w : W)
    (ss : v1alpha1.SecretSync) :
  transcript h (secretsync.pauseReconciler_Reconcile K now ss) w = []
  ∧ ∃ ss' res,
      run h (secretsync.pauseReconciler_Reconcile K now ss) w = Done (ss', res, None) w
      ∧ v1alpha1.Spec ss' = v1alpha1.Spec ss
      ∧ v1alpha1.ObjectMeta ss' = v1alpha1.ObjectMeta ss
      ∧ v1alpha1.ControllerOf (v1alpha1.Status ss')
        = v1alpha1.ControllerOf (v1alpha1.Status ss)
      ∧ if metav1.IsZero (metav1.DeletionTimestamp (v1alpha1.ObjectMeta ss))
        then
          (∃ i c,
             meta.FindStatusCondition (v1alpha1.Conditions (v1alpha1.Status ss'))
               (v1alpha1.SecretSyncPaused K) = Some i
             ∧ v1alpha1.Conditions (v1alpha1.Status ss') !! i = Some c
             ∧ metav1.Status c
               = (if v1alpha1.Paused (v1alpha1.Spec ss)
                  then metav1.ConditionTrue else metav1.ConditionFalse)
             ∧ metav1.Reason c
               = (if v1alpha1.Paused (v1alpha1.Spec ss)
                  then "SpecSaysPaused" else "SpecSaysUnpaused")
             ∧ metav1.ObservedGeneration c
               = metav1.Generation (v1alpha1.ObjectMeta ss))
          ∧ (∀ j d,
               v1alpha1.Conditions (v1alpha1.Status ss) !! j = Some d →
               metav1.Type_ d ≠ v1alpha1.SecretSyncPaused K →
               v1alpha1.Conditions (v1alpha1.Status ss') !! j = Some d)
          ∧ v1alpha1.Phase (v1alpha1.Status ss')
            = (if v1alpha1.Paused (v1alpha1.Spec ss)
               then v1alpha1.SecretSyncStatusPhasePaused K
               else if String.eqb (v1alpha1.Phase (v1alpha1.Status ss))
                         (v1alpha1.SecretSyncStatusPhasePaused K)
                    then v1alpha1.SecretSyncStatusPhasePaused K
                    else v1alpha1.SecretSyncStatusPhaseSync K)
          ∧ (secretsync.statusChanged res = false
             ↔ v1alpha1.Conditions (v1alpha1.Status ss')
               = v1alpha1.Conditions (v1alpha1.Status ss)
               ∧ v1alpha1.Phase (v1alpha1.Status ss)
                 = v1alpha1.SecretSyncStatusPhasePaused K)
        else ss' = ss ∧ secretsync.statusChanged res = false.
Proof.
  unfold secretsync.pauseReconciler_Reconcile.
  destruct (metav1.IsZero (metav1.DeletionTimestamp (v1alpha1.ObjectMeta ss))).
  2:{ simpl. split; [reflexivity |]. eexists _, _. repeat split. }
  cbn [negb]. cbv zeta.
  pose proof (SetStatusCondition_changed now
                (v1alpha1.Conditions (v1alpha1.Status ss))
                {| metav1.Type_ := v1alpha1.SecretSyncPaused K;
                   metav1.Status :=
                     secretsync.pausedBoolToConditionBool
                       (v1alpha1.Paused (v1alpha1.Spec ss));
                   metav1.Reason :=
                     secretsync.pausedBoolToConditionReason
                       (v1alpha1.Paused (v1alpha1.Spec ss));
                   metav1.Message := "";
                   metav1.ObservedGeneration :=
                     metav1.Generation (v1alpha1.ObjectMeta ss);
                   metav1.LastTransitionTime := 0 |}) as Hchanged.
  pose proof (SetStatusCondition_find_same now
                (v1alpha1.Conditions (v1alpha1.Status ss))
                {| metav1.Type_ := v1alpha1.SecretSyncPaused K;
                   metav1.Status :=
                     secretsync.pausedBoolToConditionBool
                       (v1alpha1.Paused (v1alpha1.Spec ss));
                   metav1.Reason :=
                     secretsync.pausedBoolToConditionReason
                       (v1alpha1.Paused (v1alpha1.Spec ss));
                   metav1.Message := "";
                   metav1.ObservedGeneration :=
                     metav1.Generation (v1alpha1.ObjectMeta ss);
                   metav1.LastTransitionTime := 0 |})
    as (i & c & Hf & Hl & _ & Hs & Hr & _ & Hg).
  pose proof (λ j d, SetStatusCondition_lookup_other now
                (v1alpha1.Conditions (v1alpha1.Status ss))
                {| metav1.Type_ := v1alpha1.SecretSyncPaused K;
                   metav1.Status :=
                     secretsync.pausedBoolToConditionBool
                       (v1alpha1.Paused (v1alpha1.Spec ss));
                   metav1.Reason :=
                     secretsync.pausedBoolToConditionReason
                       (v1alpha1.Paused (v1alpha1.Spec ss));
                   metav1.Message := "";
                   metav1.ObservedGeneration :=
                     metav1.Generation (v1alpha1.ObjectMeta ss);
                   metav1.LastTransitionTime := 0 |} d j) as Hother.
  destruct (meta.SetStatusCondition _ _ _) as [conditions condChanged].
  cbn [fst snd] in *. simpl in Hs, Hr, Hg, Hother.
  split; [reflexivity |]. eexists _, _. split; [reflexivity |].
  cbn [v1alpha1.withStatus v1alpha1.Spec v1alpha1.ObjectMeta v1alpha1.Status
       v1alpha1.ControllerOf v1alpha1.Conditions v1alpha1.Phase
       secretsync.statusChanged].
  split; [reflexivity |]. split; [reflexivity |]. split; [reflexivity |].
  split; [|split; [|split]].
  - exists i, c. split; [exact Hf |]. split; [exact Hl |].
    rewrite Hs, Hr, Hg. unfold secretsync.pausedBoolToConditionBool,
      secretsync.pausedBoolToConditionReason.
    destruct (v1alpha1.Paused (v1alpha1.Spec ss)); auto.
  - intros j d Hj Hd. apply Hother; assumption.
  - destruct (v1alpha1.Paused (v1alpha1.Spec ss)); simpl;
      destruct (String.eqb_spec (v1alpha1.Phase (v1alpha1.Status ss))
                  (v1alpha1.SecretSyncStatusPhasePaused K)) as [Heq | Hne];
      simpl; auto.
  - rewrite orb_false_iff, Hchanged.
    destruct (v1alpha1.Paused (v1alpha1.Spec ss)); simpl;
      destruct (String.eqb_spec (v1alpha1.Phase (v1alpha1.Status ss))
                  (v1alpha1.SecretSyncStatusPhasePaused K)) as [Heq | Hne];
      simpl; intuition congruence.
Qed.
End pausing.

(* ===================================================================== *)
(** ** [package bootstrap]: the initializer *)
(* ===================================================================== *)

Section bootstrap_runs.
Context `{bootstrap.Externals}.
Import bootstrap.

Local Abbreviation any := (λ (_ : list (entry op)) (_ : entry op), True).

Lemma ensurePKODeploymentGone_allows (init : initializer) (hist : list (entry op)) :
  allows any (λ hist' err, ∃ tr, hist' = hist ++ tr ∧ shutsDown init tr err)
         hist (ensurePKODeploymentGone init).
Proof.
  unfold ensurePKODeploymentGone. cbv zeta.
  fold (pkoDeployment init).
  allows_call as [e|].
  - destruct (IsNotFound e) eqn:Hnf; simpl; eexists; (split; [reflexivity |]);
      left; exists e; rewrite Hnf; split; reflexivity.
  - intros a. split; [exact I |]. simpl. eexists. rewrite <- app_assoc.
    split; [reflexivity |]. right. reflexivity.
Qed.

(** X15.  [ensurePKODeploymentGone] first deletes the operator's
    deployment, by namespace and name, with foreground propagation.  It
    waits for the deployment to be gone (every two seconds, for two minutes
    at most) only after that delete was answered without error, and then
    returns what the wait answered; after NotFound it returns no error
    without waiting, after any other error that error as it is.  There is no
    other call. *)
Theorem ensurePKODeploymentGone_deletes_then_waits {W} (h : handler op W) (w : W)
    (init : initializer) :
  ∃ err w' a rest,
    run h (ensurePKODeploymentGone init) w = Done err w'
    ∧ transcript h (ensurePKODeploymentGone init) w
      = Call (Client_Delete
                {| DeploymentMeta :=
                     metav1.ObjectMeta_of (packageOperatorNamespace init)
                       packageOperatorDeploymentName ∅ |}
                DeletePropagationForeground) a
        :: rest
    ∧ match a with
      | Some e => rest = [] ∧ err = if IsNotFound e then None else Some e
      | None =>
          rest = [Call (Waiter_WaitToBeGone (2 * 1000000000) (120 * 1000000000)
                          {| DeploymentMeta :=
                               metav1.ObjectMeta_of (packageOperatorNamespace init)
                                 packageOperatorDeploymentName ∅ |})
                       err]
      end.
Proof.
  unfold ensurePKODeploymentGone. cbv zeta.
  rewrite run_bind, transcript_bind, run_call, transcript_call.
  destruct (h _ (Client_Delete _ _) w) as [[e|] w1]; cbn [fst snd].
  - destruct (IsNotFound e) eqn:Hnf; eexists _, _, (Some e), [];
      (split; [reflexivity |]); (split; [reflexivity |]);
      rewrite Hnf; split; reflexivity.
  - rewrite run_call, transcript_call. eexists _, _, _, _.
    split; [reflexivity |]. split; [reflexivity |]. reflexivity.
Qed.
End bootstrap_runs.

Section bootstrap_decisions.
Context `{bootstrap.Externals}.
Import bootstrap.

Local Abbreviation any := (λ (_ : list (entry op)) (_ : entry op), True).

Lemma ensureUpdatedPKO_allows (init : initializer) (hist : list (entry op)) :
  allows any (λ hist' out, ∃ tr, hist' = hist ++ tr ∧ decides init tr out)
         hist (ensureUpdatedPKO init).
Proof.
  unfold ensureUpdatedPKO. cbv zeta.
  allows_call as [existing [e|]].
  - destruct (IsNotFound e) eqn:Hnf.
    + allows_call as created. simpl. eexists. rewrite <- app_assoc.
      split; [reflexivity |]. eexists existing, (Some e), _.
      split; [reflexivity |]. rewrite Hnf. eexists. split; reflexivity.
    + simpl. eexists. split; [reflexivity |]. eexists existing, (Some e), _.
      split; [reflexivity |]. rewrite Hnf. split; reflexivity.
  - destruct (Semantic_DeepEqual (Spec (newPKOClusterPackage init)) (Spec existing))
      eqn:Heq.
    + allows_call as [isAvailable [e|]].
      { simpl. eexists. rewrite <- app_assoc. split; [reflexivity |].
        eexists existing, None, _. split; [reflexivity |]. rewrite Heq.
        eexists isAvailable, (Some e), _. split; [reflexivity |]. split; reflexivity. }
      destruct isAvailable.
      { simpl. eexists. rewrite <- app_assoc. split; [reflexivity |].
        eexists existing, None, _. split; [reflexivity |]. rewrite Heq.
        eexists true, None, _. split; [reflexivity |]. split; reflexivity. }
      eapply allows_bind; [apply ensurePKODeploymentGone_allows |].
      intros hist' err (down & -> & Hdown).
      assert (∃ tr, ((hist ++ [Call (Client_Get
                                       {| types.Namespace := "";
                                          types.Name := packageOperatorClusterPackageName |}
                                       {| ObjectMeta := metav1.ObjectMeta_of "" "" ∅;
                                          Spec := PackageSpec_zero |})
                                    (existing, None)])
                     ++ [Call (IsPKOAvailable (packageOperatorNamespace init))
                              (false, None)]) ++ down
                    = hist ++ tr
                    ∧ decides init tr
                        match err with
                        | Some e => (false, Some e)
                        | None => (true, None)
                        end) as Hgoal.
      { eexists. rewrite <- !app_assoc. split; [reflexivity |].
        eexists existing, None, _. split; [reflexivity |]. rewrite Heq.
        eexists false, None, _. split; [reflexivity |].
        exists err. split; [exact Hdown | reflexivity]. }
      destruct err; simpl; exact Hgoal.
    + eapply allows_bind; [apply ensurePKODeploymentGone_allows |].
      intros hist' [e|] (down & -> & Hdown).
      { simpl. eexists. rewrite <- !app_assoc. split; [reflexivity |].
        eexists existing, None, _. split; [reflexivity |]. rewrite Heq.
        exists down, (Some e), []. rewrite app_nil_r.
        split; [reflexivity |]. split; [exact Hdown |]. split; reflexivity. }
      allows_call as patched.
      assert (∃ tr, ((hist ++ [Call (Client_Get
                                       {| types.Namespace := "";
                                          types.Name := packageOperatorClusterPackageName |}
                                       {| ObjectMeta := metav1.ObjectMeta_of "" "" ∅;
                                          Spec := PackageSpec_zero |})
                                    (existing, None)]) ++ down)
                    ++ [Call (Client_MergePatch (newPKOClusterPackage init)) patched]
                    = hist ++ tr
                    ∧ decides init tr
                        match patched with
                        | Some e => (false, Some e)
                        | None => (true, None)
                        end) as Hgoal.
      { eexists. rewrite <- !app_assoc. split; [reflexivity |].
        eexists existing, None, _. split; [reflexivity |]. rewrite Heq.
        eexists down, None, _. split; [reflexivity |]. split; [exact Hdown |].
        exists patched. split; reflexivity. }
      destruct patched; simpl; exact Hgoal.
Qed.
End bootstrap_decisions.

Section returning.
Context {E : Type → Type}.

Lemma never_panics_bind {A B} (m : prog E A) (f : A → prog E B) :
  never_panics m → (∀ a, never_panics (f a)) → never_panics (m ≫= f).
Proof.
  intros Hm Hf. unfold mbind, prog_bind.
  induction m as [a | v | X c k IH]; simpl in *.
  - apply Hf.
  - exact Hm.
  - intros x. apply IH. apply Hm.
Qed.

Lemma never_panics_call {X} (c : E X) : never_panics (call c).
Proof. intros x. exact I. Qed.

Lemma never_panics_returns {A W} (m : prog E A) (h : handler E W) (w : W) :
  never_panics m → ∃ a w', run h m w = Done a w'.
Proof.
  revert w. induction m as [a | v | X c k IH]; intros w Hm; simpl in *.
  - eauto.
  - destruct Hm.
  - destruct (h _ c w) as [x w1]. apply IH. apply Hm.
Qed.
End returning.

Section bootstrap_results.
Context `{bootstrap.Externals}.
Import bootstrap.

Lemma ensurePKODeploymentGone_returns (init : initializer) :
  never_panics (ensurePKODeploymentGone init).
Proof.
  unfold ensurePKODeploymentGone. cbv zeta.
  apply never_panics_bind; [apply never_panics_call |].
  intros [e|]; [destruct (IsNotFound e); exact I | apply never_panics_call].
Qed.

Lemma ensureUpdatedPKO_returns (init : initializer) :
  never_panics (ensureUpdatedPKO init).
Proof.
  unfold ensureUpdatedPKO. cbv zeta.
  apply never_panics_bind; [apply never_panics_call |].
  intros [existing [e|]].
  - destruct (IsNotFound e); [|exact I].
    apply never_panics_bind; [apply never_panics_call | intros; exact I].
  - destruct (Semantic_DeepEqual _ _).
    + apply never_panics_bind; [apply never_panics_call |].
      intros [[|] [e|]]; try exact I.
      apply never_panics_bind; [apply ensurePKODeploymentGone_returns |].
      intros [e|]; exact I.
    + apply never_panics_bind; [apply ensurePKODeploymentGone_returns |].
      intros [e|]; [exact I |].
      apply never_panics_bind; [apply never_panics_call |].
      intros [e|]; exact I.
Qed.

(** Every run of [ensureUpdatedPKO] returns, along one of the ways of
    [decides]. *)
Lemma ensureUpdatedPKO_decides {W} (h : handler op W) (w : W) (init : initializer) :
  ∃ out w', run h (ensureUpdatedPKO init) w = Done out w'
            ∧ decides init (transcript h (ensureUpdatedPKO init) w) out.
Proof.
  destruct (never_panics_returns _ h w (ensureUpdatedPKO_returns init))
    as (out & w' & Hrun).
  exists out, w'. split; [exact Hrun |].
  destruct (allows_sound _ _ [] _ h w (ensureUpdatedPKO_allows init [])) as [_ Hq].
  destruct (Hq _ _ Hrun) as (tr & Htr & Hd). rewrite !app_nil_l in Htr.
  rewrite Htr. exact Hd.
Qed.

(** X16.  What the result of [ensureUpdatedPKO] means; it always returns.
    It returns [false] without error exactly when the ClusterPackage was
    found with a spec equal to the bootstrap package's and the operator was
    reported available, and these are then the only two calls.  It returns
    [true] together with an error only when the ClusterPackage was not found
    and creating it failed.  An error returned is always what the last call
    was answered with, as it is. *)
Theorem ensureUpdatedPKO_result {W} (h : handler op W) (w : W) (init : initializer) :
  ∃ needsBootstrap err w',
    run h (ensureUpdatedPKO init) w = Done (needsBootstrap, err) w'
    ∧ ((needsBootstrap = false ∧ err = None)
       ↔ ∃ existing,
           transcript h (ensureUpdatedPKO init) w
           = [Call (Client_Get
                      {| types.Namespace := ""; types.Name := "package-operator" |}
                      {| ObjectMeta := metav1.ObjectMeta_of "" "" ∅;
                         Spec := PackageSpec_zero |})
                   (existing, None);
              Call (IsPKOAvailable (packageOperatorNamespace init)) (true, None)]
           ∧ Semantic_DeepEqual (Spec (newPKOClusterPackage init)) (Spec existing)
             = true)
    ∧ (∀ e, needsBootstrap = true → err = Some e →
         ∃ existing notFound,
           IsNotFound notFound = true
           ∧ transcript h (ensureUpdatedPKO init) w
             = [Call (Client_Get
                        {| types.Namespace := ""; types.Name := "package-operator" |}
                        {| ObjectMeta := metav1.ObjectMeta_of "" "" ∅;
                           Spec := PackageSpec_zero |})
                     (existing, Some notFound);
                Call (Client_Create (newPKOClusterPackage init)) (Some e)])
    ∧ (∀ e, err = Some e →
         ∃ call, last (transcript h (ensureUpdatedPKO init) w) = Some call
                 ∧ answered call = Some e).
Proof.
  destruct (ensureUpdatedPKO_decides h w init) as ([needsBootstrap err] & w' & Hrun & Hd).
  exists needsBootstrap, err, w'. split; [exact Hrun |].
  destruct Hd as (existing & a & rest & Htr & Hcases). rewrite Htr. clear Htr Hrun.
  change packageOperatorClusterPackageName with "package-operator".
  assert (∀ (l : list (entry op)) (ex : ClusterPackage),
            l = [Call (Client_Get
                         {| types.Namespace := ""; types.Name := "package-operator" |}
                         {| ObjectMeta := metav1.ObjectMeta_of "" "" ∅;
                            Spec := PackageSpec_zero |})
                      (ex, None);
                 Call (IsPKOAvailable (packageOperatorNamespace init)) (true, None)] →
            (λ e, (answered e, reported e)) <$> l
            = [(None, None); (None, Some true)]) as Hview.
  { intros l ex ->. reflexivity. }
  assert (∀ down e, shutsDown init down (Some e) →
            ∃ call, last down = Some call ∧ answered call = Some e) as Hfailed.
  { intros down e [(e0 & -> & He) | ->].
    - destruct (IsNotFound e0); [discriminate |]. injection He as <-.
      eexists. split; reflexivity.
    - eexists. split; reflexivity. }
  destruct a as [e|].
  - destruct (IsNotFound e) eqn:Hnf.
    + destruct Hcases as (created & -> & [= -> ->]). split; [|split].
      * split; [intros [[=] _] |].
        intros (ex & Htr & _). apply Hview in Htr. discriminate.
      * intros e' _ ->. exists existing, e. split; [exact Hnf | reflexivity].
      * intros e' ->. eexists. split; reflexivity.
    + destruct Hcases as (-> & [= -> ->]). split; [|split].
      * split; [intros [_ [=]] |].
        intros (ex & Htr & _). apply Hview in Htr. discriminate.
      * intros e' [=].
      * intros e' [= <-]. eexists. split; reflexivity.
  - destruct (Semantic_DeepEqual _ _) eqn:Heq.
    + destruct Hcases as (isAvailable & answer & rest' & -> & Hrest).
      destruct answer as [e|]; [|destruct isAvailable].
      * destruct Hrest as (-> & [= -> ->]). split; [|split].
        -- split; [intros [_ [=]] |].
           intros (ex & Htr & _). apply Hview in Htr. discriminate.
        -- intros e' [=].
        -- intros e' [= <-]. eexists. split; reflexivity.
      * destruct Hrest as (-> & [= -> ->]). split; [|split].
        -- split; [intros _; exists existing; split; [reflexivity | exact Heq] | auto].
        -- intros e' [=].
        -- intros e' [=].
      * destruct Hrest as (err' & Hdown & Hout). split; [|split].
        -- split.
           ++ intros [-> ->]. destruct err'; discriminate.
           ++ intros (ex & Htr & _). apply Hview in Htr. discriminate.
        -- intros e' -> ->. destruct err'; discriminate.
        -- intros e' ->. destruct err' as [e|]; [|discriminate].
           injection Hout as _ <-.
           destruct (Hfailed _ _ Hdown) as (call & Hlast & Hans).
           exists call. split; [|exact Hans].
           destruct Hdown as [(e0 & -> & _) | ->]; exact Hlast.
    + destruct Hcases as (down & err' & rest' & -> & Hdown & Hrest). split; [|split].
      * split.
        -- intros [-> ->]. destruct err' as [e|].
           ++ destruct Hrest as [_ [=]].
           ++ destruct Hrest as (patched & _ & Hout). destruct patched; discriminate.
        -- intros (ex & Htr & _). apply Hview in Htr.
           destruct Hdown as [(e & -> & _) | ->]; discriminate.
      * intros e' -> ->. destruct err' as [e|].
        -- destruct Hrest as [_ [=]].
        -- destruct Hrest as (patched & _ & Hout). destruct patched; discriminate.
      * intros e' ->. destruct err' as [e|].
        -- destruct Hrest as (-> & [= _ <-]). rewrite app_nil_r.
           destruct (Hfailed _ _ Hdown) as (call & Hlast & Hans).
           exists call. split; [|exact Hans].
           destruct Hdown as [(e0 & -> & _) | ->]; exact Hlast.
        -- destruct Hrest as (patched & -> & Hout).
           destruct patched as [e|]; [|discriminate]. injection Hout as _ <-.
           exists (Call (Client_MergePatch (newPKOClusterPackage init)) (Some e')).
           split; [|reflexivity].
           destruct Hdown as [(e0 & -> & _) | ->]; reflexivity.
Qed.
End bootstrap_results.

Lemma split_cons {A} (x : A) (l pre : list A) (e : A) (post : list A) :
  x :: l = pre ++ e :: post →
  (pre = [] ∧ x = e ∧ l = post) ∨ ∃ pre', pre = x :: pre' ∧ l = pre' ++ e :: post.
Proof.
  destruct pre as [|p pre]; simpl; intros Heq; injection Heq as -> ->.
  - left. auto.
  - right. eauto.
Qed.

Lemma split_nil {A} (pre : list A) (e : A) (post : list A) :
  [] = pre ++ e :: post → False.
Proof. destruct pre; discriminate. Qed.

(** The places of an explicit list at which an entry can sit. *)
Ltac places H :=
  lazymatch type of H with
  | [] = _ ++ _ :: _ => destruct (split_nil _ _ _ H)
  | _ :: _ = _ ++ _ :: _ =>
      let pre' := fresh "pre" in
      apply split_cons in H as [(-> & <- & <-) | (pre' & -> & H)];
      [|places H]
  end.

Section bootstrap_writes.
Context `{bootstrap.Externals}.
Import bootstrap.

(** X17.  The writes of [ensureUpdatedPKO] to the ClusterPackage.  A
    [Create] or a merge [Patch] is always sent for the bootstrap package and
    is the last call of the run.  It is created only right after [Get]
    answered NotFound.  It is patched only when [Get] found a package whose
    spec differs from the bootstrap package's, and only after the operator
    was shut down without error: the foreground delete of its deployment
    answered NotFound, or answered without error and the wait for the
    deployment to be gone did too. *)
Theorem ensureUpdatedPKO_writes_the_bootstrap_package {W} (h : handler op W) (w : W)
    (init : initializer) (pre : list (entry op)) (e : entry op)
    (post : list (entry op)) (obj : ClusterPackage) :
  transcript h (ensureUpdatedPKO init) w = pre ++ e :: post →
  (creates e = Some obj →
   obj = newPKOClusterPackage init ∧ post = []
   ∧ ∃ existing notFound,
       IsNotFound notFound = true
       ∧ pre = [Call (Client_Get
                        {| types.Namespace := ""; types.Name := "package-operator" |}
                        {| ObjectMeta := metav1.ObjectMeta_of "" "" ∅;
                           Spec := PackageSpec_zero |})
                     (existing, Some notFound)])
  ∧ (patches e = Some obj →
     obj = newPKOClusterPackage init ∧ post = []
     ∧ ∃ existing down,
         pre = Call (Client_Get
                       {| types.Namespace := ""; types.Name := "package-operator" |}
                       {| ObjectMeta := metav1.ObjectMeta_of "" "" ∅;
                          Spec := PackageSpec_zero |})
                    (existing, None)
               :: down
         ∧ Semantic_DeepEqual (Spec (newPKOClusterPackage init)) (Spec existing) = false
         ∧ shutsDown init down None).
Proof.
  intros Hsplit.
  destruct (ensureUpdatedPKO_decides h w init) as (out & w' & _ & Hd).
  destruct Hd as (existing & a & rest & Htr & Hcases).
  rewrite Htr in Hsplit. clear Htr.
  change packageOperatorClusterPackageName with "package-operator" in Hsplit.
  destruct a as [err|].
  - destruct (IsNotFound err) eqn:Hnf.
    + destruct Hcases as (created & -> & _). places Hsplit.
      * split; discriminate.
      * split; [|discriminate]. intros [= <-].
        split; [reflexivity |]. split; [reflexivity |].
        exists existing, err. split; [exact Hnf | reflexivity].
    + destruct Hcases as (-> & _). places Hsplit. split; discriminate.
  - destruct (Semantic_DeepEqual _ _) eqn:Heq.
    + destruct Hcases as (isAvailable & answer & rest' & -> & Hrest).
      destruct answer as [err|]; [|destruct isAvailable].
      * destruct Hrest as (-> & _). places Hsplit; split; discriminate.
      * destruct Hrest as (-> & _). places Hsplit; split; discriminate.
      * destruct Hrest as (err' & [(e0 & -> & _) | ->] & _);
          places Hsplit; split; discriminate.
    + destruct Hcases as (down & err' & rest' & -> & Hdown & Hrest).
      destruct err' as [err|].
      * destruct Hrest as (-> & _).
        destruct Hdown as [(e0 & -> & _) | ->]; simpl in Hsplit;
          places Hsplit; split; discriminate.
      * destruct Hrest as (patched & -> & _).
        pose proof Hdown as Hdown'.
        destruct Hdown as [(e0 & -> & He0) | ->]; simpl in Hsplit;
          places Hsplit; (split; [discriminate |]); try discriminate;
          intros [= <-]; (split; [reflexivity |]); (split; [reflexivity |]);
          eexists existing, _; (split; [reflexivity |]);
          (split; [exact Heq | exact Hdown']).
Qed.
End bootstrap_writes.

(** X17 on the sample cluster, whose ClusterPackage names an older image:
    the package is patched after the delete of the deployment was answered
    NotFound. *)
Lemma ensureUpdatedPKO_writes_the_bootstrap_package_witness :
  transcript sampleCluster.handle
    (@bootstrap.ensureUpdatedPKO sampleCluster.externals sampleCluster.init)
    sampleCluster.outdated
  = [Call (bootstrap.Client_Get
             {| types.Namespace := ""; types.Name := "package-operator" |}
             sampleCluster.empty)
          (sampleCluster.package "quay.io/package-operator/package:v1", None);
     Call (bootstrap.Client_Delete
             (@bootstrap.pkoDeployment sampleCluster.externals sampleCluster.init)
             bootstrap.DeletePropagationForeground)
          (Some sampleCluster.notFound)]
    ++ Call (bootstrap.Client_MergePatch
               (sampleCluster.package "quay.io/package-operator/package:v2")) None
    :: []
  ∧ ∃ down,
      @bootstrap.shutsDown sampleCluster.externals sampleCluster.init down None.
Proof.
  assert (transcript sampleCluster.handle
            (@bootstrap.ensureUpdatedPKO sampleCluster.externals sampleCluster.init)
            sampleCluster.outdated
          = [Call (bootstrap.Client_Get
                     {| types.Namespace := ""; types.Name := "package-operator" |}
                     sampleCluster.empty)
                  (sampleCluster.package "quay.io/package-operator/package:v1", None);
             Call (bootstrap.Client_Delete
                     (@bootstrap.pkoDeployment sampleCluster.externals
                        sampleCluster.init)
                     bootstrap.DeletePropagationForeground)
                  (Some sampleCluster.notFound)]
            ++ Call (bootstrap.Client_MergePatch
                       (sampleCluster.package "quay.io/package-operator/package:v2"))
                    None
            :: []) as Htr by reflexivity.
  split; [exact Htr |].
  destruct (proj2 (@ensureUpdatedPKO_writes_the_bootstrap_package
                     sampleCluster.externals _ sampleCluster.handle
                     sampleCluster.outdated sampleCluster.init _ _ _
                     (sampleCluster.package "quay.io/package-operator/package:v2")
                     Htr) eq_refl)
    as (_ & _ & existing & down & _ & _ & Hdown).
  exists down. exact Hdown.
Defined.

Section bootstrap_crds.
Context `{bootstrap.Externals}.
Import bootstrap.

Local Abbreviation any := (λ (_ : list (entry op)) (_ : entry op), True).

(** [c] is the create of [crd] with the cache label, answered without
    error or with AlreadyExists. *)
Local Abbreviation installs :=
  (λ (crd : Unstructured) (c : entry op),
     ∃ a, c = Call (Client_CreateCRD (cached crd)) a ∧ tolerated a).

Lemma ensureCRDs_returns (crds : list Unstructured) : never_panics (ensureCRDs crds).
Proof.
  induction crds as [|crd rest IH]; [exact I |].
  cbn [ensureCRDs]. cbv zeta.
  apply never_panics_bind; [apply never_panics_call |].
  intros [e|]; [|exact IH]. destruct (IsAlreadyExists e); [exact IH | exact I].
Qed.

Lemma ensureCRDs_allows (crds : list Unstructured) (hist : list (entry op)) :
  allows any
    (λ hist' err,
       ∃ tr, hist' = hist ++ tr
             ∧ match err with
               | None => Forall2 installs crds tr
               | Some e =>
                   IsAlreadyExists e = false
                   ∧ ∃ done crd rest trd,
                       crds = done ++ crd :: rest
                       ∧ tr = trd ++ [Call (Client_CreateCRD (cached crd)) (Some e)]
                       ∧ Forall2 installs done trd
               end)
    hist (ensureCRDs crds).
Proof.
  revert hist. induction crds as [|crd rest IH]; intros hist.
  - simpl. exists []. rewrite app_nil_r. split; [reflexivity | constructor].
  - cbn [ensureCRDs]. cbv zeta. fold (cached crd). allows_call as a.
    assert (tolerated a →
            allows any
              (λ hist' err,
                 ∃ tr, hist' = hist ++ tr
                       ∧ match err with
                         | None => Forall2 installs (crd :: rest) tr
                         | Some e =>
                             IsAlreadyExists e = false
                             ∧ ∃ done crd0 rest0 trd,
                                 crd :: rest = done ++ crd0 :: rest0
                                 ∧ tr = trd ++ [Call (Client_CreateCRD (cached crd0))
                                                     (Some e)]
                                 ∧ Forall2 installs done trd
                         end)
              (hist ++ [Call (Client_CreateCRD (cached crd)) a])
              (ensureCRDs rest)) as Hgo.
    { intros Hok. eapply allows_mono; [|apply IH].
      intros hist' err (tr & -> & Hshape). eexists. rewrite <- app_assoc.
      split; [reflexivity |]. destruct err as [e|].
      - destruct Hshape as (Hne & done & crd0 & rest0 & trd & -> & -> & Hdone).
        split; [exact Hne |].
        exists (crd :: done), crd0, rest0,
          (Call (Client_CreateCRD (cached crd)) a :: trd).
        split; [reflexivity |]. split; [reflexivity |].
        constructor; [|exact Hdone]. exists a. split; [reflexivity | exact Hok].
      - constructor; [|exact Hshape]. exists a. split; [reflexivity | exact Hok]. }
    destruct a as [e|]; [|apply Hgo; exact I].
    destruct (IsAlreadyExists e) eqn:Hae; [apply Hgo; exact Hae |].
    simpl. eexists. split; [reflexivity |]. split; [exact Hae |].
    exists [], crd, rest, []. split; [reflexivity |]. split; [reflexivity | constructor].
Qed.

(** X18.  [ensureCRDs] always returns.  It creates the CRDs in the order
    given, each with the dynamic cache label set to True on top of the
    labels it had, and goes on after an answer without error or with
    AlreadyExists.  It returns no error exactly when every CRD was so
    created; else it stops at the first create answered otherwise and
    returns that error as it is. *)
Theorem ensureCRDs_creates_in_order {W} (h : handler op W) (w : W)
    (crds : list Unstructured) :
  ∃ err w',
    run h (ensureCRDs crds) w = Done err w'
    ∧ match err with
      | None =>
          Forall2 (λ crd c,
                     ∃ a, c = Call (Client_CreateCRD
                                      (SetLabels
                                         (<[controllers.DynamicCacheLabel := "True"]>
                                            (default ∅ (Labels crd))) crd)) a
                          ∧ match a with
                            | None => True
                            | Some e => IsAlreadyExists e = true
                            end)
                  crds (transcript h (ensureCRDs crds) w)
      | Some e =>
          IsAlreadyExists e = false
          ∧ ∃ done crd rest trd,
              crds = done ++ crd :: rest
              ∧ transcript h (ensureCRDs crds) w
                = trd ++ [Call (Client_CreateCRD
                                  (SetLabels
                                     (<[controllers.DynamicCacheLabel := "True"]>
                                        (default ∅ (Labels crd))) crd)) (Some e)]
              ∧ Forall2 (λ crd c,
                           ∃ a, c = Call (Client_CreateCRD
                                            (SetLabels
                                               (<[controllers.DynamicCacheLabel := "True"]>
                                                  (default ∅ (Labels crd))) crd)) a
                                ∧ match a with
                                  | None => True
                                  | Some e => IsAlreadyExists e = true
                                  end)
                        done trd
      end.
Proof.
  destruct (never_panics_returns _ h w (ensureCRDs_returns crds)) as (err & w' & Hrun).
  exists err, w'. split; [exact Hrun |].
  destruct (allows_sound _ _ [] _ h w (ensureCRDs_allows crds [])) as [_ Hq].
  destruct (Hq _ _ Hrun) as (tr & Htr & Hshape). rewrite !app_nil_l in Htr.
  rewrite Htr. exact Hshape.
Qed.

Lemma crdsFromObjects_filter (objects : list ObjectSetObject) (crds : list Unstructured) :
  crdsFromObjects objects crds
  = crds ++ filter (λ u, GroupKindOf u = crdGK) (Object <$> objects).
Proof.
  revert crds. induction objects as [|obj rest IH]; intros crds; simpl.
  - rewrite app_nil_r. reflexivity.
  - rewrite filter_cons. case_bool_decide as Hgk; simpl.
    + rewrite decide_True by exact Hgk. rewrite IH, <- app_assoc. reflexivity.
    + rewrite decide_False by exact Hgk. apply IH.
Qed.

Lemma crdsFromPhases_filter (phases : list ObjectSetTemplatePhase)
    (crds : list Unstructured) :
  crdsFromPhases phases crds
  = crds ++ filter (λ u, GroupKindOf u = crdGK)
                   (Object <$> concat (Objects <$> phases)).
Proof.
  revert crds. induction phases as [|phase rest IH]; intros crds; simpl.
  - rewrite app_nil_r. reflexivity.
  - rewrite IH, crdsFromObjects_filter, fmap_app, filter_app, <- app_assoc.
    reflexivity.
Qed.

(** X19.  [crdsFromTemplateSpec] returns the objects of the template spec
    whose group and kind are those of a CustomResourceDefinition: all of
    them and no others, phase by phase, in the order they have in their
    phase. *)
Theorem crdsFromTemplateSpec_keeps_the_CRDs (templateSpec : ObjectSetTemplateSpec) :
  crdsFromTemplateSpec templateSpec
  = filter (λ u, GroupKindOf u
                 = {| Group := "apiextensions.k8s.io";
                      Kind := "CustomResourceDefinition" |})
           (Object <$> concat (Objects <$> Phases templateSpec)).
Proof. unfold crdsFromTemplateSpec. rewrite crdsFromPhases_filter. reflexivity. Qed.
End bootstrap_crds.

Section bootstrap_init.
Context `{bootstrap.Externals}.
Import bootstrap.
Variable TemplateSpecFromPackage : PackageContent → ObjectSetTemplateSpec.

Local Abbreviation any := (λ (_ : list (entry op)) (_ : entry op), True).
Local Abbreviation Init' := (Init TemplateSpecFromPackage).

Lemma Init_returns (init : initializer) : never_panics (Init' init).
Proof.
  unfold Init, crdsFromPackage.
  apply never_panics_bind.
  - apply never_panics_bind; [apply never_panics_call |].
    intros [files [e|]]; [exact I |].
    apply never_panics_bind; [apply never_panics_call |].
    intros [content [e|]]; exact I.
  - intros [crds [e|]]; [exact I |].
    apply never_panics_bind; [apply ensureCRDs_returns |].
    intros [e|]; [exact I | apply ensureUpdatedPKO_returns].
Qed.

(** X20.  [Init] always returns, in one of two ways.  Either pulling the
    image, loading the package or creating a CRD failed: then only such
    calls were made, the last of them was answered with the error returned,
    and [needsBootstrap] is false.  Or the image was pulled and the package
    loaded without error, then every CRD of the package's template spec was
    created, in order and with the cache label, each answered without error
    or with AlreadyExists, and only then [ensureUpdatedPKO] ran, whose
    result is returned. *)
Theorem Init_installs_CRDs_then_decides {W} (h : handler op W) (w : W)
    (init : initializer) :
  ∃ out w',
    run h (Init' init) w = Done out w'
    ∧ ((∃ e call,
          out = (false, Some e)
          ∧ Forall (λ c, installsCRDs c = true) (transcript h (Init' init) w)
          ∧ last (transcript h (Init' init) w) = Some call
          ∧ answered call = Some e)
       ∨ ∃ files content creations rest,
           transcript h (Init' init) w
           = Call (PullImage (selfBootstrapImage init)) (files, None)
             :: Call (Loader_FromFiles files) (content, None)
             :: creations ++ rest
           ∧ Forall2 (λ crd c,
                        ∃ a, c = Call (Client_CreateCRD (cached crd)) a ∧ tolerated a)
                     (crdsFromTemplateSpec (TemplateSpecFromPackage content)) creations
           ∧ decides init rest out).
Proof.
  destruct (never_panics_returns _ h w (Init_returns init)) as (out & w' & Hrun).
  exists out, w'. split; [exact Hrun |].
  assert (allows any
            (λ hist out,
               (∃ e call,
                  out = (false, Some e)
                  ∧ Forall (λ c, installsCRDs c = true) hist
                  ∧ last hist = Some call ∧ answered call = Some e)
               ∨ ∃ files content creations rest,
                   hist = Call (PullImage (selfBootstrapImage init)) (files, None)
                          :: Call (Loader_FromFiles files) (content, None)
                          :: creations ++ rest
                   ∧ Forall2 (λ crd c,
                                ∃ a, c = Call (Client_CreateCRD (cached crd)) a
                                     ∧ tolerated a)
                             (crdsFromTemplateSpec (TemplateSpecFromPackage content))
                             creations
                   ∧ decides init rest out)
            [] (Init' init)) as Hshape.
  { unfold Init, crdsFromPackage.
    eapply allows_bind with
      (Q' := λ hist r,
         match r.2 with
         | Some e =>
             ∃ call, Forall (λ c, installsCRDs c = true) hist
                     ∧ last hist = Some call ∧ answered call = Some e
         | None =>
             ∃ files content,
               hist = [Call (PullImage (selfBootstrapImage init)) (files, None);
                       Call (Loader_FromFiles files) (content, None)]
               ∧ r.1 = crdsFromTemplateSpec (TemplateSpecFromPackage content)
         end).
    { allows_call as [files [e|]].
      { simpl. eexists. split; [repeat constructor |]. split; reflexivity. }
      allows_call as [content [e|]].
      { simpl. eexists. split; [repeat constructor |]. split; reflexivity. }
      simpl. exists files, content. split; reflexivity. }
    intros hist [crds [e|]] Hpre; cbn beta iota; simpl in Hpre.
    { simpl. left. destruct Hpre as (call & Hall & Hlast & Hans).
      exists e, call. auto. }
    destruct Hpre as (files & content & -> & ->).
    eapply allows_bind; [apply ensureCRDs_allows |].
    intros hist' [e|] (tr & -> & Hcrds); cbn beta iota.
    { simpl. left. destruct Hcrds as (_ & done & crd & rest & trd & _ & -> & Hdone).
      exists e, (Call (Client_CreateCRD (cached crd)) (Some e)).
      split; [reflexivity |]. split; [|split; [|reflexivity]].
      - repeat (constructor; [reflexivity |]).
        apply Forall_app. split; [|repeat constructor].
        clear -Hdone. induction Hdone as [|crd0 c done trd (a & -> & _) _ IH];
          constructor; [reflexivity | exact IH].
      - rewrite !last_cons, last_snoc. reflexivity. }
    eapply allows_mono; [|apply ensureUpdatedPKO_allows].
    intros hist' out' (rest & -> & Hd). right.
    exists files, content, tr, rest. rewrite <- app_assoc.
    split; [reflexivity |]. split; [exact Hcrds | exact Hd]. }
  destruct (allows_sound _ _ [] _ h w Hshape) as [_ Hq].
  specialize (Hq _ _ Hrun). rewrite !app_nil_l in Hq. exact Hq.
Qed.
End bootstrap_init.

Section sample_runs.
#[local] Existing Instance sampleCluster.externals.

(** [Init] on the sample cluster: the two CRDs of the package are created,
    the Deployment of its first phase is not, and the ClusterPackage is
    looked up only then. *)
Example Init_on_the_sample_cluster :
  transcript sampleCluster.handle
    (@bootstrap.Init sampleCluster.externals sampleCluster.templateSpec
       sampleCluster.init)
    sampleCluster.outdated
  = [Call (bootstrap.PullImage "quay.io/package-operator/package:v2")
          (["manifest.yaml"], None);
     Call (bootstrap.Loader_FromFiles ["manifest.yaml"])
          ([[(bootstrap.crdGK, "clusterpackages");
             ({| bootstrap.Group := "apps"; bootstrap.Kind := "Deployment" |},
              "package-operator-manager")];
            [(bootstrap.crdGK, "clusterobjectsets")]], None);
     Call (bootstrap.Client_CreateCRD
             (@bootstrap.Build_Unstructured sampleCluster.externals bootstrap.crdGK
                "clusterpackages" (Some {["package-operator.run/cache" := "True"]}) ()))
          None;
     Call (bootstrap.Client_CreateCRD
             (@bootstrap.Build_Unstructured sampleCluster.externals bootstrap.crdGK
                "clusterobjectsets" (Some {["package-operator.run/cache" := "True"]}) ()))
          None;
     Call (bootstrap.Client_Get
             {| types.Namespace := ""; types.Name := "package-operator" |}
             sampleCluster.empty)
          (sampleCluster.package "quay.io/package-operator/package:v1", None);
     Call (bootstrap.Client_Delete
             (@bootstrap.pkoDeployment sampleCluster.externals sampleCluster.init)
             bootstrap.DeletePropagationForeground)
          (Some sampleCluster.notFound);
     Call (bootstrap.Client_MergePatch
             (sampleCluster.package "quay.io/package-operator/package:v2")) None]
  ∧ run sampleCluster.handle
      (@bootstrap.Init sampleCluster.externals sampleCluster.templateSpec
         sampleCluster.init)
      sampleCluster.outdated
    = Done (true, None)
        {| sampleCluster.found :=
             Some (sampleCluster.package "quay.io/package-operator/package:v2");
           sampleCluster.available := true |}.
Proof. split; reflexivity. Qed.
End sample_runs.

(* ===================================================================== *)
(** ** The clean-up program *)
(* ===================================================================== *)

Section finishes_rules.
Context {E : Type → Type}.

Lemma finishes_bind {A B} (Q' : list (entry E) → A + error → Prop)
    (Q : list (entry E) → B + error → Prop)
    (hist : list (entry E)) (m : prog E A) (f : A → prog E B) :
  finishes Q' hist m →
  (∀ hist' a, Q' hist' (inl a) → finishes Q hist' (f a)) →
  (∀ hist' v, Q' hist' (inr v) → Q hist' (inr v)) →
  finishes Q hist (m ≫= f).
Proof.
  intros Hm Hf Hp. unfold mbind, prog_bind. revert hist Hm.
  induction m as [a | v | X c k IH]; intros hist Hm; simpl in *.
  - apply Hf. exact Hm.
  - apply Hp. exact Hm.
  - intros x. apply IH. apply Hm.
Qed.

Lemma finishes_call {X} (hist : list (entry E)) (c : E X) :
  finishes (λ hist' r, ∃ x, r = inl x ∧ hist' = hist ++ [Call c x]) hist (call c).
Proof. intros x. exists x. split; reflexivity. Qed.

Lemma finishes_sound {A W} (Q : list (entry E) → A + error → Prop)
    (hist : list (entry E)) (m : prog E A) (h : handler E W) (w : W) :
  finishes Q hist m →
  match run h m w with
  | Done a _ => Q (hist ++ transcript h m w) (inl a)
  | Panicked v _ => Q (hist ++ transcript h m w) (inr v)
  end.
Proof.
  revert hist w. induction m as [a | v | X c k IH]; intros hist w Hm; simpl in *.
  - rewrite app_nil_r. exact Hm.
  - rewrite app_nil_r. exact Hm.
  - destruct (h _ c w) as [x w1]. specialize (IH x _ w1 (Hm x)).
    rewrite <- app_assoc in IH. exact IH.
Qed.
End finishes_rules.

(** One call, then case analysis on its answer. *)
Tactic Notation "finishes_call" "as" simple_intropattern(x) :=
  eapply finishes_bind;
  [apply finishes_call
  | intros ? x (? & [= <-] & ->)
  | intros ? ? (? & [=] & _)].

Section cleanup_runs.
Context {Body Selector : Type}.
Import cleanup.

Local Abbreviation op := (@cleanup.op Body Selector).
Local Abbreviation calls := (filter (λ e : entry op, prints e = false)).

Lemma finishes_mono {A} (Q Q' : list (entry op) → A + error → Prop)
    (hist : list (entry op)) (m : prog op A) :
  (∀ hist' r, Q hist' r → Q' hist' r) → finishes Q hist m → finishes Q' hist m.
Proof.
  intros HQ. revert hist.
  induction m as [a | v | X c k IH]; intros hist Hm; simpl in *.
  - apply HQ. exact Hm.
  - apply HQ. exact Hm.
  - intros x. apply IH. apply Hm.
Qed.

Lemma calls_app (l1 l2 : list (entry op)) : calls (l1 ++ l2) = calls l1 ++ calls l2.
Proof. apply filter_app. Qed.

Lemma patchAll_finishes (items : list ClusterObjectSet) (hist : list (entry op)) :
  finishes
    (λ hist' r,
       ∃ tr, hist' = hist ++ tr
             ∧ match r with
               | inl _ => calls tr = strips None <$> items
               | inr v =>
                   ∃ done cos rest cause,
                     items = done ++ cos :: rest
                     ∧ calls tr = (strips None <$> done) ++ [strips (Some cause) cos]
                     ∧ v = fmt_Errorf
                             ("could not patch cos "
                              +:+ metav1.Name (ObjectMeta cos) +:+ ": ")
                             cause ""
               end)
    hist (patchAll items).
Proof.
  revert hist. induction items as [|cos rest IH]; intros hist.
  - simpl. exists []. rewrite app_nil_r. split; reflexivity.
  - cbn [patchAll]. cbv zeta. finishes_call as [].
    finishes_call as [cause|].
    { simpl. eexists. rewrite <- app_assoc. split; [reflexivity |].
      exists [], cos, rest, cause. split; [reflexivity |]. split; reflexivity. }
    finishes_call as [].
    eapply finishes_mono; [|apply IH].
    intros hist' r (tr & -> & Hshape). eexists. rewrite <- !app_assoc.
    split; [reflexivity |]. rewrite !calls_app.
    destruct r as [[]|v].
    + rewrite Hshape. reflexivity.
    + destruct Hshape as (done & cos0 & rest0 & cause & -> & Hcalls & ->).
      exists (cos :: done), cos0, rest0, cause. split; [reflexivity |].
      split; [|reflexivity]. rewrite Hcalls. reflexivity.
Qed.

End cleanup_runs.

(* ===================================================================== *)
(** ** When [secretReconciler.Reconcile] panics *)
(* ===================================================================== *)

Section panics.
Context {E : Type → Type}.

Lemma finishes_weaken {A} (Q Q' : list (entry E) → A + error → Prop)
    (hist : list (entry E)) (m : prog E A) :
  (∀ hist' r, Q hist' r → Q' hist' r) → finishes Q hist m → finishes Q' hist m.
Proof.
  intros HQ. revert hist.
  induction m as [a | v | X c k IH]; intros hist Hm; simpl in *.
  - apply HQ. exact Hm.
  - apply HQ. exact Hm.
  - intros x. apply IH. apply Hm.
Qed.

Lemma never_panics_finishes {A} (hist : list (entry E)) (m : prog E A) :
  never_panics m → finishes (λ _ r, ∃ a, r = inl a) hist m.
Proof.
  revert hist. induction m as [a | v | X c k IH]; intros hist Hm; simpl in *.
  - eauto.
  - destruct Hm.
  - intros x. apply IH. apply Hm.
Qed.
End panics.

Section sync_panics.
Variable K : v1alpha1.Constants.
Variable now : metav1.Time.

Lemma EnsureFinalizer_returns {T : Type} `{Object T} (obj : T) (finalizer : string) :
  never_panics (controllers.EnsureFinalizer obj finalizer).
Proof.
  unfold controllers.EnsureFinalizer.
  destruct (controllerutil.ContainsFinalizer obj finalizer); [exact I |].
  cbn [json_Marshal]. cbv zeta.
  apply never_panics_bind; [apply never_panics_call |].
  intros [s [e|]]; exact I.
Qed.

Lemma syncDest_returns (s : v1alpha1.SecretSync) (src : corev1.Secret)
    (dests acc : list types.NamespacedName) (lut : gset types.NamespacedName) :
  never_panics (secretsync.syncDest K s src dests acc lut).
Proof.
  revert acc lut. induction dests as [|dest rest IH]; intros acc lut; [exact I |].
  cbn [secretsync.syncDest].
  apply never_panics_bind; [apply never_panics_call |]. intros [e|]; [exact I |].
  apply never_panics_bind; [apply never_panics_call |]. intros [owned [e|]]; [exact I |].
  apply never_panics_bind; [apply never_panics_call |].
  intros [answered [e|]]; [exact I |]. apply IH.
Qed.

Lemma deleteUnmanaged_returns (items : list corev1.Secret)
    (lut : gset types.NamespacedName) :
  never_panics (secretsync.deleteUnmanaged items lut).
Proof.
  induction items as [|item rest IH]; [exact I |].
  cbn [secretsync.deleteUnmanaged]. case_bool_decide; [exact IH |].
  apply never_panics_bind; [apply never_panics_call |].
  intros [e|]; [|exact IH]. unfold IgnoreNotFound.
  destruct (IsNotFound e); [exact IH | exact I].
Qed.

(** What follows the choice of the reader never panics. *)
Lemma after_the_reader_returns (s : v1alpha1.SecretSync) (r : reader) :
  never_panics
    ('(srcSecret, err) ←
       call (Reader_Get r
               {| types.Namespace :=
                    types.Namespace (v1alpha1.Src (v1alpha1.Spec s));
                  types.Name := types.Name (v1alpha1.Src (v1alpha1.Spec s)) |}
               corev1.zero);
     match err with
     | Some err =>
         Ret (secretsync.fail s (fmt_Errorf "getting source object: " err ""))
     | None =>
         synced ← secretsync.syncDest K s srcSecret
                    (v1alpha1.Dest (v1alpha1.Spec s)) [] ∅;
         match synced with
         | inl err => Ret (secretsync.fail s err)
         | inr (controllerOf, controllerOfLUT) =>
             '(managedSecretsList, err) ←
               call (Cache_List
                       (<[secretsync.ManagedByLabel :=
                            metav1.Name (v1alpha1.ObjectMeta s)]> ∅));
             match err with
             | Some err =>
                 Ret (secretsync.fail s
                        (fmt_Errorf "listing managed secrets: " err ""))
             | None =>
                 err ← secretsync.deleteUnmanaged managedSecretsList controllerOfLUT;
                 match err with
                 | Some err => Ret (secretsync.fail s err)
                 | None =>
                     let status := v1alpha1.Status s in
                     let '(conditions, condChanged) :=
                       meta.SetStatusCondition now (v1alpha1.Conditions status)
                         {| metav1.Type_ := v1alpha1.SecretSyncSync K;
                            metav1.Status := metav1.ConditionTrue;
                            metav1.Reason := "SuccessfulSync";
                            metav1.Message := "Synchronization completed successfully.";
                            metav1.ObservedGeneration :=
                              metav1.Generation (v1alpha1.ObjectMeta s);
                            metav1.LastTransitionTime := 0 |} in
                     let statusChanged :=
                       condChanged
                       || negb (bool_decide
                                  (v1alpha1.ControllerOf status = Some controllerOf))
                       || negb (String.eqb (v1alpha1.Phase status)
                                  (v1alpha1.SecretSyncStatusPhaseSync K)) in
                     Ret (v1alpha1.withStatus
                            {| v1alpha1.Conditions := conditions;
                               v1alpha1.Phase := v1alpha1.SecretSyncStatusPhaseSync K;
                               v1alpha1.ControllerOf := Some controllerOf |} s,
                          {| secretsync.statusChanged := statusChanged |}, None)
                 end
             end
         end
     end).
Proof.
  apply never_panics_bind; [apply never_panics_call |].
  intros [src [e|]]; [exact I |].
  apply never_panics_bind; [apply syncDest_returns |].
  intros [e | [controllerOf lut]]; [exact I |].
  apply never_panics_bind; [apply never_panics_call |].
  intros [listed [e|]]; [exact I |].
  apply never_panics_bind; [apply deleteUnmanaged_returns |].
  intros [e|]; [exact I |].
  cbv zeta. destruct (meta.SetStatusCondition _ _ _). exact I.
Qed.

(** X22.  [secretReconciler.Reconcile] panics with nothing but
    [ErrInvalidStrategy], and before the source secret is read.  It never
    panics, and so returns, on an object with a poll and no watch strategy,
    and on an object with a watch strategy that already has the cached
    finalizer. *)
Theorem secretReconciler_panics_only_on_invalid_strategy {W} (h : handler op W)
    (w : W) (ss : v1alpha1.SecretSync) :
  (∀ v w',
     run h (secretsync.secretReconciler_Reconcile K now ss) w = Panicked v w' →
     v = secretsync.ErrInvalidStrategy
     ∧ Forall (λ e, syncing.reads e = None)
              (transcript h (secretsync.secretReconciler_Reconcile K now ss) w))
  ∧ ((v1alpha1.Watch (v1alpha1.Strategy (v1alpha1.Spec ss)) = None
      ∧ is_Some (v1alpha1.Poll (v1alpha1.Strategy (v1alpha1.Spec ss))))
     ∨ (is_Some (v1alpha1.Watch (v1alpha1.Strategy (v1alpha1.Spec ss)))
        ∧ controllerutil.ContainsFinalizer ss controllers.CachedFinalizer = true) →
     ∃ out w',
       run h (secretsync.secretReconciler_Reconcile K now ss) w = Done out w').
Proof.
  split.
  - assert (finishes
              (λ hist r,
                 match r with
                 | inl _ => True
                 | inr v => v = secretsync.ErrInvalidStrategy
                            ∧ Forall (λ e, syncing.reads e = None) hist
                 end)
              [] (secretsync.secretReconciler_Reconcile K now ss)) as Hfin.
    { unfold secretsync.secretReconciler_Reconcile.
      destruct (_ || _); [exact I |].
      eapply finishes_bind with
        (Q' := λ hist r, Forall (λ e, syncing.reads e = None) hist
                         ∧ ∃ a, r = inl a).
      - destruct (v1alpha1.Watch _) as [watch|]; [|split; [constructor | eauto]].
        unfold controllers.EnsureCachedFinalizer.
        eapply finishes_bind with
          (Q' := λ hist r, Forall (λ e, syncing.reads e = None) hist
                           ∧ ∃ a, r = inl a).
        + unfold controllers.EnsureFinalizer.
          destruct (controllerutil.ContainsFinalizer _ _);
            [split; [constructor | eauto] |].
          cbn [json_Marshal]. cbv zeta.
          intros [s1 [e1|]]; simpl; (split; [repeat constructor | eauto]).
        + intros hist [s [e|]] [Hq _]; cbn beta iota;
            [split; [exact Hq | eauto] |].
          intros [e|]; [split; [|eauto]; apply Forall_app; split;
                          [exact Hq | repeat constructor] |].
          intros [e|]; (split; [|eauto]);
            repeat (apply Forall_app; split; [|repeat constructor]); exact Hq.
        + intros hist v [_ [a [=]]].
      - intros hist [s [e|]] [Hq _]; cbn beta iota; [exact I |].
        destruct (secretsync.srcReaderForStrategy _) as [r | v] eqn:Hr.
        + eapply finishes_weaken;
            [|apply never_panics_finishes; apply after_the_reader_returns].
          intros hist' [a | v] [a' Ha]; [exact I | discriminate].
        + simpl. split; [|exact Hq].
          unfold secretsync.srcReaderForStrategy in Hr.
          destruct (v1alpha1.Watch _); [discriminate |].
          destruct (v1alpha1.Poll _); [discriminate |].
          injection Hr as <-. reflexivity.
      - intros hist v [_ [a [=]]]. }
    intros v w' Hrun. pose proof (finishes_sound _ [] _ h w Hfin) as Hq.
    unfold secretsync.reconciled in *. rewrite Hrun, app_nil_l in Hq. exact Hq.
  - intros Hvalid.
    assert (∀ r, secretsync.srcReaderForStrategy
                   (v1alpha1.Strategy (v1alpha1.Spec ss)) ≠ inr r) as Hreader.
    { intros r. unfold secretsync.srcReaderForStrategy.
      destruct Hvalid as [[-> [poll ->]] | [[watch ->] _]]; discriminate. }
    assert (finishes (λ _ r, ∃ a, r = inl a)
              [] (secretsync.secretReconciler_Reconcile K now ss)) as Hfin.
    { unfold secretsync.secretReconciler_Reconcile.
      destruct (_ || _); [simpl; eauto |].
      eapply finishes_bind with (Q' := λ _ r, ∃ e, r = inl (ss, e)).
      - destruct Hvalid as [[Hwatch _] | [[watch Hwatch] Hc]]; rewrite Hwatch.
        + simpl. eauto.
        + unfold controllers.EnsureCachedFinalizer, controllers.EnsureFinalizer.
          rewrite Hc. cbn [mbind prog_bind bind]. cbn beta iota.
          intros [e|]; [simpl; eauto |].
          intros [e|]; simpl; eauto.
      - intros hist [s0 e0] [e [= -> ->]]. cbn beta iota.
        destruct e as [e|]; [simpl; eauto |].
        destruct (secretsync.srcReaderForStrategy _) as [r | v] eqn:Hr;
          [|destruct (Hreader v eq_refl)].
        apply never_panics_finishes. apply after_the_reader_returns.
      - intros hist v [e [=]]. }
    pose proof (finishes_sound _ [] _ h w Hfin) as Hq.
    destruct (run h (secretsync.secretReconciler_Reconcile K now ss) w)
      as [out w' | v w'].
    + eauto.
    + destruct Hq as [a [=]].
Qed.
End sync_panics.
